(** * cityzn-simulation: the training-set assembly of [create_ml_dataset_v3.py]

    A shallow embedding of the preprocessing script
    [src/preprocessing/create_ml_dataset_v3.py] (sensor matching, static edge
    features, count and weather lookups, the edge x timestamp grid and the
    lag features) and of the calendar flags of [src/models/predict_v3.py],
    followed by the weather selection, the flags, the label encoding and the
    rounding of [predict_v3.py], the encoding and the split of
    [src/models/train_v3.py], and the statistics and hourly files of
    [src/data_collection/fetch_bike_counters.py].

    Conventions of the embedding.
    - A Python exception is a value of [exn]; code that may raise lives in
      the [result] monad.
    - A float is a rational ([Q]); NaN and None are both [None] in an
      [option], as pandas treats them alike ([pd.isna], [notna], [fillna]).
      Comparisons are exact. The float operations that come before a
      comparison or a stored value, the addition of 360 to a bearing and the
      rounding of a distance to one decimal, round to the nearest binary64
      number ([binary64]); the means are taken exactly.
    - A tag read from the OSM feed is a Python [str], kept as its list of
      Unicode code points ([pystr]).
    - Timestamps are whole seconds since 1970-01-01T00:00:00 ([Z]).
    - What the geometry libraries compute (re-projection, point to line
      distance, [arctan2]) is a parameter of the development. *)

From Stdlib Require Import ZArith QArith Qround Qabs Qpower Lia Lqa.
From stdpp Require Import base option list gmap sets strings sorting.

Local Open Scope Z_scope.

(** ** Python exceptions *)

Inductive exn : Set := KeyError | ValueError | IndexError.

Inductive result (A : Type) : Type :=
| Ok (a : A)
| Raise (e : exn).
Arguments Ok {A} a.
Arguments Raise {A} e.

Definition rbind {A B} (m : result A) (k : A -> result B) : result B :=
  match m with
  | Ok a => k a
  | Raise e => Raise e
  end.

Notation "x <~ m ;; k" := (rbind m (fun x => k))
  (at level 100, m at next level, k at level 200, right associativity).

(** A [for] loop whose body appends one value (or raises). *)
Fixpoint for_each {A B} (body : A -> result B) (l : list A) : result (list B) :=
  match l with
  | [] => Ok []
  | x :: rest =>
      y <~ body x ;;
      ys <~ for_each body rest ;;
      Ok (y :: ys)
  end.

(** A [for] loop that updates an accumulator (or raises). *)
Fixpoint for_fold {A S} (body : S -> A -> result S) (s : S) (l : list A) : result S :=
  match l with
  | [] => Ok s
  | x :: rest => s' <~ body s x ;; for_fold body s' rest
  end.

(** ** Python strings *)

Definition pystr := list N.

Definition lit (s : string) : pystr :=
  Ascii.N_of_ascii <$> String.list_ascii_of_string s.

(** First code point of each run of ten Unicode decimal digits (general
    category Nd): [str.isdecimal] characters, the ones [int] reads. *)
Definition decimal_zeros : list N :=
  [48; 1632; 1776; 1984; 2406; 2534; 2662; 2790; 2918; 3046; 3174; 3302;
   3430; 3558; 3664; 3792; 3872; 4160; 4240; 6112; 6160; 6470; 6608; 6784;
   6800; 6992; 7088; 7232; 7248; 42528; 43216; 43264; 43472; 43504; 43600;
   44016; 65296; 66720; 68912; 69734; 69872; 69942; 70096; 70384; 70736;
   70864; 71248; 71360; 71472; 71904; 72016; 72784; 73040; 73120; 92768;
   92864; 93008; 120782; 120792; 120802; 120812; 120822; 123200; 123632;
   125264; 130032]%N.

(** Code points that [str.isdigit] accepts although they are no decimal
    digits (superscripts, subscripts, circled digits, ...), as closed
    ranges. *)
Definition digit_only_ranges : list (N * N) :=
  [(178, 179); (185, 185); (4969, 4977); (6618, 6618); (8304, 8304);
   (8308, 8313); (8320, 8329); (9312, 9320); (9332, 9340); (9352, 9360);
   (9450, 9450); (9461, 9469); (9471, 9471); (10102, 10110); (10112, 10120);
   (10122, 10130); (68160, 68163); (69216, 69224); (69714, 69722);
   (127232, 127242)]%N.

Definition decimal_value (c : N) : option N :=
  (fun z => (c - z)%N) <$> List.find (fun z => (z <=? c)%N && (c <=? z + 9)%N) decimal_zeros.

Definition is_digit_char (c : N) : bool :=
  match decimal_value c with
  | Some _ => true
  | None => existsb (fun r => (fst r <=? c)%N && (c <=? snd r)%N) digit_only_ranges
  end.

(** [s.isdigit()]: at least one character, all of them digits. *)
Definition isdigit (s : pystr) : bool :=
  match s with
  | [] => false
  | _ => forallb is_digit_char s
  end.

(** [int(s)] on a string without sign, blank or underscore (none of them
    passes [isdigit]): the base-10 value when every character is a decimal
    digit, ValueError otherwise, and ValueError on more than 4300 digits
    ([sys.int_max_str_digits], which counts leading zeros too). *)
Fixpoint int_digits (acc : Z) (s : pystr) : result Z :=
  match s with
  | [] => Ok acc
  | c :: rest =>
      match decimal_value c with
      | Some d => int_digits (10 * acc + Z.of_N d) rest
      | None => Raise ValueError
      end
  end.

Definition int_max_str_digits : nat := 4300.

Definition py_int (s : pystr) : result Z :=
  match s with
  | [] => Raise ValueError
  | _ => if (int_max_str_digits <? length s)%nat then Raise ValueError else int_digits 0 s
  end.

Definition member (s : pystr) (l : list string) : bool :=
  bool_decide (s ∈ lit <$> l).

(** ** Floating-point numbers *)

(** [np.rint]: the nearest integer, a tie going to the even one. *)
Definition rint (q : Q) : Z :=
  let f := Qfloor q in
  match (q - inject_Z f ?= 1 # 2)%Q with
  | Lt => f
  | Gt => f + 1
  | Eq => if Z.even f then f else f + 1
  end.

(** The power of two at or below the magnitude of a rational other than
    zero: [2 ^ exponent q <= |q| < 2 ^ (exponent q + 1)]. *)
Definition exponent (q : Q) : Z :=
  let a := Qabs q in
  if Qle_bool 1 a then Z.log2 (Qfloor a) else - Z.log2_up (Qceiling (/ a)).

(** What an arithmetic operation on floats returns when its exact result
    is [q]: the binary64 number nearest to [q], a tie going to the even
    significand. A binary64 number is a multiple of [2 ^ (exponent - 52)],
    and of [2 ^ -1074] below the normal range. Overflow is left out: no
    quantity of the scripts comes near [2 ^ 1024]. *)
Definition binary64 (q : Q) : Q :=
  if Qeq_bool q 0 then 0%Q
  else
    let e := Z.max (exponent q - 52) (-1074) in
    Qred (inject_Z (rint (q * 2 ^ (- e))) * 2 ^ e).

(** ** Static edge features (step 7) *)

Section static_features.

(** [np.degrees(np.arctan2(dy, dx))], in (-180, 180]. *)
Variable arctan2_degrees : Q -> Q -> Q.

(** Python's lowercase mapping of a code point outside ASCII (the Unicode
    case tables). *)
Variable lower_nonascii : N -> pystr.

Definition lower_char (c : N) : pystr :=
  if (c <? 128)%N then
    if (65 <=? c)%N && (c <=? 90)%N then [(c + 32)%N] else [c]
  else lower_nonascii c.

Definition lower (s : pystr) : pystr := s ≫= lower_char.

(** The chain of comparisons at the end of [calc_orientation]. *)
Definition octant (angle : Q) : string :=
  if Qlt_le_dec angle (45 # 2) then "E"
  else if Qlt_le_dec angle (675 # 2) then
    if Qlt_le_dec angle (135 # 2) then "NE"
    else if Qlt_le_dec angle (225 # 2) then "N"
    else if Qlt_le_dec angle (315 # 2) then "NW"
    else if Qlt_le_dec angle (405 # 2) then "W"
    else if Qlt_le_dec angle (495 # 2) then "SW"
    else if Qlt_le_dec angle (585 # 2) then "S"
    else "SE"
  else "E".

(** [if angle < 0: angle += 360], a float addition. *)
Definition wrap_angle (angle : Q) : Q :=
  if Qlt_le_dec angle 0 then binary64 (angle + 360) else angle.

(** [dx] and [dy] between the first and the last coordinate. *)
Definition delta (coords : list (Q * Q)) : Q * Q :=
  let first := default (0%Q, 0%Q) (head coords) in
  let final := default (0%Q, 0%Q) (last coords) in
  ((fst final - fst first)%Q, (snd final - snd first)%Q).

Definition bearing (coords : list (Q * Q)) : Q :=
  arctan2_degrees (snd (delta coords)) (fst (delta coords)).

Definition calc_orientation (coords : list (Q * Q)) : option string :=
  if (length coords <? 2)%nat then None
  else Some (octant (wrap_angle (bearing coords))).

Definition fillna (d : string) (x : option pystr) : pystr := default (lit d) x.

Definition categorize_road (highway_type : pystr) : string :=
  if member highway_type ["motorway"; "trunk"] then "major"
  else if member highway_type ["primary"; "secondary"] then "arterial"
  else if member highway_type ["tertiary"; "residential"] then "local"
  else if member highway_type ["cycleway"; "path"] then "bike_path"
  else "other".

(** [lambda x: int(x) if pd.notna(x) and str(x).isdigit() else d] *)
Definition int_or_default (d : Z) (x : option pystr) : result Z :=
  match x with
  | Some s => if isdigit s then py_int s else Ok d
  | None => Ok d
  end.

Definition maxspeed_kmh : option pystr -> result Z := int_or_default 50.
Definition lanes_count : option pystr -> result Z := int_or_default 2.

Definition categorize_surface (surface : option pystr) : string :=
  match surface with
  | None => "unknown"
  | Some s =>
      let surface := lower s in
      if member surface ["asphalt"; "paved"] then "good"
      else if member surface ["concrete"; "paving_stones"] then "medium"
      else "poor"
  end.

Definition equals (x : option pystr) (s : string) : bool :=
  match x with
  | Some v => bool_decide (v = lit s)
  | None => false
  end.

End static_features.

(** The octants as the design words them: eight half-open intervals of 45
    degrees, counted anticlockwise from [-22.5, 22.5), which is E. *)
Definition compass : list string := ["E"; "NE"; "N"; "NW"; "W"; "SW"; "S"; "SE"].

Definition spec_octant (b : Q) : string :=
  default "E" (compass !! Z.to_nat (Qfloor ((b + (45 # 2)) / 45) mod 8)).

(** The spacing of the binary64 numbers between 256 and 512, and twice the
    spacing of those between 128 and 256: [2 ^ -44]. *)
Definition ulp_360 : Q := 1 # 17592186044416.

(** The binary64 number next below -22.5, which prints as
    -22.500000000000004: the bearing that the C library measures from
    (0, 0) to (1, -0.4142135623730951). *)
Definition below_minus_22_5 : Q := - (6333186975989761 # 281474976710656).

(** ** Calendar flags *)

(** [ts.hour] and [ts.weekday()] (Monday is 0; 1970-01-01 was a Thursday). *)
Definition hour_of (ts : Z) : Z := (ts / 3600) mod 24.
Definition weekday (ts : Z) : Z := (ts / 86400 + 3) mod 7.

(** [create_ml_dataset_v3.py], lines 417-418. *)
Module Train.
Definition is_rush_hour_morning (hour : Z) : bool := (7 <=? hour) && (hour <=? 9).
Definition is_rush_hour_evening (hour : Z) : bool := (17 <=? hour) && (hour <=? 19).
End Train.

(** [predict_v3.py], lines 169-170: [int(hour in [7, 8, 9])]. *)
Module Predict.
Definition py_in (x : Z) (l : list Z) : bool := existsb (Z.eqb x) l.
Definition int (b : bool) : Z := if b then 1 else 0.
Definition is_rush_hour_morning (hour : Z) : Z := int (py_in hour [7; 8; 9]).
Definition is_rush_hour_evening (hour : Z) : Z := int (py_in hour [17; 18; 19]).
End Predict.

(** ** Records of the pipeline *)

(** One entry of [sensors_data['sensors']]. The collector writes both
    coordinates for every sensor ([sensor.get('lat')]), null when the feed
    has none. *)
Module Info.
Record t := mk { name : string; lat : option Q; lon : option Q }.
End Info.

(** One row of [sensors_gdf]; [geometry] is [Point(lon, lat)]. *)
Module Sensor.
Record t := mk { counter_id : string; name : string; geometry : Q * Q }.
End Sensor.

(** One feature of the OSM feed, with its geometry in Lambert 93 and what
    the geometry libraries measured on it. The collector writes the
    identifier and the name of every edge and leaves out the tags that the
    edge does not carry ([None]). *)
Module Edge.
Record t := mk {
  osm_id : Z;
  name : string;
  highway : option pystr;
  maxspeed : option pystr;
  lanes : option pystr;
  oneway : option pystr;
  surface : option pystr;
  lit : option pystr;
  cycleway : option pystr;
  bicycle : option pystr;
  coords : list (Q * Q);
  edge_length_m : Q;
  distance_to_center_km : Q;
  has_dedicated_bike_lane : bool;
  bike_lane_distance_m : Q
}.
End Edge.

(** One row of [edges_gdf] after step 7. *)
Module Static.
Record t := mk {
  osm_id : Z;
  highway_type : pystr;
  road_category : string;
  lanes : Z;
  maxspeed_kmh : Z;
  is_oneway : bool;
  has_cycleway : bool;
  cycleway_type : pystr;
  has_dedicated_bike_lane : bool;
  bike_lane_distance_m : Q;
  surface_quality : string;
  bicycle_access : pystr;
  is_lit : bool;
  edge_length_m : Q;
  distance_to_center_km : Q;
  orientation : option string;
  has_real_sensor : bool
}.
End Static.

(** A value of [sensor_to_edge]. *)
Module Assoc.
Record t := mk { edge_id : Z; distance_m : Q; sensor_name : string }.
End Assoc.

(** One count record, and one row of [bike_df] once mapped to its edge. *)
Module Count.
Record t := mk { counter_id : string; timestamp : Z; count : Z }.
End Count.

Module Bike.
Record t := mk { edge_id : Z; timestamp : Z; count : Z }.
End Bike.

Module Weather.
Record t := mk {
  timestamp : Z;
  temperature_c : option Q;
  precipitation_mm : option Q;
  wind_speed_kmh : option Q;
  is_raining : bool
}.
End Weather.

(** One element of [dataset_rows]. The twelve infrastructure columns are
    the fields of [edge_row] that the script copies. *)
Module Row.
Record t := mk {
  edge_id : Z;
  timestamp : Z;
  hour : Z;
  day_of_week : Z;
  is_weekend : bool;
  is_rush_hour_morning : bool;
  is_rush_hour_evening : bool;
  temperature_c : option Q;
  precipitation_mm : option Q;
  wind_speed_kmh : option Q;
  is_raining : bool;
  is_cold : bool;
  is_hot : bool;
  is_windy : bool;
  edge_row : Static.t;
  bike_count : option Z
}.
Definition key (r : t) : Z * Z := (edge_id r, timestamp r).
End Row.

(** One row of [final_df] after step 9. *)
Module Final.
Record t := mk {
  row : Row.t;
  bike_count_lag_1h : option Z;
  bike_count_lag_24h : option Z;
  bike_count_rolling_7d : option Q
}.
End Final.

(** ** pandas and numpy operations *)

Definition Qlt_bool (a b : Q) : bool := negb (Qle_bool b a).

(** Truth value of a JSON number or null. *)
Definition truthy (x : option Q) : bool :=
  match x with
  | Some q => negb (Qeq_bool q 0)
  | None => false
  end.

(** [l.iloc[i]]: Python indexing, a negative index counts from the end. *)
Definition iloc {A} (l : list A) (i : Z) : result A :=
  let n := Z.of_nat (length l) in
  let j := if i <? 0 then n + i else i in
  if (0 <=? j) && (j <? n) then
    match l !! Z.to_nat j with
    | Some x => Ok x
    | None => Raise IndexError
    end
  else Raise IndexError.

(** [Series.idxmin()] over a default index: the position of the first
    minimum; ValueError on an empty series. *)
Fixpoint argmin_from (best : nat) (best_val : Q) (i : nat) (l : list Q) : nat :=
  match l with
  | [] => best
  | x :: rest =>
      if Qlt_le_dec x best_val then argmin_from i x (S i) rest
      else argmin_from best best_val (S i) rest
  end.

Definition idxmin (l : list Q) : result nat :=
  match l with
  | [] => Raise ValueError
  | x :: rest => Ok (argmin_from 0 x 1 rest)
  end.

(** [round(x, 1)] of a numpy float, as numpy computes it:
    [rint(x * 10) / 10], the product and the quotient each rounded to
    binary64. *)
Definition round1 (q : Q) : Q := binary64 (inject_Z (rint (binary64 (q * 10))) / 10).

(** [Series.searchsorted(key)] (side left): numpy's binary search. *)
Fixpoint bisect_left (fuel : nat) (a : list Z) (key : Z) (lo hi : nat) : nat :=
  match fuel with
  | O => lo
  | S fuel' =>
      if (lo <? hi)%nat then
        let mid := (lo + (hi - lo) / 2)%nat in
        if default 0 (a !! mid) <? key
        then bisect_left fuel' a key (S mid) hi
        else bisect_left fuel' a key lo mid
      else lo
  end.

Definition searchsorted (a : list Z) (key : Z) : nat :=
  bisect_left (length a) a key 0 (length a).

(** [Series.shift(periods)] *)
Definition shift {A} (periods : nat) (x : list (option A)) : list (option A) :=
  take (length x) (replicate periods None ++ x).

(** [Series.rolling(window, min_periods).mean()]: the mean of the values
    that are not NaN among the last [window] rows, NaN when fewer than
    [min_periods] of them are. *)
Definition window_at {A} (window : nat) (x : list A) (i : nat) : list A :=
  drop (S i - window) (take (S i) x).

Definition sumZ (l : list Z) : Z := foldr Z.add 0 l.

Definition mean (obs : list Z) : Q :=
  Qred (inject_Z (sumZ obs) / inject_Z (Z.of_nat (length obs))).

Definition rolling_mean_at (window min_periods : nat) (x : list (option Z)) (i : nat) : option Q :=
  let obs := omap id (window_at window x i) in
  if (length obs <? min_periods)%nat || (length obs =? 0)%nat then None
  else Some (mean obs).

Definition rolling_mean (window min_periods : nat) (x : list (option Z)) : list (option Q) :=
  imap (fun i _ => rolling_mean_at window min_periods x i) x.

(** [df.groupby(key)[col].transform(f)] (and [.shift]): split the column by
    key, apply [f] to each group, put every result back on its row. *)
Definition group {V} (keys : list Z) (vals : list V) (k : Z) : list V :=
  (zip keys vals) ≫= (fun kv => if bool_decide (kv.1 = k) then [kv.2] else []).

Definition rank (keys : list Z) (i : nat) (k : Z) : nat :=
  length (filter (fun k' => k' = k) (take i keys)).

Definition groupby_transform {V B} (f : list V -> list (option B))
    (keys : list Z) (vals : list V) : list (option B) :=
  imap (fun i k => mjoin (f (group keys vals k) !! rank keys i k)) keys.

(** ** The pipeline *)

Section pipeline.

(** [edges_lam.geometry.distance(sensor.geometry)], for one edge: metres
    between the edge and the point, both in Lambert 93. *)
Variable distance : Edge.t -> Q * Q -> Q.
Variable arctan2_degrees : Q -> Q -> Q.
Variable lower_nonascii : N -> pystr.

(** *** Step 3: sensors to edges *)

Definition sensors_list (sensors_info : list (string * Info.t)) : list Sensor.t :=
  sensors_info ≫= (fun '(counter_id, info) =>
    if truthy (Info.lat info) && truthy (Info.lon info) then
      [Sensor.mk counter_id (Info.name info)
         (default 0%Q (Info.lon info), default 0%Q (Info.lat info))]
    else []).

Definition MAX_DISTANCE : Q := 50.

(** The body of the loop over [sensors_lam]. *)
Definition match_sensor (edges : list Edge.t)
    (sensor_to_edge : gmap string Assoc.t) (sensor : Sensor.t)
    : result (gmap string Assoc.t) :=
  let distances := (fun e => distance e (Sensor.geometry sensor)) <$> edges in
  min_dist_idx <~ idxmin distances ;;
  match distances !! min_dist_idx, edges !! min_dist_idx with
  | Some min_dist, Some e =>
      if Qle_bool min_dist MAX_DISTANCE then
        Ok (<[Sensor.counter_id sensor :=
                Assoc.mk (Edge.osm_id e) (round1 min_dist) (Sensor.name sensor)]>
              sensor_to_edge)
      else Ok sensor_to_edge
  | _, _ => Raise KeyError
  end.

Definition sensor_to_edge (edges : list Edge.t) (sensors : list Sensor.t)
    : result (gmap string Assoc.t) :=
  for_fold (match_sensor edges) ∅ sensors.

(** [list(set(info['edge_id'] for info in sensor_to_edge.values()))] *)
Definition edges_with_sensors (s2e : gmap string Assoc.t) : list Z :=
  elements (list_to_set (Assoc.edge_id <$> (map_to_list s2e).*2) : gset Z).

(** *** Step 4: count records, mapped to their edge *)

(** Lines 154-157: the edge of the counter, and the rows that have one. *)
Definition with_edge (s2e : gmap string Assoc.t) (records : list Count.t) : list Bike.t :=
  omap (fun r =>
          (fun a => Bike.mk (Assoc.edge_id a) (Count.timestamp r) (Count.count r))
            <$> s2e !! Count.counter_id r)
       records.

(** Lines 150-157. Without any record the frame has no column and
    [bike_df['timestamp']] raises KeyError. *)
Definition bike_df (s2e : gmap string Assoc.t) (records : list Count.t)
    : result (list Bike.t) :=
  match records with
  | [] => Raise KeyError
  | _ => Ok (with_edge s2e records)
  end.

(** *** Step 6: the weather frame *)

(** Lines 244-245. Without any record the frame has no column and
    [weather_df['timestamp']] raises KeyError. *)
Definition load_weather (weather_data : list Weather.t) : result (list Weather.t) :=
  match weather_data with
  | [] => Raise KeyError
  | _ => Ok weather_data
  end.

(** *** Step 7: static features *)

(** The row of one edge, from its tags, once the frame is known to have
    every tag column. *)
Definition static_row (with_sensors : list Z) (e : Edge.t) : result Static.t :=
  let highway_type := fillna "unknown" (Edge.highway e) in
  maxspeed_kmh <~ maxspeed_kmh (Edge.maxspeed e) ;;
  lanes <~ lanes_count (Edge.lanes e) ;;
  Ok {| Static.osm_id := Edge.osm_id e;
        Static.highway_type := highway_type;
        Static.road_category := categorize_road highway_type;
        Static.lanes := lanes;
        Static.maxspeed_kmh := maxspeed_kmh;
        Static.is_oneway := equals (Edge.oneway e) "yes";
        Static.has_cycleway := bool_decide (is_Some (Edge.cycleway e));
        Static.cycleway_type := fillna "none" (Edge.cycleway e);
        Static.has_dedicated_bike_lane := Edge.has_dedicated_bike_lane e;
        Static.bike_lane_distance_m := Edge.bike_lane_distance_m e;
        Static.surface_quality := categorize_surface lower_nonascii (Edge.surface e);
        Static.bicycle_access := fillna "yes" (Edge.bicycle e);
        Static.is_lit := equals (Edge.lit e) "yes";
        Static.edge_length_m := Edge.edge_length_m e;
        Static.distance_to_center_km := Edge.distance_to_center_km e;
        Static.orientation := calc_orientation arctan2_degrees (Edge.coords e);
        Static.has_real_sensor := bool_decide (Edge.osm_id e ∈ with_sensors) |}.

(** [edges_gdf[tag]]: the collector drops the tags that an edge does not
    carry and [from_features] makes a column of every tag that it finds, so
    the frame has the column when some edge carries the tag; KeyError
    otherwise. *)
Definition column {A} (tag : Edge.t -> option A) (edges : list Edge.t)
    : result (list (option A)) :=
  if bool_decide (Exists (fun e => is_Some (tag e)) edges) then Ok (tag <$> edges)
  else Raise KeyError.

(** Lines 306-347, column by column in the order of the script: each tag
    column is read, the two conversions run over their whole column, and
    the rows are put together, each by [static_row]. *)
Definition edges_gdf (with_sensors : list Z) (edges : list Edge.t) : result (list Static.t) :=
  _ <~ column Edge.highway edges ;;
  maxspeed <~ column Edge.maxspeed edges ;;
  _ <~ for_each maxspeed_kmh maxspeed ;;
  lanes <~ column Edge.lanes edges ;;
  _ <~ for_each lanes_count lanes ;;
  _ <~ column Edge.oneway edges ;;
  _ <~ column Edge.cycleway edges ;;
  _ <~ column Edge.surface edges ;;
  _ <~ column Edge.bicycle edges ;;
  _ <~ column Edge.lit edges ;;
  for_each (static_row with_sensors) edges.

(** *** Step 8: lookups and the grid *)

Definition timestamps (df : list Bike.t) : list Z :=
  merge_sort Z.le (remove_dups (Bike.timestamp <$> df)).

Definition edges_dict (rows : list Static.t) : gmap Z Static.t :=
  foldl (fun d row => <[Static.osm_id row := row]> d) ∅ rows.

Definition bike_lookup_step (lookup : gmap (Z * Z) Z) (row : Bike.t) : gmap (Z * Z) Z :=
  let key := (Bike.edge_id row, Bike.timestamp row) in
  let lookup := if bool_decide (is_Some (lookup !! key)) then lookup
                else <[key := 0]> lookup in
  <[key := default 0 (lookup !! key) + Bike.count row]> lookup.

Definition bike_lookup (df : list Bike.t) : gmap (Z * Z) Z :=
  foldl bike_lookup_step ∅ df.

(** Lines 397-401. A frame without record has no [timestamp] column, and
    [weather_df['timestamp']] raises KeyError. *)
Definition weather_row (weather_df : list Weather.t) (ts : Z) : result Weather.t :=
  match weather_df with
  | [] => Raise KeyError
  | _ =>
      let exact := filter (fun w => Weather.timestamp w = ts) weather_df in
      if (length exact =? 0)%nat then
        iloc weather_df (Z.of_nat (searchsorted (Weather.timestamp <$> weather_df) ts) - 1)
      else iloc exact 0
  end.

Definition lt_or_false (x : option Q) (c : Q) : bool :=
  match x with
  | Some q => Qlt_bool q c
  | None => false
  end.

Definition gt_or_false (x : option Q) (c : Q) : bool :=
  match x with
  | Some q => Qlt_bool c q
  | None => false
  end.

(** The body of the inner loop, lines 405-445. *)
Definition make_row (edges_dict : gmap Z Static.t) (bike_lookup : gmap (Z * Z) Z)
    (ts : Z) (w : Weather.t) (edge_id : Z) : result Row.t :=
  let bike_count := bike_lookup !! (edge_id, ts) in
  match edges_dict !! edge_id with
  | None => Raise KeyError
  | Some edge_row =>
      Ok {| Row.edge_id := edge_id;
            Row.timestamp := ts;
            Row.hour := hour_of ts;
            Row.day_of_week := weekday ts;
            Row.is_weekend := 5 <=? weekday ts;
            Row.is_rush_hour_morning := Train.is_rush_hour_morning (hour_of ts);
            Row.is_rush_hour_evening := Train.is_rush_hour_evening (hour_of ts);
            Row.temperature_c := Weather.temperature_c w;
            Row.precipitation_mm := Weather.precipitation_mm w;
            Row.wind_speed_kmh := Weather.wind_speed_kmh w;
            Row.is_raining := Weather.is_raining w;
            Row.is_cold := lt_or_false (Weather.temperature_c w) 10;
            Row.is_hot := gt_or_false (Weather.temperature_c w) 25;
            Row.is_windy := gt_or_false (Weather.wind_speed_kmh w) 20;
            Row.edge_row := edge_row;
            Row.bike_count := bike_count |}
  end.

(** The two nested loops, lines 392-447. *)
Definition dataset_rows (weather_df : list Weather.t) (edges_dict : gmap Z Static.t)
    (bike_lookup : gmap (Z * Z) Z) (timestamps edges_with_sensors : list Z)
    : result (list Row.t) :=
  blocks <~ for_each (fun ts =>
              w <~ weather_row weather_df ts ;;
              for_each (make_row edges_dict bike_lookup ts w) edges_with_sensors)
            timestamps ;;
  Ok (mjoin blocks).

(** *** Step 9: lag features *)

Definition row_le (a b : Row.t) : Prop :=
  Row.edge_id a < Row.edge_id b
  ∨ (Row.edge_id a = Row.edge_id b ∧ Row.timestamp a <= Row.timestamp b).

#[global] Instance row_le_dec : RelDecision row_le.
Proof. intros a b. unfold row_le. apply _. Defined.

(** [final_df.sort_values(['edge_id', 'timestamp'])]; the keys of the grid
    are pairwise distinct, so the order of the result does not depend on
    the sorting algorithm. *)
Definition sort_values (df : list Row.t) : list Row.t := merge_sort row_le df.

(** Lines 459-466, on a frame that has its columns. *)
Definition lag_columns (df : list Row.t) : list Final.t :=
  let df := sort_values df in
  let edge_id := Row.edge_id <$> df in
  let bike_count := Row.bike_count <$> df in
  let lag_1h := groupby_transform (shift 1) edge_id bike_count in
  let lag_24h := groupby_transform (shift 24) edge_id bike_count in
  let rolling_7d := groupby_transform (rolling_mean 168 1) edge_id bike_count in
  imap (fun i r =>
          Final.mk r (mjoin (lag_1h !! i)) (mjoin (lag_24h !! i)) (mjoin (rolling_7d !! i)))
       df.

(** [pd.DataFrame(dataset_rows)] has no column when the grid has no row,
    and [sort_values] raises KeyError. *)
Definition lag_features (dataset_rows : list Row.t) : result (list Final.t) :=
  match dataset_rows with
  | [] => Raise KeyError
  | _ => Ok (lag_columns dataset_rows)
  end.

End pipeline.

(** ** Notions used to state the properties *)

(** [e], at position [i], is the edge that [idxmin] picks for the point [p]:
    no edge is closer, and every edge before it is strictly farther. *)
Definition nearest_edge (distance : Edge.t -> Q * Q -> Q) (edges : list Edge.t)
    (p : Q * Q) (i : nat) (e : Edge.t) : Prop :=
  edges !! i = Some e
  /\ (forall e', e' ∈ edges -> (distance e p <= distance e' p)%Q)
  /\ (forall j e', (j < i)%nat -> edges !! j = Some e' -> (distance e p < distance e' p)%Q).

(** What [match_sensor] stores for a sensor whose nearest edge is [e]. *)
Definition association (distance : Edge.t -> Q * Q -> Q) (s : Sensor.t) (e : Edge.t) : Assoc.t :=
  Assoc.mk (Edge.osm_id e) (round1 (distance e (Sensor.geometry s))) (Sensor.name s).

(** The counts of the rows of [bike_df] at one (edge id, timestamp) key. *)
Definition counts_at (df : list Bike.t) (key : Z * Z) : list Z :=
  Bike.count <$> filter (fun row => (Bike.edge_id row, Bike.timestamp row) = key) df.

(** The set of edges that carry a sensor and the set of timestamps seen in
    the count data. *)
Definition edge_set (s2e : gmap string Assoc.t) : gset Z :=
  list_to_set (Assoc.edge_id <$> (map_to_list s2e).*2).

Definition timestamp_set (df : list Bike.t) : gset Z :=
  list_to_set (Bike.timestamp <$> df).

(** The (edge id, timestamp) pairs in the order of the two loops. *)
Definition cross (timestamps edges : list Z) : list (Z * Z) :=
  timestamps ≫= (fun ts => (fun e => (e, ts)) <$> edges).

(** What the count lookup is claimed to hold at a key. *)
Definition summed_count (df : list Bike.t) (key : Z * Z) : option Z :=
  match counts_at df key with
  | [] => None
  | cs => Some (sumZ cs)
  end.

(** ** A small feed *)

(** Two parallel streets running north, 200 m apart; the distance of a point
    to a street is measured along the x axis. *)
Definition x_distance (e : Edge.t) (p : Q * Q) : Q :=
  Qabs (fst p - fst (default (0%Q, 0%Q) (head (Edge.coords e)))).

Definition street (osm_id : Z) (x : Q) : Edge.t :=
  Edge.mk osm_id "rue" (Some (lit "residential")) (Some (lit "30")) (Some (lit "2"))
    (Some (lit "no")) (Some (lit "Asphalt")) (Some (lit "yes")) (Some (lit "lane"))
    (Some (lit "yes")) [(x, 0%Q); (x, 100%Q)] 100 1 false 999999.

Definition streets : list Edge.t := [street 101 0; street 102 200].

(** A street that carries no tag beyond the two that the collector always
    writes. *)
Definition bare_street : Edge.t :=
  Edge.mk 104 "rue" (Some (lit "residential")) None None (Some (lit "no"))
    None None None None [(600%Q, 0%Q); (600%Q, 100%Q)] 100 1 false 999999.

(** A street whose speed-limit tag is the single character U+00B2. *)
Definition squared_street : Edge.t :=
  Edge.mk 103 "rue" (Some (lit "residential")) (Some [178%N]) None None None None None None
    [(400%Q, 0%Q); (400%Q, 100%Q)] 100 1 false 999999.

Definition sensor_at (counter_id : string) (x : Q) : Sensor.t :=
  Sensor.mk counter_id counter_id (x, 10%Q).

(** Two sensors, one near each street, with their hourly counts over three
    hours: the first one was silent during the second hour. *)
Definition feed_sensors : list Sensor.t := [sensor_at "c1" 30; sensor_at "c2" 212].

Definition feed_s2e : gmap string Assoc.t :=
  {["c1" := Assoc.mk 101 30 "c1"; "c2" := Assoc.mk 102 12 "c2"]}.

Definition feed_counts : list Count.t :=
  [Count.mk "c1" 0 4; Count.mk "c2" 0 1; Count.mk "c2" 3600 2;
   Count.mk "c1" 7200 6; Count.mk "c2" 7200 3; Count.mk "c9" 7200 50].

Definition feed_weather : list Weather.t :=
  [Weather.mk 0 (Some 8%Q) (Some 0%Q) (Some 5%Q) false;
   Weather.mk 3600 (Some 9%Q) (Some 0%Q) (Some 25%Q) false;
   Weather.mk 7200 (Some 11%Q) (Some (1 # 2)%Q) (Some 30%Q) true].

Definition feed_df : list Bike.t := with_edge feed_s2e feed_counts.

Definition feed_statics : list Static.t :=
  match edges_gdf (fun _ _ => 90%Q) (fun c => [c]) (edges_with_sensors feed_s2e) streets with
  | Ok rows => rows
  | Raise _ => []
  end.

Definition feed_dict : gmap Z Static.t := edges_dict feed_statics.

(** The static rows of the two streets and of a third one without tags. *)
Definition feed_with_bare (arctan2_degrees : Q -> Q -> Q) (lower_nonascii : N -> pystr)
    (with_sensors : list Z) : list Static.t :=
  match edges_gdf arctan2_degrees lower_nonascii with_sensors (streets ++ [bare_street]) with
  | Ok rows => rows
  | Raise _ => []
  end.

(** One sensor alone, 30 m from the first street, silent during the second
    of three hours. *)
Definition single_s2e : gmap string Assoc.t := {["c1" := Assoc.mk 101 30 "c1"]}.

Definition single_counts : list Count.t := [Count.mk "c1" 0 4; Count.mk "c1" 7200 6].

(** Two sensors on the same street. *)
Definition shared_s2e : gmap string Assoc.t :=
  {["c1" := Assoc.mk 101 30 "c1"; "c3" := Assoc.mk 101 8 "c3"]}.

Definition shared_sensors : list Sensor.t := [sensor_at "c1" 30; sensor_at "c3" 8].

Definition shared_counts : list Count.t := [Count.mk "c1" 3600 3; Count.mk "c3" 3600 5].

Definition shared_statics : list Static.t :=
  match edges_gdf (fun _ _ => 90%Q) (fun c => [c]) (edges_with_sensors shared_s2e) streets with
  | Ok rows => rows
  | Raise _ => []
  end.

(** The same weather feed without its first hour. *)
Definition late_weather : list Weather.t := drop 1 feed_weather.

(** The grid of the small feed. *)
Definition feed_rows : list Row.t :=
  match dataset_rows feed_weather feed_dict (bike_lookup feed_df)
          (timestamps feed_df) (edges_with_sensors feed_s2e) with
  | Ok rows => rows
  | Raise _ => []
  end.

(** ** Training: [train_v3.py] *)

Module Training.

(** Order of two Python strings: code point by code point. *)
Fixpoint str_leb (a b : pystr) : bool :=
  match a, b with
  | [], _ => true
  | _ :: _, [] => false
  | x :: a', y :: b' =>
      if (x <? y)%N then true else if (y <? x)%N then false else str_leb a' b'
  end.

Definition str_le (a b : pystr) : Prop := str_leb a b = true.

#[global] Instance str_le_dec : RelDecision str_le.
Proof. intros a b. unfold str_le. apply _. Defined.

(** [LabelEncoder.fit]: [classes_] is [np.unique] of the column, its
    distinct values in ascending order. *)
Definition fit (y : list pystr) : list pystr := merge_sort str_le (remove_dups y).

(** [LabelEncoder.transform] of one label: its position in [classes_];
    ValueError on a label that [fit] has not seen. *)
Definition transform (classes_ : list pystr) (x : pystr) : result Z :=
  match list_find (fun c => c = x) classes_ with
  | Some (i, _) => Ok (Z.of_nat i)
  | None => Raise ValueError
  end.

(** Lines 81-87, for one column after [fillna('unknown')] and
    [astype(str)]: the encoder that is saved and the encoded column. *)
Definition fit_transform (y : list pystr) : result (list pystr * list Z) :=
  let classes_ := fit y in
  codes <~ for_each (transform classes_) y ;;
  Ok (classes_, codes).

(** Line 109: the rows that have a target. *)
Definition df_valid (df : list Final.t) : list Final.t :=
  filter (fun f => is_Some (Row.bike_count (Final.row f))) df.

(** Line 123, [int(len(X) * 0.8)]: the double nearest to 0.8 exceeds 0.8 by
    less than 5e-17, so the product truncates to the floor of 4n/5 for
    every length a frame can have. *)
Definition split_idx (n : nat) : nat := (4 * n / 5)%nat.

(** Lines 125-128: [iloc[:split_idx]] and [iloc[split_idx:]]. *)
Definition train_test_split (df : list Final.t) : list Final.t * list Final.t :=
  let valid := df_valid df in
  (take (split_idx (length valid)) valid, drop (split_idx (length valid)) valid).

End Training.

(** ** Prediction: [predict_v3.py] *)

Module Prediction.

(** Step 3, lines 118-146: the records of the weather files, or one
    default record at the target time when there is no file. *)
Definition weather_frame (weather_files : list (list Weather.t)) (target_datetime : Z)
    : list Weather.t :=
  match weather_files with
  | [] => [Weather.mk target_datetime (Some 15%Q) (Some 0%Q) (Some 10%Q) false]
  | _ => mjoin weather_files
  end.

(** Line 150: seconds between each record and the target time. *)
Definition time_diff (weather_df : list Weather.t) (target_datetime : Z) : list Q :=
  (fun w => inject_Z (Z.abs (Weather.timestamp w - target_datetime))) <$> weather_df.

(** Lines 150-151. A frame without record has no [timestamp] column. *)
Definition closest_weather (weather_df : list Weather.t) (target_datetime : Z)
    : result Weather.t :=
  match weather_df with
  | [] => Raise KeyError
  | _ =>
      i <~ idxmin (time_diff weather_df target_datetime) ;;
      match weather_df !! i with
      | Some w => Ok w
      | None => Raise KeyError
      end
  end.

(** Lines 191-193. *)
Definition is_cold (closest_weather : Weather.t) : Z :=
  Predict.int (lt_or_false (Weather.temperature_c closest_weather) 5).
Definition is_hot (closest_weather : Weather.t) : Z :=
  Predict.int (gt_or_false (Weather.temperature_c closest_weather) 30).
Definition is_windy (closest_weather : Weather.t) : Z :=
  Predict.int (gt_or_false (Weather.wind_speed_kmh closest_weather) 30).

(** Lines 214-217:
    [le.transform([str(x)])[0] if str(x) in le.classes_ else -1]. *)
Definition encode (classes_ : list pystr) (x : pystr) : result Z :=
  if bool_decide (x ∈ classes_) then Training.transform classes_ x else Ok (-1).

(** Line 258: [clip(lower=0).round(0).astype(int)], for one output of the
    model; NaN is [None], and an infinite output is left out. The cast is
    to int64: pandas raises a ValueError on NaN; a float is cut to its
    integer part, and beyond the range of int64 the conversion of the
    processor gives the least int64 (x86-64). *)
Definition clip_lower_0 (y : Q) : Q := if Qlt_le_dec y 0 then 0%Q else y.

Definition int64_max : Z := 9223372036854775807.
Definition int64_min : Z := -9223372036854775808.

Definition astype_int (x : option Q) : result Z :=
  match x with
  | None => Raise ValueError
  | Some y =>
      let n := if Qlt_le_dec y 0 then Qceiling y else Qfloor y in
      if (int64_min <=? n) && (n <=? int64_max) then Ok n else Ok int64_min
  end.

Definition bike_count_predicted (prediction : option Q) : result Z :=
  astype_int ((fun y => inject_Z (rint (clip_lower_0 y))) <$> prediction).

End Prediction.

(** ** Collection: [fetch_bike_counters.py] *)

Module Collector.

(** One value of [stats_by_sensor]; [min] starts at [float('inf')], here
    [None]. *)
Record stats := mk_stats { total : Z; count : Z; max : Z; min : option Z }.

(** The four updates of one entry by a count. *)
Definition update (s : stats) (c : Z) : stats :=
  mk_stats (total s + c) (count s + 1) (Z.max (max s) c)
    (Some (match min s with Some m => Z.min m c | None => c end)).

(** The body of the loop of step 4 of [main], lines 282-297. *)
Definition stats_step (stats_by_sensor : gmap string stats) (record : Count.t)
    : gmap string stats :=
  let sensor_id := Count.counter_id record in
  <[sensor_id := update (default (mk_stats 0 0 0 None) (stats_by_sensor !! sensor_id))
                   (Count.count record)]>
    stats_by_sensor.

Definition stats_by_sensor (all_time_series : list Count.t) : gmap string stats :=
  foldl stats_step ∅ all_time_series.

(** [stats["avg"]] and the final [stats["min"]], lines 300-303. *)
Definition avg (s : stats) : Q :=
  if 0 <? count s then Qred (inject_Z (total s) / inject_Z (count s)) else 0%Q.

Definition final_min (s : stats) : Z := default 0 (min s).

(** Step 5 of [main], lines 308-313: the records grouped by timestamp. *)
Definition data_by_timestamp (all_time_series : list Count.t) : gmap Z (list Count.t) :=
  foldl (fun d record =>
           <[Count.timestamp record :=
               default [] (d !! Count.timestamp record) ++ [record]]> d)
        ∅ all_time_series.

Definition item_le (a b : Z * list Count.t) : Prop := a.1 <= b.1.

#[global] Instance item_le_dec : RelDecision item_le.
Proof. intros a b. unfold item_le. apply _. Defined.

(** [sorted(data_by_timestamp.items())]: one hourly file per timestamp,
    in ascending order of timestamp, which is also the order of the file
    names. *)
Definition hourly_files (all_time_series : list Count.t) : list (Z * list Count.t) :=
  merge_sort item_le (map_to_list (data_by_timestamp all_time_series)).

(** [summary.total_passages] of a file. *)
Definition total_passages (records : list Count.t) : Z := sumZ (Count.count <$> records).

End Collector.

(** [create_ml_dataset_v3.py], lines 130-146. A file of the directory is
    its [records] list, or [None] when it has no such key (the summary
    file, whose name matches the pattern too) or cannot be read. *)
Definition all_bike_records (bike_counter_files : list (option (list Count.t)))
    : list Count.t :=
  bike_counter_files ≫= default [].

(** The count files that one run of the collector leaves in an empty
    directory, in the order of their names: the hourly files, then
    [bike_counters_summary.json]. *)
Definition bike_counter_files (all_time_series : list Count.t)
    : list (option (list Count.t)) :=
  ((fun item => Some item.2) <$> Collector.hourly_files all_time_series) ++ [None].

(** ** Further notions used to state the properties *)

(** The number that a string of ASCII digits writes in base ten. *)
Definition numeral (s : pystr) : Z :=
  foldl (fun acc c => 10 * acc + (Z.of_N c - 48)) 0 s.

(** The compass point across: four steps further round the compass. *)
Definition opposite (o : string) : string :=
  match list_find (fun c => c = o) compass with
  | Some (i, _) => default o (compass !! ((i + 4) mod 8)%nat)
  | None => o
  end.

(** [Series.sum()] of a column with nulls: the nulls are skipped. *)
Definition column_sum (col : list (option Z)) : Z := sumZ (omap id col).

(** ** More of the small feed *)

(** The final table of the small feed. *)
Definition feed_final : list Final.t := lag_columns feed_rows.

(** The grid of the single sensor, whose counts have no record for the
    second hour. *)
Definition single_df : list Bike.t := with_edge single_s2e single_counts.

Definition single_rows : list Row.t :=
  match dataset_rows feed_weather feed_dict (bike_lookup single_df)
          (timestamps single_df) (edges_with_sensors single_s2e) with
  | Ok rows => rows
  | Raise _ => []
  end.

(** A road-class column with a repeated value. *)
Definition highway_column : list pystr :=
  [lit "residential"; lit "primary"; lit "residential"].

(** A record of 8 degrees and 25 km/h of wind. *)
Definition chilly : Weather.t := Weather.mk 0 (Some 8%Q) (Some 0%Q) (Some 25%Q) false.

(** * Verification *)

(** ** The result monad and the loops *)

Lemma rbind_Ok {A B} (m : result A) (k : A -> result B) b :
  rbind m k = Ok b -> exists a, m = Ok a /\ k a = Ok b.
Proof. destruct m as [a|e]; simpl; [eauto | discriminate]. Qed.

(** ** Calendar flags: training against prediction *)

Lemma py_in_morning hour : Predict.py_in hour [7; 8; 9] = Train.is_rush_hour_morning hour.
Proof.
  unfold Predict.py_in, Train.is_rush_hour_morning. simpl.
  destruct (Z.eqb_spec hour 7), (Z.eqb_spec hour 8), (Z.eqb_spec hour 9),
    (Z.leb_spec 7 hour), (Z.leb_spec hour 9); simpl; trivial; lia.
Qed.

Lemma py_in_evening hour : Predict.py_in hour [17; 18; 19] = Train.is_rush_hour_evening hour.
Proof.
  unfold Predict.py_in, Train.is_rush_hour_evening. simpl.
  destruct (Z.eqb_spec hour 17), (Z.eqb_spec hour 18), (Z.eqb_spec hour 19),
    (Z.leb_spec 17 hour), (Z.leb_spec hour 19); simpl; trivial; lia.
Qed.

(** C9: for every hour (0 to 23 and any other integer) the training flags
    [7 <= hour <= 9] and [17 <= hour <= 19] are the truth values that the
    prediction script tests by membership in [7, 8, 9] and [17, 18, 19], and
    the integers the prediction script stores are those truth values (True
    is 1, False is 0); hence the same holds at the hour of every timestamp. *)
Theorem rush_hour_flags_agree (hour : Z) :
  Train.is_rush_hour_morning hour = Predict.py_in hour [7; 8; 9]
  /\ Train.is_rush_hour_evening hour = Predict.py_in hour [17; 18; 19]
  /\ Predict.int (Train.is_rush_hour_morning hour) = Predict.is_rush_hour_morning hour
  /\ Predict.int (Train.is_rush_hour_evening hour) = Predict.is_rush_hour_evening hour.
Proof.
  unfold Predict.is_rush_hour_morning, Predict.is_rush_hour_evening.
  rewrite py_in_morning, py_in_evening. auto.
Qed.

(** ** Rounding *)

Lemma rint_close q :
  (inject_Z (rint q) - q <= 1 # 2)%Q /\ (q - inject_Z (rint q) <= 1 # 2)%Q.
Proof.
  unfold rint. pose proof (Qfloor_le q) as Hlo. pose proof (Qlt_floor q) as Hhi.
  rewrite inject_Z_plus in Hhi. change (inject_Z 1) with 1%Q in Hhi.
  destruct (q - inject_Z (Qfloor q) ?= 1 # 2)%Q eqn:Hc.
  - apply Qeq_alt in Hc.
    destruct (Z.even _); rewrite ?inject_Z_plus; change (inject_Z 1) with 1%Q; split; lra.
  - apply Qlt_alt in Hc. split; lra.
  - apply Qgt_alt in Hc. rewrite inject_Z_plus. change (inject_Z 1) with 1%Q. split; lra.
Qed.

Lemma rint_le_integer q n : (q <= inject_Z n)%Q -> rint q <= n.
Proof.
  intros Hq. unfold rint. pose proof (Qfloor_le q) as Hlo.
  assert (Qfloor q <= n) as Hfn.
  { rewrite Zle_Qle. lra. }
  destruct (Z.eq_dec (Qfloor q) n) as [Heq|Hne].
  - assert ((q - inject_Z (Qfloor q) ?= 1 # 2)%Q = Lt) as ->; [|lia].
    apply (proj1 (Qlt_alt _ _)). rewrite Heq. lra.
  - repeat case_match; lia.
Qed.

Lemma rint_ge_integer q n : (inject_Z n <= q)%Q -> n <= rint q.
Proof.
  intros Hq. unfold rint. pose proof (Qlt_floor q) as Hhi.
  assert (n <= Qfloor q) as Hfn.
  { assert (n < Qfloor q + 1); [|lia]. rewrite Zlt_Qlt. lra. }
  repeat case_match; lia.
Qed.

Lemma rint_floor_or_next q : rint q = Qfloor q \/ rint q = Qfloor q + 1.
Proof. unfold rint. repeat case_match; auto. Qed.

Lemma rint_ge_floor q : Qfloor q <= rint q.
Proof. destruct (rint_floor_or_next q); lia. Qed.

Lemma rint_mono x y : (x <= y)%Q -> rint x <= rint y.
Proof.
  intros Hxy. pose proof (Qfloor_resp_le x y Hxy) as Hf.
  destruct (Z.eq_dec (Qfloor x) (Qfloor y)) as [Heq|Hne].
  - unfold rint. rewrite <- Heq.
    destruct (x - inject_Z (Qfloor x) ?= 1 # 2)%Q eqn:Hx,
             (y - inject_Z (Qfloor x) ?= 1 # 2)%Q eqn:Hy;
      try (destruct (Z.even (Qfloor x))); try lia;
      rewrite <- ?Qeq_alt, <- ?Qlt_alt, <- ?Qgt_alt in *; exfalso; lra.
  - pose proof (rint_ge_floor y). destruct (rint_floor_or_next x); lia.
Qed.

Lemma rint_integer n : rint (inject_Z n) = n.
Proof.
  unfold rint. rewrite Qfloor_Z.
  assert ((inject_Z n - inject_Z n ?= 1 # 2)%Q = Lt) as ->; [|done].
  apply (proj1 (Qlt_alt _ _)). lra.
Qed.

Lemma pow2_pos e : (0 < 2 ^ e)%Q.
Proof. by apply Qpower_0_lt. Qed.

Lemma pow2_inv e : (2 ^ (- e) * 2 ^ e == 1)%Q.
Proof. rewrite <- Qpower_plus by done. by rewrite Z.add_opp_diag_l. Qed.

Lemma pow2_Z n : 0 <= n -> (2 ^ n == inject_Z (2 ^ n))%Q.
Proof. intros Hn. by rewrite Zpower_Qpower. Qed.

Lemma pow2_scale q x e : (q * 2 ^ (- e) <= x)%Q <-> (q <= x * 2 ^ e)%Q.
Proof.
  rewrite <- (Qmult_le_r (q * 2 ^ (- e)) x (2 ^ e)) by apply pow2_pos.
  by rewrite <- Qmult_assoc, pow2_inv, Qmult_1_r.
Qed.

Lemma pow2_scale_ge q x e : (x <= q * 2 ^ (- e))%Q <-> (x * 2 ^ e <= q)%Q.
Proof.
  rewrite <- (Qmult_le_r x (q * 2 ^ (- e)) (2 ^ e)) by apply pow2_pos.
  by rewrite <- Qmult_assoc, pow2_inv, Qmult_1_r.
Qed.

(** The exponent of a positive number below [2 ^ (k + 1)] is at most [k]. *)
Lemma exponent_le q k :
  0 <= k -> (0 < q)%Q -> (q < inject_Z (2 ^ (k + 1)))%Q -> exponent q <= k.
Proof.
  intros Hk Hq Hlt. unfold exponent.
  destruct q as [[|p|p] d]; [done | | done].
  change (Qabs (Z.pos p # d)) with (Z.pos p # d).
  destruct (Qle_bool 1 (Z.pos p # d)) eqn:H1.
  - apply Qle_bool_iff in H1.
    assert (1 <= Qfloor (Z.pos p # d)) as Hf.
    { rewrite <- (Qfloor_Z 1). by apply Qfloor_resp_le. }
    assert (Qfloor (Z.pos p # d) < 2 ^ (k + 1)) as Hf2.
    { rewrite Zlt_Qlt. eapply Qle_lt_trans; [apply Qfloor_le | done]. }
    apply Z.log2_lt_pow2 in Hf2; lia.
  - pose proof (Z.log2_up_nonneg (Qceiling (/ (Z.pos p # d)))). lia.
Qed.

Lemma binary64_eq q :
  ~ (q == 0)%Q ->
  (binary64 q
   == inject_Z (rint (q * 2 ^ (- Z.max (exponent q - 52) (-1074))))
      * 2 ^ Z.max (exponent q - 52) (-1074))%Q.
Proof.
  intros Hq. unfold binary64.
  destruct (Qeq_bool q 0) eqn:H0; [by apply Qeq_bool_eq in H0|].
  apply Qred_correct.
Qed.

(** Rounding does not cross a multiple of [2 ^ j], for a positive number
    below [2 ^ (j + 53)]: every such multiple is a binary64 number there. *)
Lemma binary64_grid q j n :
  -52 <= j -> (0 < q)%Q -> (q < inject_Z (2 ^ (j + 53)))%Q ->
  ((q <= inject_Z n * 2 ^ j)%Q -> (binary64 q <= inject_Z n * 2 ^ j)%Q)
  /\ ((inject_Z n * 2 ^ j <= q)%Q -> (inject_Z n * 2 ^ j <= binary64 q)%Q).
Proof.
  intros Hj Hq Hlt.
  assert (exponent q <= j + 52) as He.
  { apply exponent_le; [lia | done |]. by replace (j + 52 + 1) with (j + 53) by lia. }
  assert (~ (q == 0)%Q) as Hq0 by lra.
  rewrite (binary64_eq q Hq0).
  set (e := Z.max (exponent q - 52) (-1074)).
  assert (e <= j) as Hej by lia.
  assert (inject_Z n * 2 ^ j == inject_Z (n * 2 ^ (j - e)) * 2 ^ e)%Q as ->.
  { rewrite inject_Z_mult, <- pow2_Z by lia.
    rewrite <- Qmult_assoc, <- Qpower_plus by done.
    by replace (j - e + e) with j by lia. }
  pose proof (pow2_pos e) as Hpos.
  split; intros H.
  - apply Qmult_le_compat_r; [|lra]. rewrite <- Zle_Qle.
    apply rint_le_integer. by apply pow2_scale.
  - apply Qmult_le_compat_r; [|lra]. rewrite <- Zle_Qle.
    apply rint_ge_integer. by apply pow2_scale_ge.
Qed.

(** Rounding keeps a number that is not positive from becoming positive. *)
Lemma binary64_nonpos q : (q <= 0)%Q -> (binary64 q <= 0)%Q.
Proof.
  intros Hq. unfold binary64. destruct (Qeq_bool q 0); [lra|].
  rewrite Qred_correct.
  set (e := Z.max (exponent q - 52) (-1074)).
  pose proof (pow2_pos e) as Hpos. pose proof (pow2_pos (- e)) as Hneg.
  assert (rint (q * 2 ^ (- e)) <= 0) as Hr.
  { apply rint_le_integer. change (inject_Z 0) with 0%Q. nra. }
  rewrite Zle_Qle in Hr. change (inject_Z 0) with 0%Q in Hr. nra.
Qed.

Lemma binary64_le_integer q n :
  0 <= n < 2 ^ 53 -> (q <= inject_Z n)%Q -> (binary64 q <= inject_Z n)%Q.
Proof.
  intros Hn Hq. destruct (Qlt_le_dec 0 q) as [Hpos|Hneg].
  - destruct (binary64_grid q 0 n) as [H _]; [lia | done | |].
    + eapply Qle_lt_trans; [exact Hq|]. rewrite <- Zlt_Qlt. lia.
    + change (2 ^ 0)%Q with 1%Q in H. rewrite Qmult_1_r in H. by apply H.
  - eapply Qle_trans; [by apply binary64_nonpos|]. rewrite <- (Zle_Qle 0). lia.
Qed.

Lemma round1_le_50 q : (q <= 50)%Q -> (round1 q <= 50)%Q.
Proof.
  intros Hq. unfold round1.
  assert (rint (binary64 (q * 10)) <= 500) as H.
  { apply rint_le_integer. apply binary64_le_integer; [lia|]. unfold inject_Z. lra. }
  apply (binary64_le_integer _ 50); [lia|].
  rewrite Zle_Qle in H. change (inject_Z 500) with 500%Q in H.
  unfold Qdiv. change (/ 10)%Q with (1 # 10)%Q. unfold inject_Z at 2. lra.
Qed.

Lemma pow2_le e j : e <= j -> (2 ^ e <= 2 ^ j)%Q.
Proof.
  intros Hej. replace j with (j - e + e) by lia.
  rewrite Qpower_plus by done.
  assert (2 ^ (j - e) == inject_Z (2 ^ (j - e)))%Q as -> by (apply pow2_Z; lia).
  pose proof (pow2_pos e) as Hpos.
  assert (1 <= 2 ^ (j - e)) as H1 by (apply (Z.pow_le_mono_r 2 0 (j - e)); lia).
  rewrite Zle_Qle in H1. change (inject_Z 1) with 1%Q in H1. nra.
Qed.

(** Rounding moves a number that is not negative and below [2 ^ (j + 53)]
    by half of [2 ^ j] at most. *)
Lemma binary64_close q j :
  -52 <= j -> (0 <= q)%Q -> (q < inject_Z (2 ^ (j + 53)))%Q ->
  (Qabs (binary64 q - q) <= 2 ^ j * (1 # 2))%Q.
Proof.
  intros Hj Hq Hlt. pose proof (pow2_pos j) as Hposj.
  destruct (Qeq_dec q 0) as [H0|H0].
  { unfold binary64. rewrite (Qeq_eq_bool _ _ H0).
    apply Qabs_Qle_condition. split; lra. }
  assert (exponent q <= j + 52) as He.
  { apply exponent_le; [lia | lra |]. by replace (j + 52 + 1) with (j + 53) by lia. }
  rewrite (binary64_eq q H0).
  set (e := Z.max (exponent q - 52) (-1074)).
  assert (e <= j) as Hej by lia.
  pose proof (pow2_le e j Hej) as Hle. pose proof (pow2_pos e) as Hpos.
  pose proof (pow2_inv e) as Hinv.
  destruct (rint_close (q * 2 ^ (- e))) as [H1 H2].
  set (r := inject_Z (rint (q * 2 ^ (- e)))) in *.
  set (P := (2 ^ e)%Q) in *. set (P' := (2 ^ (- e))%Q) in *. set (J := (2 ^ j)%Q) in *.
  assert (q == q * P' * P)%Q as Hq' by (rewrite <- Qmult_assoc, Hinv; ring).
  apply Qabs_Qle_condition. split.
  - assert ((r - q * P') * P >= - (1 # 2) * P)%Q by nra.
    assert ((r - q * P') * P == r * P - q)%Q as Heq by (rewrite Hq' at 2; ring).
    nra.
  - assert ((r - q * P') * P <= (1 # 2) * P)%Q by nra.
    assert ((r - q * P') * P == r * P - q)%Q as Heq by (rewrite Hq' at 2; ring).
    nra.
Qed.

Lemma rint_nonneg q : (0 <= q)%Q -> 0 <= rint q.
Proof. intros Hq. by apply rint_ge_integer. Qed.

Lemma binary64_nonneg q : (0 <= q)%Q -> (0 <= binary64 q)%Q.
Proof.
  intros Hq. unfold binary64. destruct (Qeq_bool q 0); [lra|].
  rewrite Qred_correct.
  set (e := Z.max (exponent q - 52) (-1074)).
  pose proof (pow2_pos e) as Hpos. pose proof (pow2_pos (- e)) as Hneg.
  assert (0 <= rint (q * 2 ^ (- e))) as Hr.
  { apply rint_nonneg. nra. }
  rewrite Zle_Qle in Hr. change (inject_Z 0) with 0%Q in Hr. nra.
Qed.

(** The stored distance is within 0.05 of the distance measured, up to the
    rounding of the product and of the quotient. *)
Lemma round1_close q :
  (0 <= q)%Q -> (q <= 50)%Q -> (Qabs (round1 q - q) <= (1 # 20) + (1 # 140737488355328))%Q.
Proof.
  intros H0 H50. unfold round1.
  pose proof (binary64_close (q * 10) (-44)) as Hp.
  change (2 ^ (-44))%Q with (1 # 17592186044416)%Q in Hp.
  specialize (Hp ltac:(lia) ltac:(lra)).
  assert (q * 10 < inject_Z (2 ^ (-44 + 53)))%Q as Hlt by (change (inject_Z (2 ^ (-44 + 53))) with 512%Q; lra).
  specialize (Hp Hlt). apply Qabs_Qle_condition in Hp as [Hp1 Hp2].
  assert (0 <= binary64 (q * 10))%Q as Hb0 by (apply binary64_nonneg; lra).
  assert (binary64 (q * 10) <= inject_Z 500)%Q as Hb500.
  { apply binary64_le_integer; [lia|]. unfold inject_Z. lra. }
  set (p := binary64 (q * 10)) in *.
  destruct (rint_close p) as [Hr1 Hr2].
  pose proof (rint_nonneg p Hb0) as Hn0.
  pose proof (rint_le_integer p 500 Hb500) as Hn500.
  set (n := rint p) in *.
  rewrite Zle_Qle in Hn0, Hn500.
  change (inject_Z 0) with 0%Q in Hn0. change (inject_Z 500) with 500%Q in Hn500.
  pose proof (binary64_close (inject_Z n / 10) (-47)) as Hd.
  change (2 ^ (-47))%Q with (1 # 140737488355328)%Q in Hd.
  unfold Qdiv in *. change (/ 10)%Q with (1 # 10)%Q in *.
  assert (0 <= inject_Z n * (1 # 10))%Q as Hd0.
  { lra. }
  specialize (Hd ltac:(lia) Hd0).
  assert (inject_Z n * (1 # 10) < inject_Z (2 ^ (-47 + 53)))%Q as Hlt2
    by (change (inject_Z (2 ^ (-47 + 53))) with 64%Q; lra).
  specialize (Hd Hlt2). apply Qabs_Qle_condition in Hd as [Hd1 Hd2].
  apply Qabs_Qle_condition. split; lra.
Qed.

(** ** Orientation *)

Lemma Qfloor_unique (x : Q) (k : Z) :
  (inject_Z k <= x)%Q -> (x < inject_Z (k + 1))%Q -> Qfloor x = k.
Proof.
  intros Hlo Hhi.
  pose proof (Qfloor_le x) as Hf. pose proof (Qlt_floor x) as Hc.
  assert (Qfloor x < k + 1) by (rewrite Zlt_Qlt; eapply Qle_lt_trans; eassumption).
  assert (k < Qfloor x + 1) by (rewrite Zlt_Qlt; eapply Qle_lt_trans; eassumption).
  lia.
Qed.

Lemma Qfloor_div45 (x : Q) (k : Z) :
  (inject_Z k * 45 <= x)%Q -> (x < (inject_Z k + 1) * 45)%Q -> Qfloor (x / 45) = k.
Proof.
  intros Hlo Hhi. apply Qfloor_unique.
  - apply Qle_shift_div_l; [reflexivity | assumption].
  - apply Qlt_shift_div_r; [reflexivity |].
    rewrite inject_Z_plus. exact Hhi.
Qed.

Ltac octant_case k :=
  solve [ rewrite (Qfloor_div45 _ k); [reflexivity | unfold inject_Z; lra ..] ].

(** The chain of comparisons, on an angle between 0 and 360, names the
    half-open interval of 45 degrees that holds the angle. *)
Lemma octant_half_open (angle : Q) :
  (0 <= angle)%Q -> (angle <= 360)%Q -> octant angle = spec_octant angle.
Proof.
  intros Hlo Hhi. unfold octant, spec_octant.
  repeat (destruct (Qlt_le_dec _ _); try (exfalso; lra));
    first [ octant_case 0 | octant_case 1 | octant_case 2 | octant_case 3
          | octant_case 4 | octant_case 5 | octant_case 6 | octant_case 7
          | octant_case 8 ].
Qed.

Lemma spec_octant_interval (b : Q) (k : Z) :
  (inject_Z k * 45 <= b + (45 # 2))%Q -> (b + (45 # 2) < (inject_Z k + 1) * 45)%Q ->
  spec_octant b = default "E" (compass !! Z.to_nat (k mod 8)).
Proof. intros Hlo Hhi. unfold spec_octant. by rewrite (Qfloor_div45 _ k). Qed.

Lemma wrap_angle_nonneg (b : Q) : (0 <= b)%Q -> wrap_angle b = b.
Proof. intros Hb. unfold wrap_angle. destruct (Qlt_le_dec b 0); [lra | done]. Qed.

Lemma octant_Qeq (a b : Q) : (a == b)%Q -> octant a = octant b.
Proof.
  intros Hab. unfold octant.
  repeat (destruct (Qlt_le_dec _ _); try (exfalso; lra)); reflexivity.
Qed.

Lemma octant_wrap_Qeq (a b : Q) :
  (0 <= b)%Q -> (a == b)%Q -> octant (wrap_angle a) = octant b.
Proof.
  intros Hb Hab. rewrite wrap_angle_nonneg by lra. by apply octant_Qeq.
Qed.

(** The float addition of 360 to a negative bearing does not cross a
    multiple of [ulp_360]. *)
Lemma wrap_angle_grid (b : Q) (n : Z) :
  (-180 <= b)%Q -> (b < 0)%Q ->
  ((b + 360 <= inject_Z n * ulp_360)%Q -> (wrap_angle b <= inject_Z n * ulp_360)%Q)
  /\ ((inject_Z n * ulp_360 <= b + 360)%Q -> (inject_Z n * ulp_360 <= wrap_angle b)%Q).
Proof.
  intros Hlo Hhi. unfold wrap_angle. destruct (Qlt_le_dec b 0); [|lra].
  apply (binary64_grid (b + 360) (-44) n); [lia | lra |].
  change (inject_Z (2 ^ (-44 + 53))) with 512%Q. lra.
Qed.

Lemma wrap_angle_above (b : Q) (m : Z) :
  (-180 <= b)%Q -> (b < 0)%Q ->
  (inject_Z m * (1 # 2) <= b + 360)%Q -> (inject_Z m * (1 # 2) <= wrap_angle b)%Q.
Proof.
  intros Hlo Hhi H.
  destruct (wrap_angle_grid b (m * 8796093022208) Hlo Hhi) as [_ Hg].
  rewrite inject_Z_mult in Hg. unfold ulp_360 in Hg.
  change (inject_Z 8796093022208) with 8796093022208%Q in Hg.
  assert (inject_Z m * 8796093022208 * (1 # 17592186044416) == inject_Z m * (1 # 2))%Q as Heq
    by ring.
  rewrite Heq in Hg. by apply Hg.
Qed.

Lemma wrap_angle_below (b : Q) (m : Z) :
  (-180 <= b)%Q -> (b < 0)%Q ->
  (b + ulp_360 + 360 <= inject_Z m * (1 # 2))%Q -> (wrap_angle b < inject_Z m * (1 # 2))%Q.
Proof.
  intros Hlo Hhi H.
  destruct (wrap_angle_grid b (m * 8796093022208 - 1) Hlo Hhi) as [Hg _].
  unfold Z.sub in Hg. rewrite inject_Z_plus, inject_Z_mult in Hg. unfold ulp_360 in *.
  change (inject_Z 8796093022208) with 8796093022208%Q in Hg.
  change (inject_Z (- (1))) with (-1)%Q in Hg.
  assert ((inject_Z m * 8796093022208 + -1) * (1 # 17592186044416)
          == inject_Z m * (1 # 2) - (1 # 17592186044416))%Q as Heq by ring.
  rewrite Heq in Hg. lra.
Qed.

Lemma wrap_angle_range (b : Q) :
  (-180 <= b)%Q -> (b < 0)%Q -> (180 <= wrap_angle b)%Q /\ (wrap_angle b <= 360)%Q.
Proof.
  intros Hlo Hhi. split.
  - pose proof (wrap_angle_above b 360 Hlo Hhi) as H.
    change (inject_Z 360) with 360%Q in H. lra.
  - destruct (wrap_angle_grid b (360 * 17592186044416) Hlo Hhi) as [Hg _].
    unfold ulp_360 in Hg. change (inject_Z (360 * 17592186044416)) with 6333186975989760%Q in Hg.
    lra.
Qed.

(** A negative bearing whose interval also holds the bearing [ulp_360]
    above it gets the point of that interval. *)
Lemma octant_wrap_margin (b : Q) :
  (-180 <= b)%Q -> (b < 0)%Q ->
  spec_octant b = spec_octant (b + ulp_360) -> octant (wrap_angle b) = spec_octant b.
Proof.
  intros Hlo Hhi Hsame.
  destruct (wrap_angle_range b Hlo Hhi) as [Hw1 Hw2].
  pose proof (wrap_angle_above b 405 Hlo Hhi) as Ha1.
  pose proof (wrap_angle_above b 495 Hlo Hhi) as Ha2.
  pose proof (wrap_angle_above b 585 Hlo Hhi) as Ha3.
  pose proof (wrap_angle_above b 675 Hlo Hhi) as Ha4.
  pose proof (wrap_angle_below b 405 Hlo Hhi) as Hb1.
  pose proof (wrap_angle_below b 495 Hlo Hhi) as Hb2.
  pose proof (wrap_angle_below b 585 Hlo Hhi) as Hb3.
  pose proof (wrap_angle_below b 675 Hlo Hhi) as Hb4.
  change (inject_Z 405) with 405%Q in *. change (inject_Z 495) with 495%Q in *.
  change (inject_Z 585) with 585%Q in *. change (inject_Z 675) with 675%Q in *.
  assert (0 < ulp_360)%Q as Hu by done. assert (ulp_360 < 1)%Q as Hu1 by done.
  set (u := ulp_360) in *. set (w := wrap_angle b) in *.
  destruct (Qlt_le_dec b (-315 # 2)) as [H1|H1];
    [|destruct (Qlt_le_dec b (-225 # 2)) as [H2|H2];
      [|destruct (Qlt_le_dec b (-135 # 2)) as [H3|H3];
        [|destruct (Qlt_le_dec b (-45 # 2)) as [H4|H4]]]].
  - rewrite (spec_octant_interval b (-4)) in * by (unfold inject_Z; lra).
    destruct (Qlt_le_dec (b + u) (-315 # 2)) as [Hin|Hout].
    + unfold octant. repeat (destruct (Qlt_le_dec _ _); try (exfalso; lra)); reflexivity.
    + by rewrite (spec_octant_interval (b + u) (-3)) in Hsame by (unfold inject_Z; lra).
  - rewrite (spec_octant_interval b (-3)) in * by (unfold inject_Z; lra).
    destruct (Qlt_le_dec (b + u) (-225 # 2)) as [Hin|Hout].
    + unfold octant. repeat (destruct (Qlt_le_dec _ _); try (exfalso; lra)); reflexivity.
    + by rewrite (spec_octant_interval (b + u) (-2)) in Hsame by (unfold inject_Z; lra).
  - rewrite (spec_octant_interval b (-2)) in * by (unfold inject_Z; lra).
    destruct (Qlt_le_dec (b + u) (-135 # 2)) as [Hin|Hout].
    + unfold octant. repeat (destruct (Qlt_le_dec _ _); try (exfalso; lra)); reflexivity.
    + by rewrite (spec_octant_interval (b + u) (-1)) in Hsame by (unfold inject_Z; lra).
  - rewrite (spec_octant_interval b (-1)) in * by (unfold inject_Z; lra).
    destruct (Qlt_le_dec (b + u) (-45 # 2)) as [Hin|Hout].
    + unfold octant. repeat (destruct (Qlt_le_dec _ _); try (exfalso; lra)); reflexivity.
    + by rewrite (spec_octant_interval (b + u) 0) in Hsame by (unfold inject_Z; lra).
  - rewrite (spec_octant_interval b 0) by (unfold inject_Z; lra).
    unfold octant. repeat (destruct (Qlt_le_dec _ _); try (exfalso; lra)); reflexivity.
Qed.

Lemma wrap_angle_close (b : Q) :
  (-180 <= b)%Q -> (b < 0)%Q -> (Qabs (wrap_angle b - (b + 360)) <= ulp_360 * (1 # 2))%Q.
Proof.
  intros Hlo Hhi. unfold wrap_angle. destruct (Qlt_le_dec b 0); [|lra].
  apply (binary64_close (b + 360) (-44)); [lia | lra |].
  change (inject_Z (2 ^ (-44 + 53))) with 512%Q. lra.
Qed.

(** C7, as the code has it: the orientation of a geometry with fewer than
    two coordinates is None; otherwise it is the point that the chain of
    comparisons gives to the bearing from the first to the last coordinate,
    once 360 is added to a negative bearing. For a bearing from 0 to 180
    degrees it is the one of the eight half-open 45 degree intervals around
    E, NE, N, NW, W, SW, S, SE that holds the bearing. For a bearing from
    -180 up to 0 it is the interval that holds the float sum of the bearing
    and 360, which is within [ulp_360 / 2] of the exact sum; it is the
    interval of the bearing itself whenever that interval also holds the
    bearing [ulp_360] above. A bearing of 0 degrees gives E, one of 46
    degrees gives NE. *)
Theorem calc_orientation_octants (arctan2_degrees : Q -> Q -> Q) (coords : list (Q * Q)) :
  ((length coords < 2)%nat -> calc_orientation arctan2_degrees coords = None)
  /\ ((2 <= length coords)%nat ->
      calc_orientation arctan2_degrees coords
        = Some (octant (wrap_angle (bearing arctan2_degrees coords)))
      /\ ((0 <= bearing arctan2_degrees coords)%Q ->
          (bearing arctan2_degrees coords <= 180)%Q ->
          calc_orientation arctan2_degrees coords
            = Some (spec_octant (bearing arctan2_degrees coords)))
      /\ ((-180 <= bearing arctan2_degrees coords)%Q ->
          (bearing arctan2_degrees coords < 0)%Q ->
          calc_orientation arctan2_degrees coords
            = Some (spec_octant (wrap_angle (bearing arctan2_degrees coords)))
          /\ (Qabs (wrap_angle (bearing arctan2_degrees coords)
                    - (bearing arctan2_degrees coords + 360)) <= ulp_360 * (1 # 2))%Q
          /\ (spec_octant (bearing arctan2_degrees coords)
              = spec_octant (bearing arctan2_degrees coords + ulp_360) ->
              calc_orientation arctan2_degrees coords
                = Some (spec_octant (bearing arctan2_degrees coords))))
      /\ ((bearing arctan2_degrees coords == 0)%Q ->
          calc_orientation arctan2_degrees coords = Some "E")
      /\ ((bearing arctan2_degrees coords == 46)%Q ->
          calc_orientation arctan2_degrees coords = Some "NE")).
Proof.
  unfold calc_orientation. split.
  - intros Hlen. apply Nat.ltb_lt in Hlen. by rewrite Hlen.
  - intros Hlen. apply Nat.ltb_ge in Hlen. rewrite Hlen.
    split; [reflexivity|]. split; [|split; [|split]].
    + intros Hlo Hhi. rewrite wrap_angle_nonneg by done.
      rewrite octant_half_open; [done | done | lra].
    + intros Hlo Hhi. destruct (wrap_angle_range _ Hlo Hhi) as [Hw1 Hw2].
      split; [|split].
      * rewrite octant_half_open; [done | lra | done].
      * by apply wrap_angle_close.
      * intros Hsame. by rewrite octant_wrap_margin.
    + intros Hb. by rewrite (octant_wrap_Qeq _ 0 ltac:(done) Hb).
    + intros Hb. by rewrite (octant_wrap_Qeq _ 46 ltac:(done) Hb).
Qed.

(** A polyline running due east, one running north, one running south, one
    whose bearing is measured as 46 degrees, and a single point. *)
Lemma calc_orientation_octants_witness :
  calc_orientation (fun dy dx => if Qeq_bool dy 0 then 0 else 90)%Q [(0, 0); (3, 0)]%Q = Some "E"
  /\ calc_orientation (fun dy dx => if Qeq_bool dy 0 then 0 else 90)%Q [(0, 0); (0, 2)]%Q
     = Some (spec_octant 90)
  /\ calc_orientation (fun _ _ => (-90)%Q) [(0, 2); (0, 0)]%Q = Some (spec_octant (-90))
  /\ calc_orientation (fun _ _ => 46%Q) [(0, 0); (1, 1)]%Q = Some "NE"
  /\ calc_orientation (fun _ _ => 46%Q) [(5, 5)]%Q = None.
Proof.
  split; [|split; [|split; [|split]]].
  - apply (calc_orientation_octants (fun dy dx => if Qeq_bool dy 0 then 0 else 90)%Q
             [(0, 0); (3, 0)]%Q); [simpl; lia | reflexivity].
  - destruct (calc_orientation_octants (fun dy dx => if Qeq_bool dy 0 then 0 else 90)%Q
                [(0, 0); (0, 2)]%Q) as [_ H].
    destruct (H ltac:(simpl; lia)) as (_ & Hpos & _).
    apply Hpos; discriminate.
  - destruct (calc_orientation_octants (fun _ _ => (-90)%Q) [(0, 2); (0, 0)]%Q) as [_ H].
    destruct (H ltac:(simpl; lia)) as (_ & _ & Hneg & _).
    destruct (Hneg ltac:(discriminate) ltac:(reflexivity)) as (_ & _ & Hm).
    apply Hm. vm_compute. reflexivity.
  - apply (calc_orientation_octants (fun _ _ => 46%Q) [(0, 0); (1, 1)]%Q);
      [simpl; lia | reflexivity].
  - apply (calc_orientation_octants (fun _ _ => 46%Q) [(5, 5)]%Q). simpl; lia.
Defined.

(** The bearing next below -22.5 degrees lies in [-67.5, -22.5), the
    interval of SE, and its float sum with 360 is 337.5: the orientation
    is E. *)
Lemma calc_orientation_rounds_onto_boundary :
  (-135 # 2 <= below_minus_22_5)%Q /\ (below_minus_22_5 < -45 # 2)%Q
  /\ spec_octant below_minus_22_5 = "SE"
  /\ wrap_angle below_minus_22_5 = (675 # 2)%Q
  /\ calc_orientation (fun _ _ => below_minus_22_5)
       [(0, 0); (1, - (4142135623730951 # 10000000000000000))]%Q
     = Some "E"
  /\ ~ (forall arctan2_degrees coords,
          (2 <= length coords)%nat ->
          (-180 <= bearing arctan2_degrees coords)%Q ->
          (bearing arctan2_degrees coords <= 180)%Q ->
          calc_orientation arctan2_degrees coords
          = Some (spec_octant (bearing arctan2_degrees coords))).
Proof.
  split_and!; [done | done | by vm_compute | by vm_compute | by vm_compute |].
  intros H.
  specialize (H (fun _ _ => below_minus_22_5)
                [(0, 0); (1, - (4142135623730951 # 10000000000000000))]%Q).
  assert (Some "E" = Some "SE") as Habs; [|done].
  etransitivity; [|etransitivity; [apply H|]]; [by vm_compute | simpl; lia | done | done |].
  by vm_compute.
Qed.

(** ** Static features *)

Lemma fillna_missing d : fillna d None = lit d.
Proof. reflexivity. Qed.

Lemma categorize_surface_total lower_nonascii surface :
  match surface with
  | None => categorize_surface lower_nonascii surface = "unknown"
  | Some _ => categorize_surface lower_nonascii surface ∈ ["good"; "medium"; "poor"]
  end.
Proof.
  destruct surface as [s|]; [|reflexivity]. unfold categorize_surface.
  repeat case_match; set_solver.
Qed.

Lemma categorize_surface_case lower_nonascii s s' :
  lower lower_nonascii s = lower lower_nonascii s' ->
  categorize_surface lower_nonascii (Some s) = categorize_surface lower_nonascii (Some s').
Proof. unfold categorize_surface. by intros ->. Qed.

Lemma int_or_default_not_digits d x :
  (forall s, x = Some s -> isdigit s = false) -> int_or_default d x = Ok d.
Proof.
  intros Hx. destruct x as [s|]; [|reflexivity].
  unfold int_or_default. by rewrite (Hx s eq_refl).
Qed.

Lemma decimal_value_ascii c : (48 <= c <= 57)%N -> decimal_value c = Some (c - 48)%N.
Proof.
  intros Hc. unfold decimal_value, decimal_zeros. cbn [List.find].
  assert ((48 <=? c)%N = true) as -> by (apply N.leb_le; lia).
  assert ((c <=? 48 + 9)%N = true) as -> by (apply N.leb_le; lia).
  reflexivity.
Qed.

Lemma int_digits_ascii acc s :
  Forall (fun c => (48 <= c <= 57)%N) s -> exists z, int_digits acc s = Ok z.
Proof.
  intros Hs. revert acc. induction Hs as [|c s Hc _ IH]; intros acc; [by exists acc|].
  simpl. rewrite decimal_value_ascii by done. apply IH.
Qed.

Lemma py_int_short s :
  s <> [] -> (length s <= int_max_str_digits)%nat -> py_int s = int_digits 0 s.
Proof.
  intros Hne Hlen. unfold py_int. destruct s as [|c s]; [done|].
  by destruct (Nat.ltb_spec int_max_str_digits (length (c :: s))); [lia|].
Qed.

Lemma py_int_long s :
  (int_max_str_digits < length s)%nat -> py_int s = Raise ValueError.
Proof.
  intros Hlen. unfold py_int. destruct s as [|c s]; [done|].
  by destruct (Nat.ltb_spec int_max_str_digits (length (c :: s))); [|lia].
Qed.

Lemma int_or_default_ascii d s :
  (length s <= int_max_str_digits)%nat ->
  Forall (fun c => (48 <= c <= 57)%N) s -> exists z, int_or_default d (Some s) = Ok z.
Proof.
  intros Hlen Hs. unfold int_or_default. destruct s as [|c s]; [by exists d|].
  destruct (isdigit (c :: s)); [|by exists d].
  rewrite py_int_short by done. by apply int_digits_ascii.
Qed.

(** C8: the speed-limit and lane-count conversions guard [int(x)] by
    [str(x).isdigit()], and the tag made of the one character U+00B2
    (superscript two) passes the guard although [int] rejects it: on that tag
    both conversions raise ValueError instead of giving the defaults 50 and
    2, and so does the computation of the static features of a network that
    holds an edge with that tag. *)
Theorem int_or_default_superscript_two :
  isdigit [178%N] = true
  /\ py_int [178%N] = Raise ValueError
  /\ maxspeed_kmh (Some [178%N]) = Raise ValueError
  /\ lanes_count (Some [178%N]) = Raise ValueError
  /\ forall arctan2_degrees lower_nonascii with_sensors,
       static_row arctan2_degrees lower_nonascii with_sensors squared_street
       = Raise ValueError
       /\ edges_gdf arctan2_degrees lower_nonascii with_sensors (streets ++ [squared_street])
          = Raise ValueError.
Proof.
  split_and!; try reflexivity.
  intros arctan2_degrees lower_nonascii with_sensors. split; reflexivity.
Qed.

(** A tag column exists when some edge carries the tag: the speed limit of
    a street without the tag is the default inside a network that has the
    column, and the script stops with KeyError on a network that has not. *)
Example edges_gdf_missing_column arctan2_degrees lower_nonascii with_sensors :
  Static.maxspeed_kmh <$> feed_with_bare arctan2_degrees lower_nonascii with_sensors
  = [30; 30; 50]
  /\ edges_gdf arctan2_degrees lower_nonascii with_sensors [bare_street] = Raise KeyError.
Proof. split; reflexivity. Qed.

(** ** Sensors to edges *)

Lemma truthy_false x : truthy x = false <-> x = None \/ exists q, x = Some q /\ (q == 0)%Q.
Proof.
  destruct x as [q|]; simpl.
  - rewrite negb_false_iff, Qeq_bool_iff. split; [eauto | intros [|(? & [= <-] & ?)]; done].
  - split; [by left | done].
Qed.

Lemma elem_of_sensors_list sensors_info s :
  s ∈ sensors_list sensors_info <->
  exists info, (Sensor.counter_id s, info) ∈ sensors_info
    /\ truthy (Info.lat info) = true /\ truthy (Info.lon info) = true
    /\ s = Sensor.mk (Sensor.counter_id s) (Info.name info)
             (default 0%Q (Info.lon info), default 0%Q (Info.lat info)).
Proof.
  unfold sensors_list. rewrite list_elem_of_bind. split.
  - intros ([cid info] & Hs & Hin).
    destruct (truthy (Info.lat info)) eqn:Hlat, (truthy (Info.lon info)) eqn:Hlon;
      simpl in Hs; try by apply elem_of_nil in Hs.
    apply list_elem_of_singleton in Hs. subst s. simpl. by exists info.
  - intros (info & Hin & Hlat & Hlon & Hs).
    exists (Sensor.counter_id s, info). split; [|done].
    rewrite Hlat, Hlon. simpl. rewrite Hs at 1. by left.
Qed.

Lemma argmin_from_spec best bv i l :
  (argmin_from best bv i l = best /\ forall y, y ∈ l -> (bv <= y)%Q)
  \/ exists k x, argmin_from best bv i l = (i + k)%nat /\ l !! k = Some x
       /\ (x < bv)%Q /\ (forall y, y ∈ l -> (x <= y)%Q)
       /\ forall j y, (j < k)%nat -> l !! j = Some y -> (x < y)%Q.
Proof.
  revert best bv i. induction l as [|x l IH]; intros best bv i; simpl.
  { left. split; [done|]. intros y Hy. by apply elem_of_nil in Hy. }
  destruct (Qlt_le_dec x bv) as [Hlt|Hge].
  - destruct (IH i x (S i)) as [[-> Hmin]|(k & x' & -> & Hk & Hx' & Hmin & Hfirst)].
    + right. exists 0%nat, x. split_and!; [lia | done | done | | lia].
      intros y [->|Hy]%elem_of_cons; [apply Qle_refl | by apply Hmin].
    + right. exists (S k), x'. split_and!; [lia | done | lra | |].
      * intros y [->|Hy]%elem_of_cons; [lra | by apply Hmin].
      * intros [|j] y Hj Hy; simpl in Hy; [by injection Hy as <-|].
        apply (Hfirst j); [lia | done].
  - destruct (IH best bv (S i)) as [[-> Hmin]|(k & x' & -> & Hk & Hx' & Hmin & Hfirst)].
    + left. split; [done|].
      intros y [->|Hy]%elem_of_cons; [done | by apply Hmin].
    + right. exists (S k), x'. split_and!; [lia | done | done | |].
      * intros y [->|Hy]%elem_of_cons; [lra | by apply Hmin].
      * intros [|j] y Hj Hy; simpl in Hy; [injection Hy as <-; lra|].
        apply (Hfirst j); [lia | done].
Qed.

Lemma idxmin_spec l :
  l <> [] ->
  exists i x, idxmin l = Ok i /\ l !! i = Some x
    /\ (forall y, y ∈ l -> (x <= y)%Q)
    /\ forall j y, (j < i)%nat -> l !! j = Some y -> (x < y)%Q.
Proof.
  destruct l as [|x l]; [done|]. intros _. simpl.
  destruct (argmin_from_spec 0 x 1 l) as [[-> Hmin]|(k & x' & -> & Hk & Hx' & Hmin & Hfirst)].
  - exists 0%nat, x. split_and!; [done | done | | lia].
    intros y [->|Hy]%elem_of_cons; [apply Qle_refl | by apply Hmin].
  - exists (S k), x'. split_and!; [done | done | |].
    + intros y [->|Hy]%elem_of_cons; [lra | by apply Hmin].
    + intros [|j] y Hj Hy; simpl in Hy; [injection Hy as <-; lra|].
      apply (Hfirst j); [lia | done].
Qed.

Lemma match_sensor_spec distance edges m s :
  edges <> [] ->
  exists i e, nearest_edge distance edges (Sensor.geometry s) i e
    /\ match_sensor distance edges m s
       = Ok (if Qle_bool (distance e (Sensor.geometry s)) MAX_DISTANCE
             then <[Sensor.counter_id s := association distance s e]> m else m).
Proof.
  intros Hedges. unfold match_sensor.
  destruct (idxmin_spec ((fun e => distance e (Sensor.geometry s)) <$> edges))
    as (i & d & -> & Hi & Hmin & Hfirst).
  { by destruct edges. }
  simpl. rewrite Hi.
  apply list_lookup_fmap_Some in Hi as (e & -> & He). rewrite He.
  exists i, e. split; [|by destruct (Qle_bool _ _)].
  split_and!; [done | |].
  - intros e' He'. apply Hmin.
    by apply (list_elem_of_fmap_2 (fun e => distance e (Sensor.geometry s))).
  - intros j e' Hj He'. apply (Hfirst j); [done|].
    by rewrite list_lookup_fmap, He'.
Qed.

Lemma match_sensor_other distance edges m s m' cid :
  match_sensor distance edges m s = Ok m' -> cid <> Sensor.counter_id s ->
  m' !! cid = m !! cid.
Proof.
  unfold match_sensor. intros Hm Hne.
  apply rbind_Ok in Hm as (i & _ & Hm).
  repeat case_match; simplify_eq; [by rewrite lookup_insert_ne | done].
Qed.

Lemma sensor_to_edge_other distance edges sensors m s2e cid :
  for_fold (match_sensor distance edges) m sensors = Ok s2e ->
  cid ∉ Sensor.counter_id <$> sensors -> s2e !! cid = m !! cid.
Proof.
  revert m. induction sensors as [|s rest IH]; intros m Hfold Hcid; simpl in *.
  { by injection Hfold as <-. }
  apply rbind_Ok in Hfold as (m' & Hstep & Hfold).
  apply not_elem_of_cons in Hcid as [Hne Hcid].
  rewrite (IH _ Hfold Hcid). by apply (match_sensor_other _ _ _ _ _ _ Hstep).
Qed.

Lemma sensor_to_edge_fold distance edges sensors m :
  edges <> [] -> NoDup (Sensor.counter_id <$> sensors) ->
  exists s2e, for_fold (match_sensor distance edges) m sensors = Ok s2e
    /\ forall s, s ∈ sensors ->
       exists i e, nearest_edge distance edges (Sensor.geometry s) i e
         /\ s2e !! Sensor.counter_id s
            = if Qle_bool (distance e (Sensor.geometry s)) MAX_DISTANCE
              then Some (association distance s e) else m !! Sensor.counter_id s.
Proof.
  intros Hedges. revert m.
  induction sensors as [|s rest IH]; intros m Hnodup; simpl.
  { exists m. split; [done|]. intros s Hs. by apply elem_of_nil in Hs. }
  apply NoDup_cons in Hnodup as [Hs Hnodup].
  destruct (match_sensor_spec distance edges m s Hedges) as (i & e & Hnear & Hstep).
  rewrite Hstep. simpl.
  destruct (IH (if Qle_bool (distance e (Sensor.geometry s)) MAX_DISTANCE
                then <[Sensor.counter_id s := association distance s e]> m else m)
              Hnodup) as (s2e & Hfold & Hrest).
  exists s2e. split; [done|].
  intros s' [->|Hs']%elem_of_cons.
  - exists i, e. split; [done|].
    rewrite (sensor_to_edge_other _ _ _ _ _ _ Hfold Hs).
    destruct (Qle_bool _ _); [by rewrite lookup_insert_eq | done].
  - destruct (Hrest s' Hs') as (i' & e' & Hnear' & Hlook).
    exists i', e'. split; [done|]. rewrite Hlook.
    destruct (Qle_bool (distance e' _) _); [done|].
    destruct (Qle_bool (distance e _) _); [|done].
    rewrite lookup_insert_ne; [done|].
    intros Heq. apply Hs. rewrite Heq. by apply list_elem_of_fmap_2.
Qed.

(** C3: with at least one edge, the matcher runs to the end without an
    error and, for every sensor that has a location, stores the association
    to its nearest edge exactly when the distance to that edge is at most 50
    metres (50 included), and stores nothing for the sensor exactly when the
    distance is above 50 metres. Sensor identifiers are the keys of a
    dictionary, hence distinct. *)
Theorem sensor_matched_iff_within_50m (distance : Edge.t -> Q * Q -> Q)
    (edges : list Edge.t) (sensors : list Sensor.t) :
  edges <> [] -> NoDup (Sensor.counter_id <$> sensors) ->
  exists s2e, sensor_to_edge distance edges sensors = Ok s2e
    /\ forall s, s ∈ sensors ->
       exists i e, nearest_edge distance edges (Sensor.geometry s) i e
         /\ (s2e !! Sensor.counter_id s = Some (association distance s e)
             <-> (distance e (Sensor.geometry s) <= 50)%Q)
         /\ (s2e !! Sensor.counter_id s = None
             <-> (50 < distance e (Sensor.geometry s))%Q).
Proof.
  intros Hedges Hnodup.
  destruct (sensor_to_edge_fold distance edges sensors ∅ Hedges Hnodup)
    as (s2e & Hfold & Hall).
  exists s2e. split; [done|]. intros s Hs.
  destruct (Hall s Hs) as (i & e & Hnear & Hlook).
  exists i, e. split; [done|]. rewrite Hlook, lookup_empty. unfold MAX_DISTANCE.
  destruct (Qle_bool (distance e (Sensor.geometry s)) 50) eqn:Hle.
  - apply Qle_bool_iff in Hle. split; split; try done. intros Hgt. lra.
  - assert (~ (distance e (Sensor.geometry s) <= 50)%Q) as Hnle.
    { intros H. apply Qle_bool_iff in H. congruence. }
    split; split; try done. intros _. lra.
Qed.

(** Sensors at 50 m, 51 m and 49.9 m of the first street. *)
Lemma sensor_matched_iff_within_50m_witness :
  exists s2e,
    sensor_to_edge x_distance streets
      [sensor_at "at50" 50; sensor_at "at51" 51; sensor_at "at49_9" (499 # 10)] = Ok s2e
    /\ forall s, s ∈ [sensor_at "at50" 50; sensor_at "at51" 51; sensor_at "at49_9" (499 # 10)] ->
       exists i e, nearest_edge x_distance streets (Sensor.geometry s) i e
         /\ (s2e !! Sensor.counter_id s = Some (association x_distance s e)
             <-> (x_distance e (Sensor.geometry s) <= 50)%Q)
         /\ (s2e !! Sensor.counter_id s = None
             <-> (50 < x_distance e (Sensor.geometry s))%Q).
Proof.
  apply sensor_matched_iff_within_50m; [discriminate|].
  apply (bool_decide_unpack _). vm_compute. exact I.
Defined.

Example sensor_at_boundary :
  match sensor_to_edge x_distance streets
          [sensor_at "at50" 50; sensor_at "at51" 51; sensor_at "at49_9" (499 # 10)] with
  | Ok s2e =>
      Assoc.edge_id <$> s2e !! "at50" = Some 101
      /\ s2e !! "at51" = None
      /\ Assoc.edge_id <$> s2e !! "at49_9" = Some 101
  | Raise _ => False
  end.
Proof. vm_compute. auto. Qed.

(** C10: a sensor enters [sensors_list] exactly when both its latitude and
    its longitude are truthy; a coordinate is falsy exactly when it is null
    or equal to 0; the entries with a falsy coordinate are dropped by a plain
    test, so the matcher sees the same sensors as if they were not in the
    feed, and it stores no association under an identifier whose entries all
    have a falsy coordinate. *)
Theorem falsy_coordinates_skipped (distance : Edge.t -> Q * Q -> Q)
    (edges : list Edge.t) (sensors_info : list (string * Info.t)) :
  (forall s, s ∈ sensors_list sensors_info <->
     exists info, (Sensor.counter_id s, info) ∈ sensors_info
       /\ truthy (Info.lat info) = true /\ truthy (Info.lon info) = true
       /\ s = Sensor.mk (Sensor.counter_id s) (Info.name info)
                (default 0%Q (Info.lon info), default 0%Q (Info.lat info)))
  /\ (forall x, truthy x = false <-> x = None \/ exists q, x = Some q /\ (q == 0)%Q)
  /\ sensors_list sensors_info
     = sensors_list (filter (fun ci => truthy (Info.lat ci.2) && truthy (Info.lon ci.2) = true)
                       sensors_info)
  /\ forall s2e cid,
       sensor_to_edge distance edges (sensors_list sensors_info) = Ok s2e ->
       (forall info, (cid, info) ∈ sensors_info ->
          truthy (Info.lat info) = false \/ truthy (Info.lon info) = false) ->
       s2e !! cid = None.
Proof.
  split_and!.
  - apply elem_of_sensors_list.
  - apply truthy_false.
  - induction sensors_info as [|[cid info] rest IH]; [done|].
    rewrite filter_cons. cbn [snd].
    destruct (truthy (Info.lat info)) eqn:Hlat, (truthy (Info.lon info)) eqn:Hlon;
      unfold sensors_list in *; simpl andb; case_decide; try done;
      csimpl; rewrite Hlat, Hlon; simpl; by rewrite IH.
  - intros s2e cid Hrun Hfalsy. unfold sensor_to_edge in Hrun.
    rewrite (sensor_to_edge_other _ _ _ _ _ cid Hrun); [apply lookup_empty|].
    intros (s & -> & Hs)%list_elem_of_fmap.
    apply elem_of_sensors_list in Hs as (info & Hin & Hlat & Hlon & _).
    destruct (Hfalsy info Hin); congruence.
Qed.

(** A feed with a sensor on the equator, one without latitude and one with
    both coordinates. *)
Lemma falsy_coordinates_skipped_witness :
  sensor_to_edge x_distance streets
    (sensors_list [("equator", Info.mk "a" (Some 0%Q) (Some 30%Q));
                   ("nowhere", Info.mk "b" None (Some 30%Q));
                   ("lyon", Info.mk "c" (Some 10%Q) (Some 30%Q))])
  = Ok {["lyon" := Assoc.mk 101 30 "c"]}
  /\ ({["lyon" := Assoc.mk 101 30 "c"]} : gmap string Assoc.t) !! "equator" = None.
Proof.
  assert (sensor_to_edge x_distance streets
            (sensors_list [("equator", Info.mk "a" (Some 0%Q) (Some 30%Q));
                           ("nowhere", Info.mk "b" None (Some 30%Q));
                           ("lyon", Info.mk "c" (Some 10%Q) (Some 30%Q))])
          = Ok {["lyon" := Assoc.mk 101 30 "c"]}) as Hrun by (vm_compute; reflexivity).
  split; [exact Hrun|].
  eapply (falsy_coordinates_skipped x_distance streets); [exact Hrun|].
  intros info Hin. apply list_elem_of_In in Hin. simpl in Hin.
  destruct Hin as [[= <-]|[[=]|[[=]|[]]]]. by left.
Defined.

Example falsy_coordinates_example :
  Sensor.counter_id <$>
    sensors_list [("equator", Info.mk "a" (Some 0%Q) (Some 30%Q));
                  ("nowhere", Info.mk "b" None (Some 30%Q));
                  ("lyon", Info.mk "c" (Some 10%Q) (Some 30%Q))] = ["lyon"].
Proof. reflexivity. Qed.

(** ** The count lookup *)

Lemma bike_lookup_step_lookup m row key :
  bike_lookup_step m row !! key
  = if decide ((Bike.edge_id row, Bike.timestamp row) = key)
    then Some (default 0 (m !! key) + Bike.count row) else m !! key.
Proof.
  unfold bike_lookup_step. case_decide as Hkey.
  - subst key. rewrite lookup_insert_eq. case_bool_decide as Hsome; [done|].
    rewrite lookup_insert_eq. apply eq_None_not_Some in Hsome. by rewrite Hsome.
  - rewrite lookup_insert_ne by done.
    case_bool_decide; [done | by rewrite lookup_insert_ne].
Qed.

Lemma bike_lookup_fold df m key :
  foldl bike_lookup_step m df !! key
  = match counts_at df key with
    | [] => m !! key
    | cs => Some (default 0 (m !! key) + sumZ cs)
    end.
Proof.
  revert m. induction df as [|row df IH]; intros m; [done|].
  simpl. rewrite IH, bike_lookup_step_lookup. unfold counts_at.
  rewrite filter_cons. case_decide as Hkey; [|done].
  rewrite fmap_cons. simpl.
  destruct (Bike.count <$> filter _ df) as [|c cs]; simpl; f_equal; lia.
Qed.

Lemma bike_lookup_summed df key : bike_lookup df !! key = summed_count df key.
Proof.
  unfold bike_lookup, summed_count. rewrite bike_lookup_fold, lookup_empty.
  destruct (counts_at df key); simpl; [done | f_equal; lia].
Qed.

(** ** The grid *)

Lemma for_each_inv {A B} (body : A -> result B) l ys :
  for_each body l = Ok ys -> Forall2 (fun x y => body x = Ok y) l ys.
Proof.
  revert ys. induction l as [|x l IH]; intros ys Hrun; simpl in Hrun.
  { injection Hrun as <-. constructor. }
  apply rbind_Ok in Hrun as (y & Hy & Hrun).
  apply rbind_Ok in Hrun as (ys' & Hys & [= <-]).
  constructor; [done | by apply IH].
Qed.

Lemma for_each_total {A B} (body : A -> result B) l :
  (forall x, x ∈ l -> exists y, body x = Ok y) -> exists ys, for_each body l = Ok ys.
Proof.
  induction l as [|x l IH]; intros Hbody; simpl; [by eexists|].
  destruct (Hbody x) as [y ->]; [by left|].
  destruct IH as [ys ->]; [intros; apply Hbody; by right|].
  by eexists.
Qed.

Lemma bisect_left_bounds fuel a key lo hi :
  (lo <= hi)%nat ->
  (lo <= bisect_left fuel a key lo hi)%nat /\ (bisect_left fuel a key lo hi <= hi)%nat.
Proof.
  revert lo hi. induction fuel as [|fuel IH]; intros lo hi Hle; cbn [bisect_left]; [lia|].
  destruct (Nat.ltb_spec lo hi) as [Hlt|]; [|lia].
  assert (lo + (hi - lo) / 2 < hi)%nat by (pose proof (Nat.div_lt (hi - lo) 2); lia).
  destruct (_ <? key).
  - specialize (IH (S (lo + (hi - lo) / 2)) hi). lia.
  - specialize (IH lo (lo + (hi - lo) / 2)%nat). lia.
Qed.

Lemma searchsorted_le a key : (searchsorted a key <= length a)%nat.
Proof. unfold searchsorted. apply bisect_left_bounds. lia. Qed.

Lemma iloc_Ok {A} (l : list A) i :
  - Z.of_nat (length l) <= i < Z.of_nat (length l) ->
  exists x, iloc l i = Ok x
    /\ l !! Z.to_nat (if i <? 0 then Z.of_nat (length l) + i else i) = Some x.
Proof.
  intros Hi. unfold iloc.
  set (j := if i <? 0 then Z.of_nat (length l) + i else i).
  assert (0 <= j < Z.of_nat (length l)) as Hj.
  { unfold j. destruct (Z.ltb_spec i 0); lia. }
  replace (0 <=? j) with true by (symmetry; apply Z.leb_le; lia).
  replace (j <? Z.of_nat (length l)) with true by (symmetry; apply Z.ltb_lt; lia).
  simpl. destruct (l !! Z.to_nat j) as [x|] eqn:Hx; [by exists x|].
  apply lookup_ge_None in Hx. lia.
Qed.

Lemma weather_row_eq weather_df ts :
  weather_df <> [] ->
  weather_row weather_df ts
  = if (length (filter (fun w => Weather.timestamp w = ts) weather_df) =? 0)%nat then
      iloc weather_df (Z.of_nat (searchsorted (Weather.timestamp <$> weather_df) ts) - 1)
    else iloc (filter (fun w => Weather.timestamp w = ts) weather_df) 0.
Proof. by destruct weather_df. Qed.

Lemma weather_row_Ok weather_df ts :
  weather_df <> [] -> exists w, weather_row weather_df ts = Ok w /\ w ∈ weather_df.
Proof.
  intros Hne. rewrite weather_row_eq by done.
  destruct (Nat.eqb_spec (length (filter (fun w => Weather.timestamp w = ts) weather_df)) 0)
    as [Hnone|Hsome].
  - pose proof (searchsorted_le (Weather.timestamp <$> weather_df) ts) as Hs.
    rewrite length_fmap in Hs.
    destruct (iloc_Ok weather_df
                (Z.of_nat (searchsorted (Weather.timestamp <$> weather_df) ts) - 1))
      as (w & -> & Hw).
    { destruct weather_df; [done|]. simpl in *. lia. }
    exists w. split; [done|]. by eapply list_elem_of_lookup_2.
  - destruct (iloc_Ok (filter (fun w => Weather.timestamp w = ts) weather_df) 0)
      as (w & -> & Hw); [lia|].
    exists w. split; [done|].
    apply list_elem_of_lookup_2 in Hw. by apply list_elem_of_filter in Hw as [_ ?].
Qed.

Lemma make_row_inv dict lookup ts w e r :
  make_row dict lookup ts w e = Ok r ->
  Row.key r = (e, ts) /\ Row.bike_count r = lookup !! (e, ts)
  /\ dict !! e = Some (Row.edge_row r).
Proof.
  unfold make_row. destruct (dict !! e) as [st|]; [|done].
  by intros [= <-].
Qed.

Lemma block_keys dict lookup ts w es block :
  for_each (make_row dict lookup ts w) es = Ok block ->
  Row.key <$> block = (fun e => (e, ts)) <$> es
  /\ forall r, r ∈ block -> Row.bike_count r = lookup !! Row.key r.
Proof.
  intros Hrun%for_each_inv. induction Hrun as [|e r es block Hr _ [IHk IHc]]; [split; [done|]|].
  { intros r Hr. by apply elem_of_nil in Hr. }
  apply make_row_inv in Hr as (Hkey & Hcount & _). split.
  - rewrite !fmap_cons. by f_equal.
  - intros r' [->|Hr']%elem_of_cons; [by rewrite Hkey | by apply IHc].
Qed.

Lemma dataset_rows_inv weather_df dict lookup tss es rows :
  dataset_rows weather_df dict lookup tss es = Ok rows ->
  Row.key <$> rows = cross tss es
  /\ forall r, r ∈ rows -> Row.bike_count r = lookup !! Row.key r.
Proof.
  unfold dataset_rows. intros (blocks & Hblocks & [= <-])%rbind_Ok.
  apply for_each_inv in Hblocks. unfold cross.
  induction Hblocks as [|ts block tss blocks Hblock _ [IHk IHc]].
  { split; [done|]. intros r Hr. by apply elem_of_nil in Hr. }
  apply rbind_Ok in Hblock as (w & _ & Hblock).
  apply block_keys in Hblock as [Hk Hc]. split.
  - csimpl. rewrite fmap_app. by f_equal.
  - csimpl. intros r [Hr|Hr]%elem_of_app; [by apply Hc | by apply IHc].
Qed.

Lemma dataset_rows_total weather_df dict lookup tss es :
  weather_df <> [] -> (forall e, e ∈ es -> is_Some (dict !! e)) ->
  exists rows, dataset_rows weather_df dict lookup tss es = Ok rows.
Proof.
  intros Hne Hdict. unfold dataset_rows.
  destruct (for_each_total
              (fun ts => w <~ weather_row weather_df ts ;;
                         for_each (make_row dict lookup ts w) es) tss) as [blocks ->].
  - intros ts _. destruct (weather_row_Ok weather_df ts Hne) as (w & -> & _). simpl.
    apply for_each_total. intros e He. destruct (Hdict e He) as [st Hst].
    unfold make_row. rewrite Hst. by eexists.
  - by eexists.
Qed.

Lemma length_cross tss es : length (cross tss es) = (length es * length tss)%nat.
Proof.
  unfold cross. induction tss as [|ts tss IH]; csimpl; [lia|].
  rewrite length_app, length_fmap, IH. lia.
Qed.

Lemma elem_of_cross tss es e ts : (e, ts) ∈ cross tss es <-> e ∈ es /\ ts ∈ tss.
Proof.
  unfold cross. rewrite list_elem_of_bind. split.
  - intros (ts' & (e' & [= -> ->] & He)%list_elem_of_fmap & Hts). done.
  - intros [He Hts]. exists ts. split; [|done].
    by apply (list_elem_of_fmap_2 (fun e => (e, ts))).
Qed.

Lemma NoDup_cross tss es : NoDup tss -> NoDup es -> NoDup (cross tss es).
Proof.
  intros Htss Hes. unfold cross. apply NoDup_bind; [| |done].
  - intros ts1 ts2 [e ts] _ _ (e1 & [= -> ->] & _)%list_elem_of_fmap
      (e2 & [= _ ->] & _)%list_elem_of_fmap. done.
  - intros ts _. apply NoDup_fmap_2_strong; [|done]. by intros e1 e2 _ _ [= ->].
Qed.

Lemma elem_of_edges_with_sensors s2e e : e ∈ edges_with_sensors s2e <-> e ∈ edge_set s2e.
Proof. unfold edges_with_sensors, edge_set. apply elem_of_elements. Qed.

Lemma elem_of_edge_set s2e e :
  e ∈ edge_set s2e <-> exists counter_id a, s2e !! counter_id = Some a /\ Assoc.edge_id a = e.
Proof.
  unfold edge_set. rewrite elem_of_list_to_set, list_elem_of_fmap. split.
  - intros (a & -> & ([cid a'] & -> & Hin)%list_elem_of_fmap).
    apply elem_of_map_to_list in Hin. by exists cid, a'.
  - intros (cid & a & Hlook & <-). exists a. split; [done|].
    apply list_elem_of_fmap. exists (cid, a). split; [done|].
    by apply elem_of_map_to_list.
Qed.

Lemma NoDup_edges_with_sensors s2e : NoDup (edges_with_sensors s2e).
Proof. unfold edges_with_sensors. apply NoDup_elements. Qed.

Lemma length_edges_with_sensors s2e : length (edges_with_sensors s2e) = size (edge_set s2e).
Proof. reflexivity. Qed.

Lemma timestamps_Permutation df : timestamps df ≡ₚ remove_dups (Bike.timestamp <$> df).
Proof. apply merge_sort_Permutation. Qed.

Lemma elem_of_timestamps df ts : ts ∈ timestamps df <-> ts ∈ timestamp_set df.
Proof.
  unfold timestamp_set.
  by rewrite timestamps_Permutation, elem_of_remove_dups, elem_of_list_to_set.
Qed.

Lemma NoDup_timestamps df : NoDup (timestamps df).
Proof. rewrite timestamps_Permutation. apply NoDup_remove_dups. Qed.

Lemma length_timestamps df : length (timestamps df) = size (timestamp_set df).
Proof.
  rewrite timestamps_Permutation.
  rewrite <- (size_list_to_set (C := gset Z)) by apply NoDup_remove_dups.
  f_equal. unfold timestamp_set. apply set_eq. intros ts.
  by rewrite !elem_of_list_to_set, elem_of_remove_dups.
Qed.

Lemma match_sensor_edge_ids distance edges m s m' :
  match_sensor distance edges m s = Ok m' ->
  (forall cid a, m !! cid = Some a -> Assoc.edge_id a ∈ Edge.osm_id <$> edges) ->
  forall cid a, m' !! cid = Some a -> Assoc.edge_id a ∈ Edge.osm_id <$> edges.
Proof.
  unfold match_sensor. intros Hm Hinv cid a.
  apply rbind_Ok in Hm as (i & _ & Hm).
  destruct (_ !! i) as [d|]; [|done]. destruct (edges !! i) as [e|] eqn:He; [|done].
  destruct (Qle_bool d MAX_DISTANCE); injection Hm as <-; [|apply Hinv].
  intros [[_ <-]|[_ Hold]]%lookup_insert_Some; [|by eapply Hinv].
  simpl. apply list_elem_of_fmap_2. by eapply list_elem_of_lookup_2.
Qed.

Lemma sensor_to_edge_edge_ids distance edges sensors s2e e :
  sensor_to_edge distance edges sensors = Ok s2e ->
  e ∈ edge_set s2e -> e ∈ Edge.osm_id <$> edges.
Proof.
  unfold sensor_to_edge. intros Hrun (cid & a & Hlook & <-)%elem_of_edge_set.
  revert cid a Hlook.
  assert (forall cid a, (∅ : gmap string Assoc.t) !! cid = Some a ->
            Assoc.edge_id a ∈ Edge.osm_id <$> edges) as Hinv by (intros ? ?; by rewrite lookup_empty).
  revert Hrun Hinv. generalize (∅ : gmap string Assoc.t).
  induction sensors as [|s sensors IH]; intros m Hrun Hinv; simpl in Hrun.
  { by injection Hrun as <-. }
  apply rbind_Ok in Hrun as (m' & Hstep & Hrun).
  apply (IH m' Hrun). by eapply match_sensor_edge_ids.
Qed.

Lemma edges_dict_fold rows (m : gmap Z Static.t) k :
  is_Some (m !! k) \/ k ∈ Static.osm_id <$> rows ->
  is_Some (foldl (fun d row => <[Static.osm_id row := row]> d) m rows !! k).
Proof.
  revert m. induction rows as [|r rows IH]; intros m; simpl.
  { intros [?|Hk]; [done | by apply elem_of_nil in Hk]. }
  intros [Hm|[->|Hk]%elem_of_cons]; apply IH.
  - left. destruct (decide (Static.osm_id r = k)) as [->|];
      [by rewrite lookup_insert_eq | by rewrite lookup_insert_ne].
  - left. by rewrite lookup_insert_eq.
  - by right.
Qed.

Lemma edges_gdf_for_each arctan2_degrees lower_nonascii with_sensors edges rows :
  edges_gdf arctan2_degrees lower_nonascii with_sensors edges = Ok rows ->
  for_each (static_row arctan2_degrees lower_nonascii with_sensors) edges = Ok rows.
Proof.
  unfold edges_gdf. intros H.
  repeat (apply rbind_Ok in H as (? & _ & H)). exact H.
Qed.

Lemma edges_gdf_ids arctan2_degrees lower_nonascii with_sensors edges rows :
  edges_gdf arctan2_degrees lower_nonascii with_sensors edges = Ok rows ->
  Static.osm_id <$> rows = Edge.osm_id <$> edges.
Proof.
  intros Hrun%edges_gdf_for_each%for_each_inv.
  induction Hrun as [|e r edges rows Hr _ IH]; [done|].
  rewrite !fmap_cons, IH. f_equal.
  unfold static_row in Hr.
  apply rbind_Ok in Hr as (v & _ & Hr). apply rbind_Ok in Hr as (l & _ & Hr).
  by injection Hr as <-.
Qed.

(** Every edge that the matcher associates to a sensor has its row in
    [edges_dict]: the second premise of the grid theorems holds in the
    script. *)
Lemma edges_with_sensors_have_rows distance arctan2_degrees lower_nonascii
    edges sensors s2e rows e :
  sensor_to_edge distance edges sensors = Ok s2e ->
  edges_gdf arctan2_degrees lower_nonascii (edges_with_sensors s2e) edges = Ok rows ->
  e ∈ edge_set s2e -> is_Some (edges_dict rows !! e).
Proof.
  intros Hs2e Hrows He. unfold edges_dict. apply edges_dict_fold. right.
  rewrite (edges_gdf_ids _ _ _ _ _ Hrows). by eapply sensor_to_edge_edge_ids.
Qed.

Lemma load_weather_Ok weather_data weather_df :
  load_weather weather_data = Ok weather_df -> weather_df = weather_data /\ weather_df <> [].
Proof. destruct weather_data; [done|]. by intros [= <-]. Qed.

Lemma bike_df_Ok s2e records df :
  bike_df s2e records = Ok df -> df = with_edge s2e records /\ records <> [].
Proof. destruct records; [done|]. by intros [= <-]. Qed.

(** The grid for any weather frame with a record and any table of static
    rows that covers the edges. *)
Lemma dataset_rows_cross weather_df dict lookup s2e df :
  weather_df <> [] ->
  (forall e, e ∈ edge_set s2e -> is_Some (dict !! e)) ->
  exists rows,
    dataset_rows weather_df dict lookup (timestamps df) (edges_with_sensors s2e) = Ok rows
    /\ length rows = (size (edge_set s2e) * size (timestamp_set df))%nat
    /\ NoDup (Row.key <$> rows)
    /\ (forall e ts, (e, ts) ∈ Row.key <$> rows <-> e ∈ edge_set s2e /\ ts ∈ timestamp_set df)
    /\ forall r, r ∈ rows -> Row.bike_count r = lookup !! Row.key r.
Proof.
  intros Hweather Hdict.
  destruct (dataset_rows_total weather_df dict lookup (timestamps df)
              (edges_with_sensors s2e) Hweather) as [rows Hrows].
  { intros e He. apply Hdict. by apply elem_of_edges_with_sensors. }
  exists rows. split; [done|].
  destruct (dataset_rows_inv _ _ _ _ _ _ Hrows) as [Hkeys Hcount]. split_and!; [| | |done].
  - rewrite <- (length_fmap Row.key), Hkeys, length_cross.
    by rewrite length_edges_with_sensors, length_timestamps.
  - rewrite Hkeys. apply NoDup_cross; [apply NoDup_timestamps | apply NoDup_edges_with_sensors].
  - intros e ts.
    by rewrite Hkeys, elem_of_cross, elem_of_edges_with_sensors, elem_of_timestamps.
Qed.

Lemma with_edge_edge s2e records row :
  row ∈ with_edge s2e records -> Bike.edge_id row ∈ edge_set s2e.
Proof.
  unfold with_edge. intros (r & Hr & Hrow)%list_elem_of_omap.
  destruct (s2e !! Count.counter_id r) as [a|] eqn:Ha; [|done].
  injection Hrow as <-. simpl. apply elem_of_edge_set. by exists (Count.counter_id r), a.
Qed.

Lemma counts_at_nonempty df key :
  counts_at df key <> [] ->
  exists row, row ∈ df /\ (Bike.edge_id row, Bike.timestamp row) = key.
Proof.
  unfold counts_at. intros Hne.
  destruct (filter (fun row => (Bike.edge_id row, Bike.timestamp row) = key) df)
    as [|row l] eqn:Hf; [done|].
  assert (row ∈ filter (fun row => (Bike.edge_id row, Bike.timestamp row) = key) df) as Hrow
    by (rewrite Hf; by left).
  apply list_elem_of_filter in Hrow as [Hkey Hrow]. by exists row.
Qed.

(** A key of a count row is a key of the grid. *)
Lemma grid_has_row weather_df dict lookup s2e records rows row :
  dataset_rows weather_df dict lookup (timestamps (with_edge s2e records))
    (edges_with_sensors s2e) = Ok rows ->
  row ∈ with_edge s2e records ->
  exists r, r ∈ rows /\ Row.key r = (Bike.edge_id row, Bike.timestamp row)
    /\ Row.bike_count r = lookup !! (Bike.edge_id row, Bike.timestamp row).
Proof.
  intros Hrows Hrow.
  destruct (dataset_rows_inv _ _ _ _ _ _ Hrows) as [Hkeys Hcount].
  assert ((Bike.edge_id row, Bike.timestamp row) ∈ Row.key <$> rows) as Hin.
  { rewrite Hkeys. apply elem_of_cross. split.
    - apply elem_of_edges_with_sensors. by eapply with_edge_edge.
    - apply elem_of_timestamps. unfold timestamp_set.
      apply elem_of_list_to_set. by apply list_elem_of_fmap_2. }
  apply list_elem_of_fmap in Hin as (r & Hkey & Hr).
  exists r. split_and!; [done | done |]. by rewrite (Hcount r Hr), <- Hkey.
Qed.

(** C1: once the sensors are matched (step 3), the count and weather frames
    are loaded (steps 4 and 6) and the static features are computed (step 7),
    the two loops of step 8 end without an error and yield exactly
    |edges with sensors| x |distinct timestamps of the count data| rows,
    whose (edge id, timestamp) keys are pairwise distinct and are exactly the
    pairs of the cross product. *)
Theorem grid_is_cross_product (distance : Edge.t -> Q * Q -> Q)
    (arctan2_degrees : Q -> Q -> Q) (lower_nonascii : N -> pystr)
    (edges : list Edge.t) (sensors : list Sensor.t) (records : list Count.t)
    (weather_data : list Weather.t)
    (s2e : gmap string Assoc.t) (df : list Bike.t) (weather_df : list Weather.t)
    (statics : list Static.t) :
  sensor_to_edge distance edges sensors = Ok s2e ->
  bike_df s2e records = Ok df ->
  load_weather weather_data = Ok weather_df ->
  edges_gdf arctan2_degrees lower_nonascii (edges_with_sensors s2e) edges = Ok statics ->
  exists rows,
    dataset_rows weather_df (edges_dict statics) (bike_lookup df) (timestamps df)
      (edges_with_sensors s2e) = Ok rows
    /\ length rows = (size (edge_set s2e) * size (timestamp_set df))%nat
    /\ NoDup (Row.key <$> rows)
    /\ forall e ts, (e, ts) ∈ Row.key <$> rows <-> e ∈ edge_set s2e /\ ts ∈ timestamp_set df.
Proof.
  intros Hs2e _ [_ Hweather]%load_weather_Ok Hstatics.
  destruct (dataset_rows_cross weather_df (edges_dict statics) (bike_lookup df) s2e df Hweather)
    as (rows & Hrows & Hlen & Hnodup & Hkeys & _).
  { intros e He. by eapply edges_with_sensors_have_rows. }
  by exists rows.
Qed.

Lemma feed_matched : sensor_to_edge x_distance streets feed_sensors = Ok feed_s2e.
Proof. vm_compute. reflexivity. Qed.

Lemma feed_static_rows :
  edges_gdf (fun _ _ => 90%Q) (fun c => [c]) (edges_with_sensors feed_s2e) streets
  = Ok feed_statics.
Proof. vm_compute. reflexivity. Qed.

Lemma grid_is_cross_product_witness :
  exists rows,
    dataset_rows feed_weather feed_dict (bike_lookup feed_df) (timestamps feed_df)
      (edges_with_sensors feed_s2e) = Ok rows
    /\ length rows = (size (edge_set feed_s2e) * size (timestamp_set feed_df))%nat
    /\ NoDup (Row.key <$> rows)
    /\ forall e ts, (e, ts) ∈ Row.key <$> rows
         <-> e ∈ edge_set feed_s2e /\ ts ∈ timestamp_set feed_df.
Proof.
  apply (grid_is_cross_product x_distance (fun _ _ => 90%Q) (fun c => [c])
           streets feed_sensors feed_counts feed_weather);
    [apply feed_matched | reflexivity | reflexivity | apply feed_static_rows].
Defined.

Example feed_grid :
  (fun r => (Row.key r, Row.bike_count r, Row.temperature_c r)) <$> feed_rows
  = [((101, 0), Some 4, Some 8%Q); ((102, 0), Some 1, Some 8%Q);
     ((101, 3600), None, Some 9%Q); ((102, 3600), Some 2, Some 9%Q);
     ((101, 7200), Some 6, Some 11%Q); ((102, 7200), Some 3, Some 11%Q)].
Proof. vm_compute. reflexivity. Qed.

(** The grid timestamps are those of the count rows: when the only sensor
    has no count for an hour, the grid has no row for that hour, whatever the
    weather feed holds. *)
Example single_sensor_grid :
  (fun r => (Row.key r, Row.bike_count r)) <$>
    match dataset_rows feed_weather feed_dict (bike_lookup (with_edge single_s2e single_counts))
            (timestamps (with_edge single_s2e single_counts))
            (edges_with_sensors single_s2e) with
    | Ok rows => rows
    | Raise _ => []
    end
  = [((101, 0), Some 4); ((101, 7200), Some 6)].
Proof. vm_compute. reflexivity. Qed.

(** C4: the count lookup holds, at every (edge id, timestamp) key, the sum
    of the counts of the count rows at that key (and nothing when there is
    none); when two sensors that the matcher put on the same edge E count 3
    and 5 at the same timestamp, the lookup holds 8 at (E, timestamp), the
    grid that the script builds from these counts has a row with that key,
    and every row with that key has the target 8. *)
Theorem bike_lookup_sums (df : list Bike.t) (key : Z * Z) :
  bike_lookup df !! key = summed_count df key
  /\ forall (distance : Edge.t -> Q * Q -> Q) (arctan2_degrees : Q -> Q -> Q)
        (lower_nonascii : N -> pystr) (edges : list Edge.t) (sensors : list Sensor.t)
        (weather_data weather_df : list Weather.t) (statics : list Static.t)
        (s2e : gmap string Assoc.t) c1 c2 a1 a2 E ts,
       sensor_to_edge distance edges sensors = Ok s2e ->
       load_weather weather_data = Ok weather_df ->
       edges_gdf arctan2_degrees lower_nonascii (edges_with_sensors s2e) edges = Ok statics ->
       s2e !! c1 = Some a1 -> s2e !! c2 = Some a2 ->
       Assoc.edge_id a1 = E -> Assoc.edge_id a2 = E ->
       exists df2 rows,
         bike_df s2e [Count.mk c1 ts 3; Count.mk c2 ts 5] = Ok df2
         /\ bike_lookup df2 !! (E, ts) = Some 8
         /\ dataset_rows weather_df (edges_dict statics) (bike_lookup df2) (timestamps df2)
              (edges_with_sensors s2e) = Ok rows
         /\ (exists r, r ∈ rows /\ Row.key r = (E, ts) /\ Row.bike_count r = Some 8)
         /\ forall r, r ∈ rows -> Row.key r = (E, ts) -> Row.bike_count r = Some 8.
Proof.
  split; [apply bike_lookup_summed|].
  intros distance arctan2_degrees lower_nonascii edges sensors weather_data weather_df statics
    s2e c1 c2 a1 a2 E ts Hs2e [_ Hweather]%load_weather_Ok Hstatics H1 H2 HE1 HE2.
  set (records := [Count.mk c1 ts 3; Count.mk c2 ts 5]).
  assert (with_edge s2e records = [Bike.mk E ts 3; Bike.mk E ts 5]) as Hdf.
  { unfold with_edge, records. simpl. rewrite H1, H2. simpl. by rewrite HE1, HE2. }
  assert (bike_lookup (with_edge s2e records) !! (E, ts) = Some 8) as Hsum.
  { rewrite bike_lookup_summed, Hdf. unfold summed_count, counts_at.
    rewrite !filter_cons, !decide_True by done. done. }
  destruct (dataset_rows_cross weather_df (edges_dict statics)
              (bike_lookup (with_edge s2e records)) s2e (with_edge s2e records) Hweather)
    as (rows & Hrows & _ & _ & _ & Hcount).
  { intros e He. by eapply edges_with_sensors_have_rows. }
  exists (with_edge s2e records), rows. split_and!; [done | done | done | |].
  - destruct (grid_has_row _ _ _ _ _ _ (Bike.mk E ts 3) Hrows) as (r & Hr & Hkey & Hc).
    { rewrite Hdf. by left. }
    exists r. split_and!; [done | done |]. by rewrite Hc.
  - intros r Hr Hkey. by rewrite (Hcount r Hr), Hkey.
Qed.

Lemma shared_matched : sensor_to_edge x_distance streets shared_sensors = Ok shared_s2e.
Proof. vm_compute. reflexivity. Qed.

Lemma shared_static_rows :
  edges_gdf (fun _ _ => 90%Q) (fun c => [c]) (edges_with_sensors shared_s2e) streets
  = Ok shared_statics.
Proof. vm_compute. reflexivity. Qed.

(** Two sensors, 30 m and 8 m from the first street, that count 3 and 5
    during the same hour. *)
Lemma bike_lookup_sums_witness :
  exists df2 rows,
    bike_df shared_s2e shared_counts = Ok df2
    /\ bike_lookup df2 !! (101, 3600) = Some 8
    /\ dataset_rows feed_weather (edges_dict shared_statics) (bike_lookup df2) (timestamps df2)
         (edges_with_sensors shared_s2e) = Ok rows
    /\ (exists r, r ∈ rows /\ Row.key r = (101, 3600) /\ Row.bike_count r = Some 8)
    /\ forall r, r ∈ rows -> Row.key r = (101, 3600) -> Row.bike_count r = Some 8.
Proof.
  apply (proj2 (bike_lookup_sums [] (0, 0)) x_distance (fun _ _ => 90%Q) (fun c => [c])
           streets shared_sensors feed_weather feed_weather shared_statics shared_s2e
           "c1" "c3" (Assoc.mk 101 30 "c1") (Assoc.mk 101 8 "c3") 101 3600);
    [apply shared_matched | reflexivity | apply shared_static_rows | reflexivity..].
Defined.

Example shared_edge_in_grid :
  (fun r => (Row.key r, Row.bike_count r)) <$>
    match dataset_rows feed_weather feed_dict
            (bike_lookup (with_edge shared_s2e [Count.mk "c1" 3600 3; Count.mk "c3" 3600 5]))
            (timestamps (with_edge shared_s2e [Count.mk "c1" 3600 3; Count.mk "c3" 3600 5]))
            (edges_with_sensors shared_s2e) with
    | Ok rows => rows
    | Raise _ => []
    end
  = [((101, 3600), Some 8)].
Proof. vm_compute. reflexivity. Qed.

(** C5: once steps 3 to 7 have run, the grid is built without an error;
    every one of its rows has the target None when no count row has its
    (edge id, timestamp) key, and the sum of the counts of the count rows at
    its key otherwise; and every key that has a count row has its row in
    the grid, whose target is the sum of the counts at that key. *)
Theorem bike_count_null_or_sum (distance : Edge.t -> Q * Q -> Q)
    (arctan2_degrees : Q -> Q -> Q) (lower_nonascii : N -> pystr)
    (edges : list Edge.t) (sensors : list Sensor.t) (records : list Count.t)
    (weather_data : list Weather.t)
    (s2e : gmap string Assoc.t) (df : list Bike.t) (weather_df : list Weather.t)
    (statics : list Static.t) :
  sensor_to_edge distance edges sensors = Ok s2e ->
  bike_df s2e records = Ok df ->
  load_weather weather_data = Ok weather_df ->
  edges_gdf arctan2_degrees lower_nonascii (edges_with_sensors s2e) edges = Ok statics ->
  exists rows,
    dataset_rows weather_df (edges_dict statics) (bike_lookup df) (timestamps df)
      (edges_with_sensors s2e) = Ok rows
    /\ (forall r, r ∈ rows ->
          (counts_at df (Row.key r) = [] -> Row.bike_count r = None)
          /\ (counts_at df (Row.key r) <> [] ->
              Row.bike_count r = Some (sumZ (counts_at df (Row.key r)))))
    /\ (forall key, counts_at df key <> [] ->
          exists r, r ∈ rows /\ Row.key r = key
            /\ Row.bike_count r = Some (sumZ (counts_at df key))).
Proof.
  intros Hs2e [-> _]%bike_df_Ok [_ Hweather]%load_weather_Ok Hstatics.
  set (df := with_edge s2e records).
  destruct (dataset_rows_cross weather_df (edges_dict statics) (bike_lookup df) s2e df Hweather)
    as (rows & Hrows & _ & _ & _ & Hcount).
  { intros e He. by eapply edges_with_sensors_have_rows. }
  exists rows. split_and!; [done | |].
  - intros r Hr. rewrite (Hcount r Hr), bike_lookup_summed. unfold summed_count.
    by destruct (counts_at _ _).
  - intros key Hkey.
    destruct (counts_at_nonempty df key Hkey) as (row & Hrow & <-).
    destruct (grid_has_row _ _ _ _ _ _ row Hrows Hrow) as (r & Hr & Hk & Hc).
    exists r. split_and!; [done | done |].
    rewrite Hc, bike_lookup_summed. unfold summed_count.
    by destruct (counts_at _ _).
Qed.

Lemma bike_count_null_or_sum_witness :
  exists rows,
    dataset_rows feed_weather feed_dict (bike_lookup feed_df) (timestamps feed_df)
      (edges_with_sensors feed_s2e) = Ok rows
    /\ (forall r, r ∈ rows ->
          (counts_at feed_df (Row.key r) = [] -> Row.bike_count r = None)
          /\ (counts_at feed_df (Row.key r) <> [] ->
              Row.bike_count r = Some (sumZ (counts_at feed_df (Row.key r)))))
    /\ (forall key, counts_at feed_df key <> [] ->
          exists r, r ∈ rows /\ Row.key r = key
            /\ Row.bike_count r = Some (sumZ (counts_at feed_df key))).
Proof.
  apply (bike_count_null_or_sum x_distance (fun _ _ => 90%Q) (fun c => [c])
           streets feed_sensors feed_counts feed_weather);
    [apply feed_matched | reflexivity | reflexivity | apply feed_static_rows].
Defined.

(** ** The weather lookup *)

Lemma sorted_lookup_le (a : list Z) i j x y :
  Sorted Z.le a -> (i <= j)%nat -> a !! i = Some x -> a !! j = Some y -> x <= y.
Proof.
  intros Hs%Sorted_StronglySorted; [|intros ?; lia].
  revert i j. induction Hs as [|z a _ IH Hz]; intros i j Hij Hi Hj; [done|].
  destruct i as [|i], j as [|j]; simpl in *; simplify_eq; try lia.
  - rewrite List.Forall_forall in Hz. apply Hz.
    apply list_elem_of_In. by eapply list_elem_of_lookup_2.
  - apply (IH i j); [lia | done | done].
Qed.

Lemma bisect_left_spec fuel a key lo hi :
  Sorted Z.le a -> (lo <= hi)%nat -> (hi <= length a)%nat -> (hi - lo <= fuel)%nat ->
  (forall i x, (i < lo)%nat -> a !! i = Some x -> x < key) ->
  (forall i x, (hi <= i)%nat -> a !! i = Some x -> key <= x) ->
  (forall i x, (i < bisect_left fuel a key lo hi)%nat -> a !! i = Some x -> x < key)
  /\ (forall i x, (bisect_left fuel a key lo hi <= i)%nat -> a !! i = Some x -> key <= x).
Proof.
  intros Hs. revert lo hi.
  induction fuel as [|fuel IH]; intros lo hi Hle Hhi Hfuel Hbelow Habove; cbn [bisect_left].
  { split; [done|]. intros i x Hi. apply Habove. lia. }
  destruct (Nat.ltb_spec lo hi) as [Hlt|Hge].
  2:{ split; [done|]. intros i x Hi. apply Habove. lia. }
  assert (lo + (hi - lo) / 2 < hi)%nat as Hmid
    by (pose proof (Nat.div_lt (hi - lo) 2); lia).
  assert ((hi - lo) / 2 <= fuel)%nat as Hhalf
    by (pose proof (Nat.div_lt (hi - lo) 2); lia).
  destruct (a !! (lo + (hi - lo) / 2)%nat) as [m|] eqn:Hm.
  2:{ apply lookup_ge_None in Hm. lia. }
  change (default 0 (Some m)) with m. destruct (Z.ltb_spec m key) as [Hmk|Hmk].
  - apply IH; [lia | lia | lia | | done].
    intros i x Hi Hx.
    assert (x <= m); [|lia].
    apply (sorted_lookup_le a i (lo + (hi - lo) / 2) x m Hs); [lia | done | done].
  - apply IH; [lia | lia | lia | done |].
    intros i x Hi Hx.
    assert (m <= x); [|lia].
    apply (sorted_lookup_le a (lo + (hi - lo) / 2) i m x Hs); [lia | done | done].
Qed.

Lemma searchsorted_spec a key :
  Sorted Z.le a ->
  (forall i x, (i < searchsorted a key)%nat -> a !! i = Some x -> x < key)
  /\ (forall i x, (searchsorted a key <= i)%nat -> a !! i = Some x -> key <= x).
Proof.
  intros Hs. unfold searchsorted. apply bisect_left_spec; try done; try lia.
  intros i x Hi Hx. apply lookup_lt_Some in Hx. lia.
Qed.

(** C2, as amended: over a weather series sorted by timestamp, the lookup
    selects the first record with exactly the grid timestamp when there is
    one; when there is none but some record is earlier than the timestamp,
    it selects a record that is earlier than the timestamp and no older than
    any other earlier record, that is the nearest prior one and never a
    later one. *)
Theorem weather_row_exact_or_nearest_prior (weather_df : list Weather.t) (ts : Z) :
  Sorted Z.le (Weather.timestamp <$> weather_df) ->
  ((exists w, w ∈ weather_df /\ Weather.timestamp w = ts) ->
   exists w, weather_row weather_df ts = Ok w
     /\ Weather.timestamp w = ts
     /\ head (filter (fun w => Weather.timestamp w = ts) weather_df) = Some w)
  /\ ((forall w, w ∈ weather_df -> Weather.timestamp w <> ts) ->
      (exists w, w ∈ weather_df /\ Weather.timestamp w < ts) ->
      exists w, weather_row weather_df ts = Ok w
        /\ w ∈ weather_df
        /\ Weather.timestamp w < ts
        /\ forall w', w' ∈ weather_df -> Weather.timestamp w' < ts ->
             Weather.timestamp w' <= Weather.timestamp w).
Proof.
  intros Hs. split.
  - intros (w0 & Hin & Hts).
    rewrite weather_row_eq by (intros ->; by apply elem_of_nil in Hin).
    assert (w0 ∈ filter (fun w => Weather.timestamp w = ts) weather_df) as Hw0
      by by apply list_elem_of_filter.
    destruct (filter (fun w => Weather.timestamp w = ts) weather_df) as [|w exact] eqn:Hexact.
    { by apply elem_of_nil in Hw0. }
    exists w. split_and!; [done | | done].
    assert (w ∈ filter (fun w => Weather.timestamp w = ts) weather_df) as Hw
      by (rewrite Hexact; by left).
    by apply list_elem_of_filter in Hw as [? _].
  - intros Hnone (w0 & Hin0 & Hts0).
    rewrite weather_row_eq by (intros ->; by apply elem_of_nil in Hin0).
    assert (filter (fun w => Weather.timestamp w = ts) weather_df = []) as ->.
    { destruct (filter (fun w => Weather.timestamp w = ts) weather_df) as [|w exact] eqn:Hexact;
        [done|].
      assert (w ∈ filter (fun w => Weather.timestamp w = ts) weather_df) as Hw
        by (rewrite Hexact; by left).
      apply list_elem_of_filter in Hw as [Hts Hw]. by destruct (Hnone w Hw). }
    simpl.
    destruct (searchsorted_spec (Weather.timestamp <$> weather_df) ts Hs) as [Hbelow Habove].
    pose proof (searchsorted_le (Weather.timestamp <$> weather_df) ts) as Hle.
    rewrite length_fmap in Hle.
    assert (forall i w, weather_df !! i = Some w -> Weather.timestamp w < ts ->
              (i < searchsorted (Weather.timestamp <$> weather_df) ts)%nat) as Hprior.
    { intros i w Hi Hw.
      destruct (Nat.lt_ge_cases i (searchsorted (Weather.timestamp <$> weather_df) ts))
        as [|Hge]; [done|].
      assert (ts <= Weather.timestamp w); [|lia].
      apply (Habove i); [done|]. by rewrite list_lookup_fmap, Hi. }
    apply list_elem_of_lookup_1 in Hin0 as [i0 Hi0].
    pose proof (Hprior i0 w0 Hi0 Hts0) as Hpos.
    destruct (iloc_Ok weather_df
                (Z.of_nat (searchsorted (Weather.timestamp <$> weather_df) ts) - 1))
      as (w & -> & Hw); [lia|].
    replace (Z.of_nat (searchsorted (Weather.timestamp <$> weather_df) ts) - 1 <? 0)
      with false in Hw by (symmetry; apply Z.ltb_ge; lia).
    exists w. split_and!; [done | by eapply list_elem_of_lookup_2 | |].
    + apply (Hbelow (Z.to_nat
                       (Z.of_nat (searchsorted (Weather.timestamp <$> weather_df) ts) - 1)));
        [lia|]. by rewrite list_lookup_fmap, Hw.
    + intros w' [i' Hi']%list_elem_of_lookup_1 Hts'.
      pose proof (Hprior i' w' Hi' Hts').
      apply (sorted_lookup_le (Weather.timestamp <$> weather_df) i'
               (Z.to_nat (Z.of_nat (searchsorted (Weather.timestamp <$> weather_df) ts) - 1)));
        [done | lia | by rewrite list_lookup_fmap, Hi' | by rewrite list_lookup_fmap, Hw].
Qed.

Lemma feed_weather_sorted : Sorted Z.le (Weather.timestamp <$> feed_weather).
Proof. repeat constructor; simpl; lia. Qed.

(** An exact match at 3600, and the nearest prior record for 5000. *)
Lemma weather_row_exact_or_nearest_prior_witness :
  (exists w, weather_row feed_weather 3600 = Ok w
     /\ Weather.timestamp w = 3600
     /\ head (filter (fun w => Weather.timestamp w = 3600) feed_weather) = Some w)
  /\ (exists w, weather_row feed_weather 5000 = Ok w
        /\ w ∈ feed_weather
        /\ Weather.timestamp w < 5000
        /\ forall w', w' ∈ feed_weather -> Weather.timestamp w' < 5000 ->
             Weather.timestamp w' <= Weather.timestamp w).
Proof.
  split.
  - apply (weather_row_exact_or_nearest_prior feed_weather 3600 feed_weather_sorted).
    exists (Weather.mk 3600 (Some 9%Q) (Some 0%Q) (Some 25%Q) false).
    split; [|reflexivity]. right. left.
  - apply (weather_row_exact_or_nearest_prior feed_weather 5000 feed_weather_sorted).
    + intros w Hw. apply list_elem_of_In in Hw. simpl in Hw.
      destruct Hw as [<-|[<-|[<-|[]]]]; simpl; lia.
    + exists (Weather.mk 0 (Some 8%Q) (Some 0%Q) (Some 5%Q) false).
      split; [left | simpl; lia].
Defined.

(** C2, the claim as stated fails: with weather records at 3600 and 7200
    only, no record is at or before the grid timestamp 0, yet the lookup does
    not fail; it returns the record of 7200, and the grid rows of timestamp 0
    carry the temperature of that later record, not a null. *)
Lemma weather_row_selects_future_record :
  (forall w, w ∈ late_weather -> 0 < Weather.timestamp w)
  /\ ~ (forall w, weather_row late_weather 0 = Ok w -> Weather.timestamp w <= 0)
  /\ weather_row late_weather 0
     = Ok (Weather.mk 7200 (Some 11%Q) (Some (1 # 2)%Q) (Some 30%Q) true)
  /\ (fun r => (Row.key r, Row.temperature_c r)) <$>
       match dataset_rows late_weather feed_dict ∅ [0] [101] with
       | Ok rows => rows
       | Raise _ => []
       end
     = [((101, 0), Some 11%Q)].
Proof.
  split_and!.
  - intros w Hw. apply list_elem_of_In in Hw. simpl in Hw.
    destruct Hw as [<-|[<-|[]]]; simpl; lia.
  - intros H. specialize (H _ eq_refl). simpl in H. lia.
  - reflexivity.
  - vm_compute. reflexivity.
Qed.

(** ** Lag features *)

Lemma group_nil_r {V} keys k : group (V := V) keys [] k = [].
Proof. by destruct keys. Qed.

Lemma group_cons {V} k ks (v : V) vs e :
  group (k :: ks) (v :: vs) e = (if bool_decide (k = e) then [v] else []) ++ group ks vs e.
Proof. reflexivity. Qed.

Lemma length_group {V} keys (vals : list V) e :
  length keys = length vals ->
  length (group keys vals e) = length (filter (fun k => k = e) keys).
Proof.
  revert vals. induction keys as [|k keys IH]; intros [|v vals] Hlen; simplify_eq/=; [done|].
  rewrite group_cons, length_app, filter_cons, (IH vals) by done.
  case_bool_decide; case_decide; try done; simpl; lia.
Qed.

Lemma group_imap_offset {B} (G : Z -> list (option B)) (c : Z -> nat) suf e :
  group suf
    (imap (fun i k => mjoin (G k !! (c k + length (filter (fun k' => k' = k) (take i suf)))%nat)) suf)
    e
  = (fun j => mjoin (G e !! j)) <$> seq (c e) (length (filter (fun k => k = e) suf)).
Proof.
  revert c. induction suf as [|k suf IH]; intros c; [done|].
  rewrite imap_cons, group_cons, filter_cons.
  rewrite (imap_ext _
             (fun i k' => mjoin (G k' !! ((fun k'' => c k'' + (if decide (k = k'') then 1 else 0))%nat k'
                                   + length (filter (fun k'' => k'' = k') (take i suf)))%nat))).
  2:{ intros i k' _. simpl. rewrite filter_cons. f_equal. f_equal.
      case_decide; simpl; lia. }
  rewrite (IH (fun k'' => c k'' + (if decide (k = k'') then 1 else 0))%nat).
  destruct (decide (k = e)) as [->|Hne].
  - rewrite bool_decide_eq_true_2 by done. simpl. rewrite Nat.add_0_r.
    by replace (c e + 1)%nat with (S (c e)) by lia.
  - rewrite bool_decide_eq_false_2 by done. simpl. by rewrite Nat.add_0_r.
Qed.

Lemma fmap_seq_lookup {B} (l : list (option B)) :
  (fun j => mjoin (l !! j)) <$> seq 0 (length l) = l.
Proof.
  apply list_eq. intros i. rewrite list_lookup_fmap.
  destruct (l !! i) as [x|] eqn:Hi.
  - rewrite lookup_seq_lt by (by eapply lookup_lt_Some). simpl. by rewrite Hi.
  - rewrite lookup_seq_ge; [done|]. by apply lookup_ge_None.
Qed.

Lemma groupby_transform_group {V B} (f : list V -> list (option B)) keys vals e :
  length keys = length vals ->
  length (f (group keys vals e)) = length (group keys vals e) ->
  group keys (groupby_transform f keys vals) e = f (group keys vals e).
Proof.
  intros Hlen Hf. unfold groupby_transform, rank.
  rewrite (group_imap_offset (fun k => f (group keys vals k)) (fun _ => 0%nat)).
  by rewrite <- (length_group keys vals e Hlen), <- Hf, fmap_seq_lookup.
Qed.

Lemma length_shift {A} k (x : list (option A)) : length (shift k x) = length x.
Proof. unfold shift. rewrite length_take, length_app, length_replicate. lia. Qed.

Lemma shift_lookup {A} k (x : list (option A)) i :
  (i < length x)%nat ->
  shift k x !! i = Some (if (i <? k)%nat then None else mjoin (x !! (i - k)%nat)).
Proof.
  intros Hi. unfold shift. rewrite lookup_take_lt by done.
  destruct (Nat.ltb_spec i k).
  - rewrite lookup_app_l by (rewrite length_replicate; lia).
    by rewrite lookup_replicate_2.
  - rewrite lookup_app_r by (rewrite length_replicate; lia).
    rewrite length_replicate.
    destruct (x !! (i - k)%nat) eqn:Hx; [done|]. apply lookup_ge_None in Hx. lia.
Qed.

Lemma length_rolling_mean w m x : length (rolling_mean w m x) = length x.
Proof. apply length_imap. Qed.

Lemma rolling_mean_lookup w m x i :
  (i < length x)%nat -> rolling_mean w m x !! i = Some (rolling_mean_at w m x i).
Proof.
  intros Hi. unfold rolling_mean. rewrite list_lookup_imap.
  destruct (x !! i) eqn:Hx; [done|]. apply lookup_ge_None in Hx. lia.
Qed.

Lemma fmap_filter_group {A V} (key : A -> Z) (g : A -> V) (l : list A) e :
  g <$> filter (fun a => key a = e) l = group (key <$> l) (g <$> l) e.
Proof.
  induction l as [|a l IH]; [done|].
  rewrite filter_cons, !fmap_cons, group_cons, <- IH.
  destruct (decide (key a = e)).
  - by rewrite bool_decide_eq_true_2.
  - by rewrite bool_decide_eq_false_2.
Qed.

Lemma mjoin_lookup_column {B} (col : list (option B)) (df : list Row.t) :
  length col = length df ->
  imap (fun i (_ : Row.t) => mjoin (col !! i)) df = col.
Proof.
  intros Hlen. apply list_eq. intros i. rewrite list_lookup_imap.
  destruct (df !! i) eqn:Hdf; simpl.
  - destruct (col !! i) eqn:Hcol; [done|].
    apply lookup_ge_None in Hcol. apply lookup_lt_Some in Hdf. lia.
  - symmetry. apply lookup_ge_None. apply lookup_ge_None in Hdf. lia.
Qed.

Lemma length_groupby_transform {V B} (f : list V -> list (option B)) keys vals :
  length (groupby_transform f keys vals) = length keys.
Proof. apply length_imap. Qed.

#[local] Instance row_le_trans : Transitive row_le.
Proof. intros a b c. unfold row_le. lia. Qed.

#[local] Instance row_le_total : Total row_le.
Proof. intros a b. unfold row_le. lia. Qed.

Lemma sorted_per_edge l e :
  Sorted row_le l -> Sorted Z.le (Row.timestamp <$> filter (fun r => Row.edge_id r = e) l).
Proof.
  intros Hs%Sorted_StronglySorted; [|apply _].
  apply StronglySorted_Sorted.
  induction Hs as [|a l _ IH Ha]; [constructor|].
  rewrite filter_cons. case_decide as Hae; [|done].
  rewrite fmap_cons. constructor; [done|].
  rewrite List.Forall_forall in Ha. apply List.Forall_forall.
  intros ts (b & -> & Hb)%list_elem_of_In%list_elem_of_fmap.
  apply list_elem_of_filter in Hb as [Hbe Hb].
  destruct (Ha b) as [Hlt|[_ Hle]]; [by apply list_elem_of_In | lia | done].
Qed.

Lemma lag_columns_row df : Final.row <$> lag_columns df = sort_values df.
Proof.
  unfold lag_columns. rewrite fmap_imap. apply list_eq. intros i.
  rewrite list_lookup_imap. by destruct (sort_values df !! i).
Qed.

Lemma lag_columns_lag_1h df :
  Final.bike_count_lag_1h <$> lag_columns df
  = groupby_transform (shift 1) (Row.edge_id <$> sort_values df)
      (Row.bike_count <$> sort_values df).
Proof.
  unfold lag_columns. rewrite fmap_imap. apply mjoin_lookup_column.
  by rewrite length_groupby_transform, length_fmap.
Qed.

Lemma lag_columns_lag_24h df :
  Final.bike_count_lag_24h <$> lag_columns df
  = groupby_transform (shift 24) (Row.edge_id <$> sort_values df)
      (Row.bike_count <$> sort_values df).
Proof.
  unfold lag_columns. rewrite fmap_imap. apply mjoin_lookup_column.
  by rewrite length_groupby_transform, length_fmap.
Qed.

Lemma lag_columns_rolling_7d df :
  Final.bike_count_rolling_7d <$> lag_columns df
  = groupby_transform (rolling_mean 168 1) (Row.edge_id <$> sort_values df)
      (Row.bike_count <$> sort_values df).
Proof.
  unfold lag_columns. rewrite fmap_imap. apply mjoin_lookup_column.
  by rewrite length_groupby_transform, length_fmap.
Qed.

Lemma per_edge_column {B} (g : Final.t -> option B) (f : list (option Z) -> list (option B)) df e :
  (forall x, length (f x) = length x) ->
  g <$> lag_columns df
  = groupby_transform f (Row.edge_id <$> sort_values df) (Row.bike_count <$> sort_values df) ->
  g <$> filter (fun r => Row.edge_id (Final.row r) = e) (lag_columns df)
  = f (Row.bike_count <$> filter (fun r => Row.edge_id r = e) (sort_values df)).
Proof.
  intros Hf Hcol.
  rewrite (fmap_filter_group (fun r => Row.edge_id (Final.row r)) g).
  rewrite (fmap_filter_group Row.edge_id Row.bike_count).
  rewrite Hcol, (list_fmap_compose Final.row Row.edge_id), lag_columns_row.
  apply groupby_transform_group; [by rewrite !length_fmap | apply Hf].
Qed.

(** C6: on a grid of at least one row, step 9 ends without an error; after
    the sort by (edge id, timestamp) the rows of one edge come in ascending
    timestamp order, and their three derived columns are computed from the
    target values of that edge alone: lag-1h is that sequence shifted by one
    row, lag-24h the same shifted by twenty-four rows, and rolling-7d the
    mean of the values present among the last 168 rows of the sequence, as
    soon as one is present. On [10, 20, 30] the first gives [null, 10, 20]
    and the last [10, 15, 20]. *)
Theorem lag_features_per_edge (df : list Row.t) (e : Z) :
  df <> [] ->
  exists final_df,
  lag_features df = Ok final_df /\
  let x := Row.bike_count <$> filter (fun r => Row.edge_id r = e) (sort_values df) in
  let mine := filter (fun f => Row.edge_id (Final.row f) = e) final_df in
  Final.row <$> mine = filter (fun r => Row.edge_id r = e) (sort_values df)
  /\ Sorted Z.le (Row.timestamp <$> (Final.row <$> mine))
  /\ Final.bike_count_lag_1h <$> mine = shift 1 x
  /\ Final.bike_count_lag_24h <$> mine = shift 24 x
  /\ Final.bike_count_rolling_7d <$> mine = rolling_mean 168 1 x
  /\ (forall i f, mine !! i = Some f ->
        Final.bike_count_lag_1h f = (if (i <? 1)%nat then None else mjoin (x !! (i - 1)%nat))
        /\ Final.bike_count_lag_24h f
           = (if (i <? 24)%nat then None else mjoin (x !! (i - 24)%nat))
        /\ Final.bike_count_rolling_7d f = rolling_mean_at 168 1 x i)
  /\ shift 1 [Some 10; Some 20; Some 30] = [None; Some 10; Some 20]
  /\ rolling_mean 168 1 [Some 10; Some 20; Some 30] = [Some 10%Q; Some 15%Q; Some 20%Q].
Proof.
  intros Hdf. exists (lag_columns df). split; [by destruct df|].
  intros x mine.
  assert (Final.row <$> mine = filter (fun r => Row.edge_id r = e) (sort_values df)) as Hrow.
  { unfold mine. rewrite <- lag_columns_row.
    generalize (lag_columns df). intros l. induction l as [|a l IH]; [done|].
    rewrite fmap_cons, !filter_cons. case_decide; [|done]. rewrite fmap_cons. by f_equal. }
  assert (Final.bike_count_lag_1h <$> mine = shift 1 x) as H1
    by apply (per_edge_column _ _ _ _ (length_shift 1) (lag_columns_lag_1h df)).
  assert (Final.bike_count_lag_24h <$> mine = shift 24 x) as H24
    by apply (per_edge_column _ _ _ _ (length_shift 24) (lag_columns_lag_24h df)).
  assert (Final.bike_count_rolling_7d <$> mine = rolling_mean 168 1 x) as H7
    by apply (per_edge_column _ _ _ _ (length_rolling_mean 168 1) (lag_columns_rolling_7d df)).
  split_and!; try done.
  - rewrite Hrow. apply sorted_per_edge. apply Sorted_merge_sort. apply _.
  - intros i f Hi.
    assert (i < length x)%nat as Hlen.
    { unfold x. rewrite length_fmap, <- Hrow, length_fmap. by eapply lookup_lt_Some. }
    split_and!.
    + apply (f_equal (fun l => l !! i)) in H1.
      rewrite list_lookup_fmap, Hi, shift_lookup in H1 by done. by injection H1.
    + apply (f_equal (fun l => l !! i)) in H24.
      rewrite list_lookup_fmap, Hi, shift_lookup in H24 by done. by injection H24.
    + apply (f_equal (fun l => l !! i)) in H7.
      rewrite list_lookup_fmap, Hi, rolling_mean_lookup in H7 by done. by injection H7.
Qed.

(** The second row of street 102 in the small feed. *)
Lemma lag_features_per_edge_witness :
  exists final_df f,
    lag_features feed_rows = Ok final_df
    /\ filter (fun f => Row.edge_id (Final.row f) = 102) final_df !! 1%nat = Some f
    /\ Final.bike_count_lag_1h f = Some 1
    /\ Final.bike_count_lag_24h f = None
    /\ Final.bike_count_rolling_7d f = Some (3 # 2)%Q.
Proof.
  destruct (lag_features_per_edge feed_rows 102) as (final_df & Hrun & H); [discriminate|].
  cbv zeta in H. destruct H as (_ & _ & _ & _ & _ & Hpos & _).
  assert (final_df = lag_columns feed_rows) as -> by (by injection Hrun).
  assert (exists f, filter (fun f => Row.edge_id (Final.row f) = 102)
                      (lag_columns feed_rows) !! 1%nat = Some f) as [f Hf]
    by (vm_compute; eexists; reflexivity).
  exists (lag_columns feed_rows), f. split; [reflexivity|]. split; [exact Hf|].
  destruct (Hpos 1%nat f Hf) as (-> & -> & ->). vm_compute. auto.
Defined.

Example feed_lags :
  (fun f => (Row.key (Final.row f), Final.bike_count_lag_1h f, Final.bike_count_rolling_7d f))
    <$> lag_columns feed_rows
  = [((101, 0), None, Some 4%Q); ((101, 3600), Some 4, Some 4%Q);
     ((101, 7200), None, Some 5%Q);
     ((102, 0), None, Some 1%Q); ((102, 3600), Some 1, Some (3 # 2)%Q);
     ((102, 7200), Some 2, Some 2%Q)].
Proof. vm_compute. reflexivity. Qed.

(** * Further properties of the code *)

(** ** Road class, speed limit and lane count *)

Ltac lit_cases :=
  repeat match goal with
  | H : _ ∈ lit <$> _ |- _ => cbn [fmap list_fmap] in H
  | H : ?x ∈ _ :: _ |- _ =>
      apply elem_of_cons in H as [H|H];
      [first [subst x | by vm_compute in H] |]
  | H : _ ∈ [] |- _ => by apply elem_of_nil in H
  end.

Ltac road_cases :=
  unfold categorize_road, member;
  repeat case_bool_decide; split; intros ?; try done; lit_cases;
  try done; exfalso;
  match goal with H : ¬ _ |- _ => apply H; cbn [fmap list_fmap]; set_solver end.

(** X1: the road category is one of major, arterial, local, bike_path and
    other, and it is each of the first four exactly for the two road
    classes that the code lists for it; an edge without road-class tag
    becomes class unknown and so category other; the comparison is
    case-sensitive (Motorway gives other). *)
Theorem road_category_taxonomy (highway : option pystr) :
  let highway_type := fillna "unknown" highway in
  categorize_road highway_type ∈ ["major"; "arterial"; "local"; "bike_path"; "other"]
  /\ (categorize_road highway_type = "major"
      <-> highway_type ∈ lit <$> ["motorway"; "trunk"])
  /\ (categorize_road highway_type = "arterial"
      <-> highway_type ∈ lit <$> ["primary"; "secondary"])
  /\ (categorize_road highway_type = "local"
      <-> highway_type ∈ lit <$> ["tertiary"; "residential"])
  /\ (categorize_road highway_type = "bike_path"
      <-> highway_type ∈ lit <$> ["cycleway"; "path"])
  /\ (highway = None -> categorize_road highway_type = "other")
  /\ categorize_road (lit "Motorway") = "other".
Proof.
  intros h. split_and!; [| | | | |intros ->; by vm_compute|by vm_compute].
  - unfold categorize_road. repeat case_match; set_solver.
  - subst h. generalize (fillna "unknown" highway). intros h. road_cases.
  - subst h. generalize (fillna "unknown" highway). intros h. road_cases.
  - subst h. generalize (fillna "unknown" highway). intros h. road_cases.
  - subst h. generalize (fillna "unknown" highway). intros h. road_cases.
Qed.

Lemma road_category_taxonomy_witness :
  categorize_road (fillna "unknown" None) = "other"
  /\ categorize_road (fillna "unknown" (Some (lit "trunk"))) = "major".
Proof.
  split.
  - exact (proj1 (proj2 (proj2 (proj2 (proj2 (proj2 (road_category_taxonomy None))))))
             eq_refl).
  - apply (proj2 (proj1 (proj2 (road_category_taxonomy (Some (lit "trunk")))))).
    vm_compute. set_solver.
Defined.

Lemma is_digit_char_ascii c : (48 <= c <= 57)%N -> is_digit_char c = true.
Proof. intros Hc. unfold is_digit_char. by rewrite decimal_value_ascii. Qed.

Lemma int_digits_numeral acc s :
  Forall (fun c => (48 <= c <= 57)%N) s ->
  int_digits acc s = Ok (foldl (fun acc c => 10 * acc + (Z.of_N c - 48)) acc s).
Proof.
  intros Hs. revert acc. induction Hs as [|c s Hc _ IH]; intros acc; [done|].
  cbn [int_digits foldl]. rewrite decimal_value_ascii by done. rewrite IH.
  do 2 f_equal. lia.
Qed.

Lemma int_digits_nonneg acc s v : int_digits acc s = Ok v -> 0 <= acc -> 0 <= v.
Proof.
  revert acc. induction s as [|c s IH]; intros acc; cbn [int_digits].
  - intros [= <-]. done.
  - destruct (decimal_value c) as [d|]; [|done]. intros Hv Hacc.
    apply (IH _ Hv). lia.
Qed.

Lemma isdigit_false_elem s c : c ∈ s -> is_digit_char c = false -> isdigit s = false.
Proof.
  intros Hc Hd. destruct s as [|c0 s]; [done|]. unfold isdigit.
  apply not_true_is_false. intros Hall. rewrite forallb_forall in Hall.
  apply list_elem_of_In in Hc. rewrite (Hall c Hc) in Hd. done.
Qed.

(** X2: the conversion of the speed-limit and lane-count tags gives the
    number written by the tag when the tag is a non-empty string of at most
    4300 ASCII digits (leading zeros allowed) and raises ValueError on a
    longer string of ASCII digits; it gives the default when the tag is
    missing, empty or holds any character that is no digit (a sign, a
    blank, a unit), and never gives a negative number. *)
Theorem int_or_default_numeral (d : Z) (x : option pystr) :
  (forall s, x = Some s -> s <> [] -> (length s <= int_max_str_digits)%nat ->
     Forall (fun c => (48 <= c <= 57)%N) s ->
     int_or_default d x = Ok (numeral s))
  /\ (forall s, x = Some s -> (int_max_str_digits < length s)%nat ->
        Forall (fun c => (48 <= c <= 57)%N) s ->
        int_or_default d x = Raise ValueError)
  /\ (forall s c, x = Some s -> c ∈ s -> is_digit_char c = false ->
        int_or_default d x = Ok d)
  /\ (x = None \/ x = Some [] -> int_or_default d x = Ok d)
  /\ (forall v, 0 <= d -> int_or_default d x = Ok v -> 0 <= v).
Proof.
  assert (forall s, s <> [] -> Forall (fun c => (48 <= c <= 57)%N) s -> isdigit s = true)
    as Hdigits.
  { intros s Hne Hs. destruct s as [|c s]; [done|]. unfold isdigit. apply forallb_forall.
    intros c' Hc'. apply is_digit_char_ascii.
    rewrite Forall_forall in Hs. apply Hs. by apply list_elem_of_In. }
  split_and!.
  - intros s -> Hne Hlen Hs. unfold int_or_default.
    rewrite (Hdigits s Hne Hs), py_int_short by done. by apply int_digits_numeral.
  - intros s -> Hlen Hs. unfold int_or_default.
    rewrite Hdigits, py_int_long; [done | done | | done].
    intros ->. simpl in Hlen. lia.
  - intros s c -> Hc Hd. unfold int_or_default.
    by rewrite (isdigit_false_elem s c).
  - by intros [-> | ->].
  - intros v Hd. unfold int_or_default. destruct x as [s|]; [|by intros [= <-]].
    destruct (isdigit s); [|by intros [= <-]].
    unfold py_int. destruct s as [|c s]; [done|].
    destruct (_ <? _)%nat; [done|]. intros Hv.
    by apply (int_digits_nonneg 0 (c :: s)).
Qed.

(** The tags 030, 30 mph, -1, a missing tag, and a tag of 4301 nines. *)
Lemma int_or_default_numeral_witness :
  maxspeed_kmh (Some (lit "030")) = Ok 30
  /\ maxspeed_kmh (Some (replicate 4301 57%N)) = Raise ValueError
  /\ maxspeed_kmh (Some (lit "30 mph")) = Ok 50
  /\ lanes_count (Some (lit "-1")) = Ok 2
  /\ lanes_count None = Ok 2
  /\ 0 <= 30.
Proof.
  split_and!.
  - refine (proj1 (int_or_default_numeral 50 (Some (lit "030"))) (lit "030") eq_refl _ _ _);
      [done | vm_compute; lia |].
    change (lit "030") with [48; 51; 48]%N. repeat constructor; lia.
  - refine (proj1 (proj2 (int_or_default_numeral 50 (Some (replicate 4301 57%N))))
              (replicate 4301 57%N) eq_refl _ _).
    + rewrite length_replicate. vm_compute. lia.
    + apply Forall_replicate. lia.
  - refine (proj1 (proj2 (proj2 (int_or_default_numeral 50 (Some (lit "30 mph")))))
              (lit "30 mph") 32%N eq_refl _ eq_refl).
    vm_compute. set_solver.
  - refine (proj1 (proj2 (proj2 (int_or_default_numeral 2 (Some (lit "-1")))))
              (lit "-1") 45%N eq_refl _ eq_refl).
    vm_compute. set_solver.
  - refine (proj1 (proj2 (proj2 (proj2 (int_or_default_numeral 2 None)))) _). by left.
  - refine (proj2 (proj2 (proj2 (proj2 (int_or_default_numeral 50 (Some (lit "030"))))))
              30 _ eq_refl).
    lia.
Defined.

(** ** Orientation again *)

(** X3: the orientation of a geometry with at least two coordinates depends
    on its first and its last coordinate only; whatever lies between them
    is ignored. *)
Theorem calc_orientation_endpoints (arctan2_degrees : Q -> Q -> Q)
    (first final : Q * Q) (between : list (Q * Q)) :
  calc_orientation arctan2_degrees (first :: between ++ [final])
  = calc_orientation arctan2_degrees [first; final]
  /\ calc_orientation arctan2_degrees (first :: between ++ [final])
     = Some (octant (wrap_angle
               (arctan2_degrees (snd final - snd first)%Q (fst final - fst first)%Q))).
Proof.
  assert (calc_orientation arctan2_degrees (first :: between ++ [final])
          = Some (octant (wrap_angle
               (arctan2_degrees (snd final - snd first)%Q (fst final - fst first)%Q)))) as H.
  { unfold calc_orientation, bearing, delta.
    assert ((length (first :: between ++ [final]) <? 2)%nat = false) as ->.
    { apply Nat.ltb_ge. rewrite length_cons, length_app. simpl. lia. }
    rewrite app_comm_cons, last_snoc. reflexivity. }
  split; [|exact H]. rewrite H. reflexivity.
Qed.

(** X4: on angles from 0 to 360 degrees, the chain of comparisons gives
    opposite compass points to two angles that are 180 degrees apart,
    boundaries included. *)
Theorem octant_opposite (angle angle' : Q) :
  (0 <= angle)%Q -> (angle' <= 360)%Q -> (angle' - angle == 180)%Q ->
  octant angle' = opposite (octant angle)
  /\ octant angle = opposite (octant angle').
Proof.
  intros Ha Hb Hab. unfold octant.
  repeat (destruct (Qlt_le_dec _ _); try (exfalso; lra)); split; reflexivity.
Qed.

(** North (90 degrees) against south (270 degrees), and the boundary
    angles 22.5 and 202.5. *)
Lemma octant_opposite_witness :
  (octant 270 = opposite (octant 90) /\ octant 90 = opposite (octant 270))
  /\ (octant (405 # 2) = opposite (octant (45 # 2))
      /\ octant (45 # 2) = opposite (octant (405 # 2)))
  /\ octant (45 # 2) = "NE"
  /\ octant (405 # 2) = "SW".
Proof.
  split; [|split; [|split; reflexivity]].
  - apply (octant_opposite 90 270); [discriminate | discriminate | reflexivity].
  - apply (octant_opposite (45 # 2) (405 # 2)); [discriminate | discriminate | reflexivity].
Defined.

(** ** The matcher again *)

Lemma sensor_to_edge_sound_fold distance edges sensors m s2e cid a :
  for_fold (match_sensor distance edges) m sensors = Ok s2e ->
  s2e !! cid = Some a ->
  m !! cid = Some a
  \/ exists s i e, s ∈ sensors /\ Sensor.counter_id s = cid
       /\ nearest_edge distance edges (Sensor.geometry s) i e
       /\ Qle_bool (distance e (Sensor.geometry s)) MAX_DISTANCE = true
       /\ a = association distance s e.
Proof.
  revert m. induction sensors as [|s sensors IH]; intros m Hrun Hlook; simpl in Hrun.
  { injection Hrun as <-. by left. }
  apply rbind_Ok in Hrun as (m' & Hstep & Hrun).
  assert (edges <> []) as Hedges.
  { intros ->. by vm_compute in Hstep. }
  destruct (match_sensor_spec distance edges m s Hedges) as (i & e & Hnear & Hspec).
  rewrite Hspec in Hstep. injection Hstep as <-.
  destruct (IH _ Hrun Hlook) as [Hm'|(s' & i' & e' & Hs' & Hrest)].
  - destruct (Qle_bool _ _) eqn:Hd; [|by left].
    apply lookup_insert_Some in Hm' as [[<- <-]|[_ Hm]]; [|by left].
    right. exists s, i, e. split_and!; [by left|done..].
  - right. exists s', i', e'. split; [by right | done].
Qed.

(** X5: every association that the matcher stores comes from a sensor of the
    list with that identifier and from the edge nearest to it, which is at
    most 50 metres away; the stored [distance_m] is what numpy's rounding to
    one decimal makes of that distance: it is at most 50, and when the
    distance is not negative it is within 0.05 of it, up to the float
    rounding of the product by ten and of the quotient (less than 1e-14).
    This holds for any list of sensors and edges on which the matcher ends
    without an error. *)
Theorem sensor_to_edge_sound (distance : Edge.t -> Q * Q -> Q)
    (edges : list Edge.t) (sensors : list Sensor.t)
    (s2e : gmap string Assoc.t) (counter_id : string) (a : Assoc.t) :
  sensor_to_edge distance edges sensors = Ok s2e ->
  s2e !! counter_id = Some a ->
  exists s i e,
    s ∈ sensors /\ Sensor.counter_id s = counter_id
    /\ nearest_edge distance edges (Sensor.geometry s) i e
    /\ (distance e (Sensor.geometry s) <= 50)%Q
    /\ a = association distance s e
    /\ (Assoc.distance_m a <= 50)%Q
    /\ ((0 <= distance e (Sensor.geometry s))%Q ->
        (Qabs (Assoc.distance_m a - distance e (Sensor.geometry s))
         <= (1 # 20) + (1 # 140737488355328))%Q).
Proof.
  unfold sensor_to_edge. intros Hrun Hlook.
  destruct (sensor_to_edge_sound_fold _ _ _ _ _ _ _ Hrun Hlook)
    as [Hm|(s & i & e & Hs & Hid & Hnear & Hd & ->)].
  { by rewrite lookup_empty in Hm. }
  apply Qle_bool_iff in Hd. unfold MAX_DISTANCE in Hd.
  exists s, i, e. split_and!; try done.
  - by apply round1_le_50.
  - intros Hpos. by apply round1_close.
Qed.

(** The first sensor of the small feed, 30 m from the first street. *)
Lemma sensor_to_edge_sound_witness :
  exists s i e,
    s ∈ feed_sensors /\ Sensor.counter_id s = "c1"
    /\ nearest_edge x_distance streets (Sensor.geometry s) i e
    /\ (x_distance e (Sensor.geometry s) <= 50)%Q
    /\ Assoc.mk 101 30 "c1" = association x_distance s e
    /\ (Assoc.distance_m (Assoc.mk 101 30 "c1") <= 50)%Q
    /\ ((0 <= x_distance e (Sensor.geometry s))%Q ->
        (Qabs (Assoc.distance_m (Assoc.mk 101 30 "c1") - x_distance e (Sensor.geometry s))
         <= (1 # 20) + (1 # 140737488355328))%Q).
Proof.
  apply (sensor_to_edge_sound x_distance streets feed_sensors feed_s2e "c1");
    [apply feed_matched | vm_compute; reflexivity].
Defined.

(** ** The table of static rows *)

Lemma edges_dict_fold_last rows (m : gmap Z Static.t) k :
  foldl (fun d row => <[Static.osm_id row := row]> d) m rows !! k
  = match last (filter (fun r => Static.osm_id r = k) rows) with
    | Some r => Some r
    | None => m !! k
    end.
Proof.
  revert m. induction rows as [|r rows IH]; intros m; [done|].
  cbn [foldl]. rewrite IH, filter_cons.
  destruct (decide (Static.osm_id r = k)) as [<-|Hne].
  - rewrite last_cons. destruct (last _); [done|]. by rewrite lookup_insert_eq.
  - by rewrite lookup_insert_ne.
Qed.

Lemma edges_dict_lookup (rows : list Static.t) (k : Z) :
  edges_dict rows !! k = last (filter (fun r => Static.osm_id r = k) rows).
Proof. unfold edges_dict. rewrite edges_dict_fold_last. by destruct (last _). Qed.

Lemma edges_dict_Some (rows : list Static.t) (k : Z) r :
  edges_dict rows !! k = Some r -> Static.osm_id r = k /\ r ∈ rows.
Proof.
  rewrite edges_dict_lookup. intros Hr%last_Some_elem_of.
  by apply list_elem_of_filter in Hr as [? ?].
Qed.

(** X6: the dictionary of static rows holds, under an edge identifier, the
    last row of the table with that identifier (a later row overwrites an
    earlier one); every value is a row of the table filed under its own
    identifier, and an identifier is absent exactly when no row has it. *)
Theorem edges_dict_last_wins (rows : list Static.t) (k : Z) :
  edges_dict rows !! k = last (filter (fun r => Static.osm_id r = k) rows)
  /\ (forall r, edges_dict rows !! k = Some r -> Static.osm_id r = k /\ r ∈ rows)
  /\ (edges_dict rows !! k = None <-> k ∉ Static.osm_id <$> rows).
Proof.
  split_and!; [apply edges_dict_lookup | apply edges_dict_Some |].
  rewrite edges_dict_lookup, last_None. split.
  - intros Hnil (r & -> & Hr)%list_elem_of_fmap.
    assert (r ∈ filter (fun r' => Static.osm_id r' = Static.osm_id r) rows) as Hin
      by (by apply list_elem_of_filter).
    rewrite Hnil in Hin. by apply elem_of_nil in Hin.
  - intros Hk. destruct (filter _ rows) as [|r l] eqn:Hf; [done|].
    exfalso. apply Hk.
    assert (r ∈ filter (fun r' => Static.osm_id r' = k) rows) as Hin
      by (rewrite Hf; by left).
    apply list_elem_of_filter in Hin as [<- Hin]. by apply list_elem_of_fmap_2.
Qed.

(** The table of the small feed written twice. *)
Lemma edges_dict_last_wins_witness :
  exists r, edges_dict (feed_statics ++ feed_statics) !! 101 = Some r
    /\ Static.osm_id r = 101 /\ r ∈ feed_statics ++ feed_statics
    /\ edges_dict (feed_statics ++ feed_statics) !! 103 = None.
Proof.
  assert (exists r, edges_dict (feed_statics ++ feed_statics) !! 101 = Some r) as [r Hr]
    by (vm_compute; eexists; reflexivity).
  exists r. split; [exact Hr|].
  destruct (proj1 (proj2 (edges_dict_last_wins (feed_statics ++ feed_statics) 101)) r Hr)
    as [Hid Hin].
  split; [exact Hid|]. split; [exact Hin|]. vm_compute. reflexivity.
Defined.

Lemma static_row_inv arctan2_degrees lower_nonascii with_sensors e r :
  static_row arctan2_degrees lower_nonascii with_sensors e = Ok r ->
  Static.osm_id r = Edge.osm_id e
  /\ Static.has_real_sensor r = bool_decide (Edge.osm_id e ∈ with_sensors)
  /\ Static.highway_type r = fillna "unknown" (Edge.highway e)
  /\ Static.road_category r = categorize_road (fillna "unknown" (Edge.highway e))
  /\ maxspeed_kmh (Edge.maxspeed e) = Ok (Static.maxspeed_kmh r)
  /\ lanes_count (Edge.lanes e) = Ok (Static.lanes r).
Proof.
  unfold static_row. intros Hr.
  apply rbind_Ok in Hr as (v & Hv & Hr). apply rbind_Ok in Hr as (l & Hl & Hr).
  by injection Hr as <-.
Qed.

Lemma edges_gdf_rows arctan2_degrees lower_nonascii with_sensors edges rows r :
  edges_gdf arctan2_degrees lower_nonascii with_sensors edges = Ok rows ->
  r ∈ rows ->
  exists e, e ∈ edges /\ static_row arctan2_degrees lower_nonascii with_sensors e = Ok r.
Proof.
  intros Hrun%edges_gdf_for_each%for_each_inv Hr.
  induction Hrun as [|e r' edges rows Hr' _ IH]; [by apply elem_of_nil in Hr|].
  apply elem_of_cons in Hr as [->|Hr].
  - exists e. split; [by left | done].
  - destruct (IH Hr) as (e' & He' & Hrow). exists e'. split; [by right | done].
Qed.

(** X7: after steps 3 and 7, a static row is flagged [has_real_sensor]
    exactly when some sensor was associated to its edge identifier, and then
    a sensor of the list lies within 50 metres of an edge with that
    identifier. *)
Theorem has_real_sensor_iff (distance : Edge.t -> Q * Q -> Q)
    (arctan2_degrees : Q -> Q -> Q) (lower_nonascii : N -> pystr)
    (edges : list Edge.t) (sensors : list Sensor.t)
    (s2e : gmap string Assoc.t) (statics : list Static.t) (row : Static.t) :
  sensor_to_edge distance edges sensors = Ok s2e ->
  edges_gdf arctan2_degrees lower_nonascii (edges_with_sensors s2e) edges = Ok statics ->
  row ∈ statics ->
  (Static.has_real_sensor row = true
   <-> exists counter_id a, s2e !! counter_id = Some a /\ Assoc.edge_id a = Static.osm_id row)
  /\ (Static.has_real_sensor row = true ->
      exists s e, s ∈ sensors /\ e ∈ edges /\ Edge.osm_id e = Static.osm_id row
        /\ (distance e (Sensor.geometry s) <= 50)%Q).
Proof.
  intros Hs2e Hgdf Hrow.
  destruct (edges_gdf_rows _ _ _ _ _ _ Hgdf Hrow) as (e0 & He0 & Hr).
  apply static_row_inv in Hr as (Hid & Hflag & _).
  assert (Static.has_real_sensor row = true
          <-> exists counter_id a, s2e !! counter_id = Some a
                /\ Assoc.edge_id a = Static.osm_id row) as Hiff.
  { rewrite Hflag, bool_decide_eq_true, elem_of_edges_with_sensors, elem_of_edge_set.
    by rewrite Hid. }
  split; [done|]. intros (cid & a & Hlook & Ha)%Hiff.
  destruct (sensor_to_edge_sound_fold _ _ _ _ _ _ _ Hs2e Hlook)
    as [Hm|(s & i & e & Hs & _ & (He & _) & Hd & ->)].
  { by rewrite lookup_empty in Hm. }
  exists s, e. split_and!; [done | by eapply list_elem_of_lookup_2 | done |].
  by apply Qle_bool_iff in Hd.
Qed.

Lemma has_real_sensor_iff_witness :
  exists row, row ∈ feed_statics
    /\ (Static.has_real_sensor row = true
        <-> exists counter_id a, feed_s2e !! counter_id = Some a
              /\ Assoc.edge_id a = Static.osm_id row)
    /\ (Static.has_real_sensor row = true ->
        exists s e, s ∈ feed_sensors /\ e ∈ streets /\ Edge.osm_id e = Static.osm_id row
          /\ (x_distance e (Sensor.geometry s) <= 50)%Q).
Proof.
  assert (exists row rest, feed_statics = row :: rest) as (row & rest & Heq)
    by (vm_compute; eauto).
  assert (row ∈ feed_statics) as Hrow by (rewrite Heq; by left).
  exists row. split; [exact Hrow|].
  apply (has_real_sensor_iff x_distance (fun _ _ => 90%Q) (fun c => [c])
           streets feed_sensors feed_s2e feed_statics row);
    [apply feed_matched | apply feed_static_rows | exact Hrow].
Defined.

(** ** The count lookup again *)

Lemma sumZ_app l1 l2 : sumZ (l1 ++ l2) = sumZ l1 + sumZ l2.
Proof. induction l1 as [|x l1 IH]; simpl; lia. Qed.

Lemma sumZ_Permutation l1 l2 : l1 ≡ₚ l2 -> sumZ l1 = sumZ l2.
Proof. induction 1; simpl; lia. Qed.

Lemma counts_at_Permutation df df' key : df ≡ₚ df' -> counts_at df key ≡ₚ counts_at df' key.
Proof. intros H. unfold counts_at. by rewrite H. Qed.

Lemma summed_count_Permutation df df' key :
  df ≡ₚ df' -> summed_count df key = summed_count df' key.
Proof.
  intros H. unfold summed_count.
  pose proof (counts_at_Permutation df df' key H) as Hc.
  destruct (counts_at df key) as [|c cs], (counts_at df' key) as [|c' cs']; try done.
  - by apply Permutation_nil_cons in Hc.
  - symmetry in Hc. by apply Permutation_nil_cons in Hc.
  - f_equal. by apply sumZ_Permutation.
Qed.

Lemma summed_count_app df1 df2 key :
  summed_count (df1 ++ df2) key
  = union_with (fun a b => Some (a + b)) (summed_count df1 key) (summed_count df2 key).
Proof.
  unfold summed_count, counts_at. rewrite filter_app, fmap_app.
  destruct (Bike.count <$> filter _ df1) as [|c cs]; simpl.
  - by destruct (Bike.count <$> filter _ df2).
  - destruct (Bike.count <$> filter _ df2) as [|c' cs']; simpl.
    + by rewrite app_nil_r.
    + f_equal. rewrite sumZ_app. simpl. lia.
Qed.

Lemma timestamps_Permutation_eq df df' : df ≡ₚ df' -> timestamps df = timestamps df'.
Proof.
  intros H. unfold timestamps.
  apply (Sorted_unique Z.le); try apply Sorted_merge_sort; try apply _.
  rewrite !merge_sort_Permutation.
  apply NoDup_Permutation; try apply NoDup_remove_dups.
  intros ts. rewrite !elem_of_remove_dups. by rewrite H.
Qed.

Lemma bike_lookup_Permutation df df' : df ≡ₚ df' -> bike_lookup df = bike_lookup df'.
Proof.
  intros H. apply map_eq. intros key. rewrite !bike_lookup_summed.
  by apply summed_count_Permutation.
Qed.

(** X8: the count lookup and the list of grid timestamps do not depend on
    the order in which the count records are read: two lists of records
    that differ only by their order give the same lookup and the same
    timestamps. *)
Theorem bike_lookup_order_independent (s2e : gmap string Assoc.t)
    (records records' : list Count.t) :
  records ≡ₚ records' ->
  bike_lookup (with_edge s2e records) = bike_lookup (with_edge s2e records')
  /\ timestamps (with_edge s2e records) = timestamps (with_edge s2e records').
Proof.
  intros H.
  assert (with_edge s2e records ≡ₚ with_edge s2e records') as Hdf.
  { unfold with_edge. by rewrite H. }
  split; [by apply bike_lookup_Permutation | by apply timestamps_Permutation_eq].
Qed.

(** The counts of the small feed read backwards. *)
Lemma bike_lookup_order_independent_witness :
  bike_lookup (with_edge feed_s2e (reverse feed_counts)) = bike_lookup feed_df
  /\ timestamps (with_edge feed_s2e (reverse feed_counts)) = timestamps feed_df.
Proof.
  apply (bike_lookup_order_independent feed_s2e (reverse feed_counts) feed_counts).
  apply reverse_Permutation.
Defined.

(** X9: reading one more batch of count records adds its counts to the
    lookup key by key: the lookup of two batches read one after the other
    is the key-wise sum of their lookups. *)
Theorem bike_lookup_app (s2e : gmap string Assoc.t) (records1 records2 : list Count.t) :
  bike_lookup (with_edge s2e (records1 ++ records2))
  = union_with (fun a b => Some (a + b))
      (bike_lookup (with_edge s2e records1)) (bike_lookup (with_edge s2e records2)).
Proof.
  apply map_eq. intros key. rewrite lookup_union_with, !bike_lookup_summed.
  unfold with_edge. rewrite omap_app. apply summed_count_app.
Qed.

(** ** The grid again *)

Lemma sumZ_fmap_add {A} (f g : A -> Z) l :
  sumZ ((fun k => f k + g k) <$> l) = sumZ (f <$> l) + sumZ (g <$> l).
Proof.
  induction l as [|x l IH]; [done|].
  rewrite !fmap_cons. unfold sumZ in *. cbn [foldr]. lia.
Qed.

Lemma sumZ_indicator (keys : list (Z * Z)) k0 c :
  NoDup keys ->
  sumZ ((fun k => if decide (k0 = k) then c else 0) <$> keys)
  = if decide (k0 ∈ keys) then c else 0.
Proof.
  induction 1 as [|k keys Hk Hnd IH].
  { by rewrite decide_False by apply not_elem_of_nil. }
  rewrite fmap_cons. unfold sumZ in *. cbn [foldr].
  rewrite IH. destruct (decide (k0 = k)) as [<-|Hne].
  - rewrite (decide_False (P := k0 ∈ keys)) by done.
    rewrite decide_True by (by left). lia.
  - destruct (decide (k0 ∈ keys)) as [Hin|Hnin].
    + rewrite decide_True by (by right). lia.
    + rewrite decide_False; [lia|]. by intros [?|?]%elem_of_cons.
Qed.

Lemma sumZ_counts_at (keys : list (Z * Z)) df :
  NoDup keys ->
  sumZ ((fun k => sumZ (counts_at df k)) <$> keys)
  = sumZ (Bike.count <$> filter (fun r => (Bike.edge_id r, Bike.timestamp r) ∈ keys) df).
Proof.
  intros Hnd. induction df as [|r df IH].
  { clear Hnd. induction keys as [|k keys IHk]; [done|].
    rewrite fmap_cons. unfold sumZ in *. cbn [foldr]. by rewrite IHk. }
  rewrite filter_cons.
  transitivity (sumZ ((fun k => (if decide ((Bike.edge_id r, Bike.timestamp r) = k)
                                 then Bike.count r else 0)
                                + sumZ (counts_at df k)) <$> keys)).
  { f_equal. apply list_fmap_ext. intros _ k _. unfold counts_at.
    rewrite filter_cons. by case_decide. }
  rewrite sumZ_fmap_add, IH, sumZ_indicator by done.
  case_decide; rewrite ?fmap_cons; unfold sumZ; cbn [foldr]; lia.
Qed.

Lemma column_sum_summed_count df keys :
  column_sum (summed_count df <$> keys) = sumZ ((fun k => sumZ (counts_at df k)) <$> keys).
Proof.
  unfold column_sum. induction keys as [|k keys IH]; [done|].
  rewrite !fmap_cons. cbn [omap list_omap]. unfold summed_count at 1.
  destruct (counts_at df k) as [|c cs] eqn:Hc; simpl in *; rewrite IH; lia.
Qed.

Lemma filter_all {A} (P : A -> Prop) `{forall x, Decision (P x)} (l : list A) :
  (forall x, x ∈ l -> P x) -> filter P l = l.
Proof.
  induction l as [|x l IH]; intros Hall; [done|].
  rewrite filter_cons, decide_True by (apply Hall; by left).
  f_equal. apply IH. intros y Hy. apply Hall. by right.
Qed.

Lemma with_edge_counts s2e records :
  sumZ (Bike.count <$> with_edge s2e records)
  = sumZ (Count.count <$> filter (fun r => is_Some (s2e !! Count.counter_id r)) records).
Proof.
  unfold with_edge. induction records as [|r records IH]; [done|].
  rewrite filter_cons. cbn [omap list_omap]. case_decide as Hs.
  - destruct Hs as [a Ha]. rewrite Ha. cbn [fmap option_fmap option_map].
    rewrite !fmap_cons. unfold sumZ in *. cbn [foldr]. by rewrite IH.
  - apply eq_None_not_Some in Hs. rewrite Hs. exact IH.
Qed.

Lemma with_edge_in_cross s2e records row :
  row ∈ with_edge s2e records ->
  (Bike.edge_id row, Bike.timestamp row)
    ∈ cross (timestamps (with_edge s2e records)) (edges_with_sensors s2e).
Proof.
  intros Hrow. apply elem_of_cross. split.
  - apply elem_of_edges_with_sensors. by eapply with_edge_edge.
  - apply elem_of_timestamps. unfold timestamp_set.
    apply elem_of_list_to_set. by apply list_elem_of_fmap_2.
Qed.

Lemma length_filter_fmap {A B} (f : A -> B) (P : B -> Prop) `{forall b, Decision (P b)}
    (l : list A) :
  length (filter P (f <$> l)) = length (filter (fun a => P (f a)) l).
Proof.
  induction l as [|a l IH]; [done|].
  rewrite fmap_cons, !filter_cons. case_decide; simpl; by rewrite IH.
Qed.

Lemma count_Some_keys (lookup : gmap (Z * Z) Z) (keys : list (Z * Z)) :
  NoDup keys -> (forall k, is_Some (lookup !! k) -> k ∈ keys) ->
  length (filter is_Some ((fun k => lookup !! k) <$> keys)) = size (dom lookup).
Proof.
  intros Hnd Hdom. rewrite length_filter_fmap.
  rewrite <- (size_list_to_set (C := gset (Z * Z))) by (by apply NoDup_filter).
  f_equal. apply set_eq. intros k.
  rewrite elem_of_list_to_set, list_elem_of_filter, elem_of_dom.
  split; [by intros [? _] | intros Hk; split; [done | by apply Hdom]].
Qed.

(** X10: the grid neither loses nor invents counts: the targets of its rows
    add up to the sum of the counts of all records whose counter has an
    association, and the number of rows with a target is the number of
    distinct (edge, timestamp) keys of the count data. *)
Theorem grid_conserves_counts (weather_df : list Weather.t) (dict : gmap Z Static.t)
    (s2e : gmap string Assoc.t) (records : list Count.t) (rows : list Row.t) :
  let df := with_edge s2e records in
  dataset_rows weather_df dict (bike_lookup df) (timestamps df) (edges_with_sensors s2e)
    = Ok rows ->
  column_sum (Row.bike_count <$> rows) = sumZ (Bike.count <$> df)
  /\ column_sum (Row.bike_count <$> rows)
     = sumZ (Count.count <$> filter (fun r => is_Some (s2e !! Count.counter_id r)) records)
  /\ length (filter is_Some (Row.bike_count <$> rows)) = size (dom (bike_lookup df)).
Proof.
  intros df Hrows.
  destruct (dataset_rows_inv _ _ _ _ _ _ Hrows) as [Hkeys Hcount].
  assert (NoDup (cross (timestamps df) (edges_with_sensors s2e))) as Hnd
    by (apply NoDup_cross; [apply NoDup_timestamps | apply NoDup_edges_with_sensors]).
  assert (Row.bike_count <$> rows
          = (fun k => bike_lookup df !! k) <$> cross (timestamps df) (edges_with_sensors s2e))
    as Hcol.
  { rewrite <- Hkeys, <- list_fmap_compose. apply list_fmap_ext. intros i r Hr. simpl.
    apply Hcount. by eapply list_elem_of_lookup_2. }
  assert (column_sum (Row.bike_count <$> rows) = sumZ (Bike.count <$> df)) as Hsum.
  { rewrite Hcol.
    rewrite (list_fmap_ext _ (summed_count df) _ (fun _ k _ => bike_lookup_summed df k)).
    rewrite column_sum_summed_count, sumZ_counts_at by done.
    f_equal. f_equal. apply filter_all. intros row Hrow. by apply with_edge_in_cross. }
  split_and!; [done | rewrite Hsum; apply with_edge_counts |].
  rewrite Hcol. apply count_Some_keys; [done|].
  intros k. rewrite bike_lookup_summed. unfold summed_count, counts_at.
  destruct (filter _ df) as [|row l] eqn:Hf; [by intros [? ?]|]. intros _.
  assert (row ∈ filter (fun row => (Bike.edge_id row, Bike.timestamp row) = k) df) as Hin
    by (rewrite Hf; by left).
  apply list_elem_of_filter in Hin as [<- Hin]. by apply with_edge_in_cross.
Qed.

Lemma feed_rows_Ok :
  dataset_rows feed_weather feed_dict (bike_lookup feed_df) (timestamps feed_df)
    (edges_with_sensors feed_s2e) = Ok feed_rows.
Proof. vm_compute. reflexivity. Qed.

(** The small feed: 4 + 1 + 2 + 6 + 3 = 16 bicycles on five keys; the 50 of
    the counter without association are left out. *)
Lemma grid_conserves_counts_witness :
  column_sum (Row.bike_count <$> feed_rows) = 16
  /\ length (filter is_Some (Row.bike_count <$> feed_rows)) = 5%nat.
Proof.
  destruct (grid_conserves_counts feed_weather feed_dict feed_s2e feed_counts feed_rows
              feed_rows_Ok) as (Hsum & _ & Hlen).
  split; [rewrite Hsum | rewrite Hlen]; vm_compute; reflexivity.
Defined.

(** ** The weather lookup again *)

Lemma iloc_elem {A} (l : list A) i x : iloc l i = Ok x -> x ∈ l.
Proof.
  unfold iloc. destruct (_ && _); [|done].
  destruct (l !! _) as [y|] eqn:Hy; [|done]. intros [= <-].
  by eapply list_elem_of_lookup_2.
Qed.

Lemma weather_row_elem weather_df ts w : weather_row weather_df ts = Ok w -> w ∈ weather_df.
Proof.
  destruct (decide (weather_df = [])) as [->|Hne]; [done|].
  rewrite weather_row_eq by done. destruct (_ =? _)%nat.
  - apply iloc_elem.
  - intros Hw%iloc_elem. by apply list_elem_of_filter in Hw as [_ ?].
Qed.

Lemma bisect_left_all_ge fuel (a : list Z) key lo hi :
  (forall i x, a !! i = Some x -> key <= x) -> (hi <= length a)%nat ->
  bisect_left fuel a key lo hi = lo.
Proof.
  intros Hall. revert hi. induction fuel as [|fuel IH]; intros hi Hhi; cbn [bisect_left]; [done|].
  destruct (Nat.ltb_spec lo hi) as [Hlt|Hge]; [|done].
  assert (lo + (hi - lo) / 2 < hi)%nat as Hmid
    by (pose proof (Nat.div_lt (hi - lo) 2); lia).
  destruct (a !! (lo + (hi - lo) / 2)%nat) as [m|] eqn:Hm.
  2:{ apply lookup_ge_None in Hm. lia. }
  change (default 0 (Some m)) with m. specialize (Hall _ _ Hm).
  destruct (Z.ltb_spec m key); [lia|]. apply IH. lia.
Qed.

(** X11: the weather lookup fails on a frame without record, which has no
    timestamp column (KeyError), and on no other frame: with at least one
    record it always returns a record of the frame, for any timestamp; when
    every record is later than the timestamp, the record returned is the
    last one of the frame. *)
Theorem weather_row_total (weather_df : list Weather.t) (ts : Z) :
  (weather_df = [] -> weather_row weather_df ts = Raise KeyError)
  /\ (weather_df <> [] -> exists w, weather_row weather_df ts = Ok w /\ w ∈ weather_df)
  /\ (weather_df <> [] -> (forall w, w ∈ weather_df -> ts < Weather.timestamp w) ->
      exists w, last weather_df = Some w /\ weather_row weather_df ts = Ok w).
Proof.
  split_and!; [by intros -> | apply weather_row_Ok |].
  intros Hne Hlater. rewrite weather_row_eq by done.
  assert (filter (fun w => Weather.timestamp w = ts) weather_df = []) as ->.
  { destruct (filter _ weather_df) as [|w l] eqn:Hf; [done|].
    assert (w ∈ filter (fun w => Weather.timestamp w = ts) weather_df) as Hw
      by (rewrite Hf; by left).
    apply list_elem_of_filter in Hw as [Hts Hw]. specialize (Hlater w Hw). lia. }
  cbn [length Nat.eqb]. unfold searchsorted.
  rewrite bisect_left_all_ge.
  2:{ intros i x (w & -> & Hw)%list_lookup_fmap_Some.
      apply list_elem_of_lookup_2 in Hw. specialize (Hlater w Hw). lia. }
  2:{ lia. }
  destruct (iloc_Ok weather_df (Z.of_nat 0 - 1)) as (w & Hw & Hlook).
  { destruct weather_df; [done|]. simpl. lia. }
  exists w. split; [|done]. rewrite last_lookup, <- Hlook. f_equal.
  change (Z.of_nat 0 - 1 <? 0) with true. cbn match. lia.
Qed.

(** A frame without record, and the small weather feed, asked for a
    timestamp between two records and for one before its first record. *)
Lemma weather_row_total_witness :
  weather_row [] 5000 = Raise KeyError
  /\ (exists w, weather_row feed_weather 5000 = Ok w /\ w ∈ feed_weather)
  /\ (exists w, last feed_weather = Some w /\ weather_row feed_weather (-3600) = Ok w).
Proof.
  split; [|split].
  - exact (proj1 (weather_row_total [] 5000) eq_refl).
  - exact (proj1 (proj2 (weather_row_total feed_weather 5000)) ltac:(discriminate)).
  - apply (weather_row_total feed_weather (-3600)); [discriminate|].
    intros w Hw. apply list_elem_of_In in Hw. simpl in Hw.
    destruct Hw as [<-|[<-|[<-|[]]]]; simpl; lia.
Defined.

(** ** The rows of the grid *)

Lemma elem_of_mjoin_list {A} (ls : list (list A)) x : x ∈ mjoin ls <-> exists l, l ∈ ls /\ x ∈ l.
Proof.
  induction ls as [|l ls IH]; csimpl.
  - split; [by intros ?%elem_of_nil | by intros (? & ?%elem_of_nil & _)].
  - rewrite elem_of_app, IH. split.
    + intros [Hx|(l' & Hl' & Hx)]; [exists l; split; [by left|done] | exists l'; split; [by right|done]].
    + intros (l' & [->|Hl']%elem_of_cons & Hx); [by left | right; by exists l'].
Qed.

Lemma dataset_rows_make weather_df dict lookup tss es rows r :
  dataset_rows weather_df dict lookup tss es = Ok rows -> r ∈ rows ->
  exists w, weather_row weather_df (Row.timestamp r) = Ok w
    /\ make_row dict lookup (Row.timestamp r) w (Row.edge_id r) = Ok r.
Proof.
  unfold dataset_rows. intros (blocks & Hblocks & [= <-])%rbind_Ok Hr.
  apply elem_of_mjoin_list in Hr as (block & Hblock & Hr).
  apply for_each_inv in Hblocks.
  apply list_elem_of_lookup_1 in Hblock as [i Hi].
  destruct (Forall2_lookup_r _ _ _ _ _ Hblocks Hi) as (ts & _ & Hrun).
  apply rbind_Ok in Hrun as (w & Hw & Hrun). apply for_each_inv in Hrun.
  apply list_elem_of_lookup_1 in Hr as [j Hj].
  destruct (Forall2_lookup_r _ _ _ _ _ Hrun Hj) as (e & _ & Hmake).
  destruct (make_row_inv _ _ _ _ _ _ Hmake) as ([= <- <-] & _).
  by exists w.
Qed.

(** X12: every row of the grid carries the four weather values of the
    record that the weather lookup returns for its timestamp, a record of
    the weather frame, and the static row of the table that is filed under
    its edge identifier; two rows with the same timestamp carry the same
    weather values, weather flags and calendar fields. *)
Theorem row_provenance (weather_df : list Weather.t) (statics : list Static.t)
    (lookup : gmap (Z * Z) Z) (tss es : list Z) (rows : list Row.t) (r : Row.t) :
  dataset_rows weather_df (edges_dict statics) lookup tss es = Ok rows ->
  r ∈ rows ->
  (exists w, w ∈ weather_df
     /\ weather_row weather_df (Row.timestamp r) = Ok w
     /\ Row.temperature_c r = Weather.temperature_c w
     /\ Row.precipitation_mm r = Weather.precipitation_mm w
     /\ Row.wind_speed_kmh r = Weather.wind_speed_kmh w
     /\ Row.is_raining r = Weather.is_raining w)
  /\ Row.edge_row r ∈ statics
  /\ Static.osm_id (Row.edge_row r) = Row.edge_id r
  /\ forall r', r' ∈ rows -> Row.timestamp r' = Row.timestamp r ->
       (Row.temperature_c r', Row.precipitation_mm r', Row.wind_speed_kmh r', Row.is_raining r')
       = (Row.temperature_c r, Row.precipitation_mm r, Row.wind_speed_kmh r, Row.is_raining r)
       /\ (Row.is_cold r', Row.is_hot r', Row.is_windy r')
          = (Row.is_cold r, Row.is_hot r, Row.is_windy r)
       /\ (Row.hour r', Row.day_of_week r', Row.is_weekend r',
           Row.is_rush_hour_morning r', Row.is_rush_hour_evening r')
          = (Row.hour r, Row.day_of_week r, Row.is_weekend r,
             Row.is_rush_hour_morning r, Row.is_rush_hour_evening r).
Proof.
  intros Hrows Hr.
  destruct (dataset_rows_make _ _ _ _ _ _ _ Hrows Hr) as (w & Hw & Hmake).
  destruct (make_row_inv _ _ _ _ _ _ Hmake) as (_ & _ & Hdict).
  apply edges_dict_Some in Hdict as [Hid Hin].
  pose proof Hmake as Hmake'. unfold make_row in Hmake'.
  destruct (edges_dict statics !! Row.edge_id r) as [st|] eqn:Hst; [|done].
  injection Hmake' as Hmake'. split_and!; [|done|done|].
  - exists w. split; [by eapply weather_row_elem|]. by rewrite <- Hmake'.
  - intros r' Hr' Hts.
    destruct (dataset_rows_make _ _ _ _ _ _ _ Hrows Hr') as (w' & Hw' & Hmake2).
    rewrite Hts, Hw in Hw'. injection Hw' as <-.
    unfold make_row in Hmake2.
    destruct (edges_dict statics !! Row.edge_id r') as [st'|]; [|done].
    injection Hmake2 as Hmake2. rewrite <- Hmake2, <- Hmake'. simpl. by rewrite Hts.
Qed.

Lemma feed_rows_statics :
  dataset_rows feed_weather (edges_dict feed_statics) (bike_lookup feed_df)
    (timestamps feed_df) (edges_with_sensors feed_s2e) = Ok feed_rows.
Proof. apply feed_rows_Ok. Qed.

Lemma row_provenance_witness :
  exists r, r ∈ feed_rows
    /\ (exists w, w ∈ feed_weather
          /\ weather_row feed_weather (Row.timestamp r) = Ok w
          /\ Row.temperature_c r = Weather.temperature_c w
          /\ Row.precipitation_mm r = Weather.precipitation_mm w
          /\ Row.wind_speed_kmh r = Weather.wind_speed_kmh w
          /\ Row.is_raining r = Weather.is_raining w)
    /\ Row.edge_row r ∈ feed_statics
    /\ Static.osm_id (Row.edge_row r) = Row.edge_id r.
Proof.
  assert (exists r rest, feed_rows = r :: rest) as (r & rest & Heq)
    by (vm_compute; eauto).
  assert (r ∈ feed_rows) as Hr by (rewrite Heq; by left).
  exists r. split; [exact Hr|].
  destruct (row_provenance feed_weather feed_statics (bike_lookup feed_df)
              (timestamps feed_df) (edges_with_sensors feed_s2e) feed_rows r
              feed_rows_statics Hr) as (Hw & Hst & Hid & _).
  split; [exact Hw|]. split; [exact Hst | exact Hid].
Defined.

Lemma Qlt_bool_iff a b : Qlt_bool a b = true <-> (a < b)%Q.
Proof.
  unfold Qlt_bool. rewrite negb_true_iff. split.
  - intros H. apply Qnot_le_lt. intros Hle. apply Qle_bool_iff in Hle. congruence.
  - intros H. apply not_true_is_false. intros Hle%Qle_bool_iff. lra.
Qed.

(** X13: in every row of the grid the hour is between 0 and 23 and the day
    of the week between 0 and 6; the row is flagged weekend exactly on days
    5 and 6, morning rush exactly for the hours 7 to 9 and evening rush for
    17 to 19, never both; it is flagged cold exactly when a temperature is
    present and below 10, hot when one is present and above 25, windy when
    a wind speed is present and above 20, and never cold and hot at once. *)
Theorem row_flags_consistent (weather_df : list Weather.t) (dict : gmap Z Static.t)
    (lookup : gmap (Z * Z) Z) (tss es : list Z) (rows : list Row.t) (r : Row.t) :
  dataset_rows weather_df dict lookup tss es = Ok rows ->
  r ∈ rows ->
  (0 <= Row.hour r <= 23 /\ 0 <= Row.day_of_week r <= 6)
  /\ (Row.is_weekend r = true <-> Row.day_of_week r = 5 \/ Row.day_of_week r = 6)
  /\ (Row.is_rush_hour_morning r = true <-> 7 <= Row.hour r <= 9)
  /\ (Row.is_rush_hour_evening r = true <-> 17 <= Row.hour r <= 19)
  /\ ~ (Row.is_rush_hour_morning r = true /\ Row.is_rush_hour_evening r = true)
  /\ (Row.is_cold r = true <-> exists t, Row.temperature_c r = Some t /\ (t < 10)%Q)
  /\ (Row.is_hot r = true <-> exists t, Row.temperature_c r = Some t /\ (25 < t)%Q)
  /\ (Row.is_windy r = true <-> exists v, Row.wind_speed_kmh r = Some v /\ (20 < v)%Q)
  /\ ~ (Row.is_cold r = true /\ Row.is_hot r = true).
Proof.
  intros Hrows Hr.
  destruct (dataset_rows_make _ _ _ _ _ _ _ Hrows Hr) as (w & _ & Hmake).
  unfold make_row in Hmake.
  destruct (dict !! Row.edge_id r) as [st|]; [|done].
  injection Hmake as Hmake. rewrite <- Hmake. cbn -[hour_of weekday].
  pose proof (Z.mod_pos_bound (Row.timestamp r / 3600) 24 ltac:(lia)) as Hh.
  pose proof (Z.mod_pos_bound (Row.timestamp r / 86400 + 3) 7 ltac:(lia)) as Hd.
  fold (hour_of (Row.timestamp r)) in Hh. fold (weekday (Row.timestamp r)) in Hd.
  unfold Train.is_rush_hour_morning, Train.is_rush_hour_evening.
  assert (forall x c, lt_or_false x c = true <-> exists t, x = Some t /\ (t < c)%Q) as Hlt.
  { intros [t|] c; simpl.
    - rewrite Qlt_bool_iff. split; [by exists t | by intros (? & [= <-] & ?)].
    - split; [done | by intros (? & [=] & _)]. }
  assert (forall x c, gt_or_false x c = true <-> exists t, x = Some t /\ (c < t)%Q) as Hgt.
  { intros [t|] c; simpl.
    - rewrite Qlt_bool_iff. split; [by exists t | by intros (? & [= <-] & ?)].
    - split; [done | by intros (? & [=] & _)]. }
  split_and!; [lia | lia | lia | lia | | | | | apply Hlt | apply Hgt | apply Hgt |].
  - rewrite Z.leb_le. lia.
  - rewrite andb_true_iff, !Z.leb_le. lia.
  - rewrite andb_true_iff, !Z.leb_le. lia.
  - rewrite !andb_true_iff, !Z.leb_le. lia.
  - rewrite Hlt, Hgt. intros [(t & Ht & Hc) (t' & Ht' & Hh')].
    rewrite Ht in Ht'. injection Ht' as <-. lra.
Qed.

(** The first row of the small grid, at 8 degrees. *)
Lemma row_flags_consistent_witness :
  exists r, r ∈ feed_rows
    /\ (Row.is_cold r = true <-> exists t, Row.temperature_c r = Some t /\ (t < 10)%Q)
    /\ ~ (Row.is_cold r = true /\ Row.is_hot r = true).
Proof.
  assert (exists r rest, feed_rows = r :: rest) as (r & rest & Heq)
    by (vm_compute; eauto).
  assert (r ∈ feed_rows) as Hr by (rewrite Heq; by left).
  exists r. split; [exact Hr|].
  destruct (row_flags_consistent feed_weather feed_dict (bike_lookup feed_df)
              (timestamps feed_df) (edges_with_sensors feed_s2e) feed_rows r
              feed_rows_Ok Hr) as (_ & _ & _ & _ & _ & Hcold & _ & _ & Hnot).
  split; [exact Hcold | exact Hnot].
Defined.

(** ** Lag features again *)

Lemma filter_fmap_key {A K} (key : A -> K) (P : K -> Prop) (Q : A -> Prop)
    `{forall k, Decision (P k)} `{forall a, Decision (Q a)} (l : list A) :
  (forall a, Q a <-> P (key a)) ->
  key <$> filter Q l = filter P (key <$> l).
Proof.
  intros HPQ. induction l as [|a l IH]; [done|].
  rewrite fmap_cons, !filter_cons.
  destruct (decide (Q a)) as [Hq|Hq], (decide (P (key a))) as [Hp|Hp].
  - rewrite fmap_cons. by f_equal.
  - by apply HPQ in Hq.
  - by apply HPQ in Hp.
  - done.
Qed.

Lemma filter_eq_NoDup (es : list Z) e : NoDup es -> e ∈ es -> filter (fun e' => e' = e) es = [e].
Proof.
  induction 1 as [|e' es Hnin Hnd IH]; [by intros ?%elem_of_nil|].
  rewrite filter_cons. intros [->|Hin]%elem_of_cons.
  - rewrite decide_True by done. f_equal.
    destruct (filter (fun e'0 => e'0 = e') es) as [|x l] eqn:Hf; [done|].
    assert (x ∈ filter (fun e'0 => e'0 = e') es) as Hx by (rewrite Hf; by left).
    apply list_elem_of_filter in Hx as [-> Hx]. done.
  - rewrite decide_False by (intros ->; done). by apply IH.
Qed.

Lemma filter_cross tss es e :
  NoDup es -> e ∈ es ->
  filter (fun k : Z * Z => k.1 = e) (cross tss es) = (fun t => (e, t)) <$> tss.
Proof.
  intros Hnd He. unfold cross. induction tss as [|t tss IH]; [done|].
  csimpl. rewrite filter_app, IH. f_equal.
  rewrite <- (filter_fmap_key (fun e' => (e', t)) (fun k : Z * Z => k.1 = e)
                (fun e' => e' = e)) by done.
  by rewrite filter_eq_NoDup.
Qed.

Lemma grid_edge_timestamps rows tss es e :
  Row.key <$> rows = cross tss es -> NoDup es -> e ∈ es ->
  Row.timestamp <$> filter (fun r => Row.edge_id r = e) rows = tss.
Proof.
  intros Hkeys Hnd He.
  transitivity (snd <$> (Row.key <$> filter (fun r => Row.edge_id r = e) rows)).
  { by rewrite <- list_fmap_compose. }
  rewrite (filter_fmap_key Row.key (fun k : Z * Z => k.1 = e) (fun r => Row.edge_id r = e))
    by done.
  rewrite Hkeys, filter_cross by done.
  rewrite <- list_fmap_compose. simpl. apply list_fmap_id.
Qed.

Lemma sorted_edge_timestamps rows tss es e :
  Row.key <$> rows = cross tss es -> NoDup es -> e ∈ es -> Sorted Z.le tss ->
  Row.timestamp <$> filter (fun r => Row.edge_id r = e) (sort_values rows) = tss.
Proof.
  intros Hkeys Hnd He Hs.
  apply (Sorted_unique Z.le); [|done|].
  - apply sorted_per_edge, Sorted_merge_sort. apply _.
  - rewrite <- (grid_edge_timestamps rows tss es e) by done.
    unfold sort_values. by rewrite merge_sort_Permutation.
Qed.

Lemma sorted_edge_counts (rows : list Row.t) (tss es : list Z) (e : Z)
    (lookup : gmap (Z * Z) Z) :
  Row.key <$> rows = cross tss es -> NoDup es -> e ∈ es -> Sorted Z.le tss ->
  (forall r, r ∈ rows -> Row.bike_count r = lookup !! Row.key r) ->
  Row.bike_count <$> filter (fun r => Row.edge_id r = e) (sort_values rows)
  = (fun t => lookup !! (e, t)) <$> tss.
Proof.
  intros Hkeys Hnd He Hs Hcount.
  rewrite <- (sorted_edge_timestamps rows tss es e) by done.
  rewrite <- list_fmap_compose. apply list_fmap_ext.
  intros i r Hr%list_elem_of_lookup_2. simpl.
  apply list_elem_of_filter in Hr as [<- Hr].
  apply Hcount. unfold sort_values in Hr. by rewrite merge_sort_Permutation in Hr.
Qed.

Lemma filter_final_row (l : list Final.t) e :
  Final.row <$> filter (fun f => Row.edge_id (Final.row f) = e) l
  = filter (fun r => Row.edge_id r = e) (Final.row <$> l).
Proof. by apply filter_fmap_key. Qed.

(** X14: in the final table the rows of an edge follow the grid timestamps
    in ascending order, and the lag columns are positional over them: at
    the j-th grid timestamp, lag-1h is the summed count of the edge at the
    (j-1)-th grid timestamp and lag-24h the one at the (j-24)-th, whatever
    the time between the two, and rolling-7d is the mean of the summed
    counts present among the last 168 grid timestamps up to the j-th. *)
Theorem lags_follow_grid_timestamps (weather_df : list Weather.t)
    (dict : gmap Z Static.t) (s2e : gmap string Assoc.t) (df : list Bike.t)
    (rows : list Row.t) (e : Z) :
  dataset_rows weather_df dict (bike_lookup df) (timestamps df) (edges_with_sensors s2e)
    = Ok rows ->
  df <> [] -> e ∈ edge_set s2e ->
  exists final_df,
    lag_features rows = Ok final_df
    /\ let mine := filter (fun f => Row.edge_id (Final.row f) = e) final_df in
       Row.key <$> (Final.row <$> mine) = (fun t => (e, t)) <$> timestamps df
       /\ forall j f, mine !! j = Some f ->
            Final.bike_count_lag_1h f
            = (if (j <? 1)%nat then None
               else timestamps df !! (j - 1)%nat ≫= fun t => summed_count df (e, t))
            /\ Final.bike_count_lag_24h f
               = (if (j <? 24)%nat then None
                  else timestamps df !! (j - 24)%nat ≫= fun t => summed_count df (e, t))
            /\ Final.bike_count_rolling_7d f
               = rolling_mean_at 168 1 ((fun t => summed_count df (e, t)) <$> timestamps df) j.
Proof.
  intros Hrows Hdf He%elem_of_edges_with_sensors.
  destruct (dataset_rows_inv _ _ _ _ _ _ Hrows) as [Hkeys Hcount].
  pose proof (NoDup_edges_with_sensors s2e) as Hnd.
  assert (Sorted Z.le (timestamps df)) as Hsorted by (apply Sorted_merge_sort; apply _).
  exists (lag_columns rows). split.
  { destruct rows as [|r rows]; [|done]. exfalso.
    destruct df as [|b df]; [done|].
    assert ((e, Bike.timestamp b) ∈ cross (timestamps (b :: df)) (edges_with_sensors s2e)) as Hin.
    { apply elem_of_cross. split; [done|]. apply elem_of_timestamps, elem_of_list_to_set.
      rewrite fmap_cons. by left. }
    rewrite <- Hkeys in Hin. by apply elem_of_nil in Hin. }
  intros mine.
  set (x := (fun t => summed_count df (e, t)) <$> timestamps df).
  assert (Row.bike_count <$> filter (fun r => Row.edge_id r = e) (sort_values rows) = x) as Hx.
  { rewrite (sorted_edge_counts rows (timestamps df) (edges_with_sensors s2e) e (bike_lookup df))
      by done.
    apply list_fmap_ext. intros _ t _. apply bike_lookup_summed. }
  assert (Final.row <$> mine = filter (fun r => Row.edge_id r = e) (sort_values rows)) as Hrow.
  { unfold mine. by rewrite filter_final_row, lag_columns_row. }
  assert (Final.bike_count_lag_1h <$> mine = shift 1 x) as H1.
  { rewrite <- Hx. apply (per_edge_column _ _ _ _ (length_shift 1) (lag_columns_lag_1h rows)). }
  assert (Final.bike_count_lag_24h <$> mine = shift 24 x) as H24.
  { rewrite <- Hx. apply (per_edge_column _ _ _ _ (length_shift 24) (lag_columns_lag_24h rows)). }
  assert (Final.bike_count_rolling_7d <$> mine = rolling_mean 168 1 x) as H7.
  { rewrite <- Hx.
    apply (per_edge_column _ _ _ _ (length_rolling_mean 168 1) (lag_columns_rolling_7d rows)). }
  assert (forall i, mjoin (x !! i) = timestamps df !! i ≫= fun t => summed_count df (e, t)) as Hxi.
  { intros i. unfold x. rewrite list_lookup_fmap. by destruct (timestamps df !! i). }
  split.
  - rewrite Hrow.
    rewrite <- (sorted_edge_timestamps rows (timestamps df) (edges_with_sensors s2e) e)
      by done.
    rewrite <- list_fmap_compose. apply list_fmap_ext.
    intros i r Hr%list_elem_of_lookup_2. simpl.
    apply list_elem_of_filter in Hr as [<- _]. done.
  - intros j f Hj.
    assert (j < length x)%nat as Hlen.
    { rewrite <- Hx, length_fmap, <- Hrow, length_fmap. by eapply lookup_lt_Some. }
    rewrite <- !Hxi. split_and!.
    + apply (f_equal (fun l => l !! j)) in H1.
      rewrite list_lookup_fmap, Hj, shift_lookup in H1 by done. by injection H1.
    + apply (f_equal (fun l => l !! j)) in H24.
      rewrite list_lookup_fmap, Hj, shift_lookup in H24 by done. by injection H24.
    + apply (f_equal (fun l => l !! j)) in H7.
      rewrite list_lookup_fmap, Hj, rolling_mean_lookup in H7 by done. by injection H7.
Qed.


Lemma single_rows_Ok :
  dataset_rows feed_weather feed_dict (bike_lookup single_df) (timestamps single_df)
    (edges_with_sensors single_s2e) = Ok single_rows.
Proof. vm_compute. reflexivity. Qed.

(** The single sensor has counts at 00:00 and 02:00 only: the lag-1h of
    the row of 02:00 is the count of 00:00, two hours earlier. *)
Lemma lags_follow_grid_timestamps_witness :
  exists final_df f,
    lag_features single_rows = Ok final_df
    /\ filter (fun f => Row.edge_id (Final.row f) = 101) final_df !! 1%nat = Some f
    /\ Row.key (Final.row f) = (101, 7200)
    /\ Final.bike_count_lag_1h f = Some 4
    /\ summed_count single_df (101, 0) = Some 4.
Proof.
  destruct (lags_follow_grid_timestamps feed_weather feed_dict single_s2e single_df
              single_rows 101 single_rows_Ok) as (final_df & Hrun & _ & Hlag).
  { discriminate. }
  { apply elem_of_edge_set. exists "c1", (Assoc.mk 101 30 "c1"). split; reflexivity. }
  assert (final_df = lag_columns single_rows) as -> by (by injection Hrun).
  assert (exists f, filter (fun f => Row.edge_id (Final.row f) = 101)
                      (lag_columns single_rows) !! 1%nat = Some f
                    /\ Row.key (Final.row f) = (101, 7200)) as (f & Hf & Hkey)
    by (vm_compute; eexists; split; reflexivity).
  exists (lag_columns single_rows), f. split; [reflexivity|]. split; [exact Hf|].
  split; [exact Hkey|].
  destruct (Hlag 1%nat f Hf) as (-> & _). split; vm_compute; reflexivity.
Defined.

Lemma NoDup_fmap_eq {A K} (key : A -> K) (l : list A) x y :
  NoDup (key <$> l) -> x ∈ l -> y ∈ l -> key x = key y -> x = y.
Proof.
  induction l as [|a l IH]; [by intros _ ?%elem_of_nil|].
  rewrite fmap_cons. intros [Hnin Hnd]%NoDup_cons.
  intros [->|Hx]%elem_of_cons [->|Hy]%elem_of_cons Hk; [done| | |by apply IH].
  - exfalso. apply Hnin. rewrite Hk. by apply list_elem_of_fmap_2.
  - exfalso. apply Hnin. rewrite <- Hk. by apply list_elem_of_fmap_2.
Qed.

Lemma sort_values_unique rows rows' :
  rows ≡ₚ rows' -> NoDup (Row.key <$> rows) -> sort_values rows = sort_values rows'.
Proof.
  intros Hperm Hnd. unfold sort_values.
  apply (StronglySorted_unique_strong row_le).
  - intros x1 x2 Hx1 Hx2 H12 H21.
    rewrite merge_sort_Permutation in Hx1. rewrite merge_sort_Permutation, <- Hperm in Hx2.
    apply (NoDup_fmap_eq Row.key rows); [done..|].
    unfold row_le in *. unfold Row.key. f_equal; lia.
  - apply StronglySorted_merge_sort; apply _.
  - apply StronglySorted_merge_sort; apply _.
  - by rewrite !merge_sort_Permutation.
Qed.

(** X15: the final table does not depend on the order in which the grid
    rows were generated: when the (edge, timestamp) keys are pairwise
    distinct, as they are in the grid, any reordering of the rows is sorted
    into the same list and gets the same lag columns, whatever the sorting
    algorithm does with equal keys. *)
Theorem lag_features_order_independent (rows rows' : list Row.t) :
  rows ≡ₚ rows' -> NoDup (Row.key <$> rows) ->
  sort_values rows = sort_values rows' /\ lag_features rows = lag_features rows'.
Proof.
  intros Hperm Hnd. pose proof (sort_values_unique rows rows' Hperm Hnd) as Hsort.
  split; [done|]. unfold lag_features, lag_columns. rewrite Hsort.
  destruct rows as [|r rows], rows' as [|r' rows']; try done.
  - by apply Permutation_nil_cons in Hperm.
  - symmetry in Hperm. by apply Permutation_nil_cons in Hperm.
Qed.


Lemma lag_features_order_independent_witness :
  sort_values feed_rows = sort_values (reverse feed_rows)
  /\ lag_features feed_rows = lag_features (reverse feed_rows).
Proof.
  apply (lag_features_order_independent feed_rows (reverse feed_rows)).
  - symmetry. apply reverse_Permutation.
  - apply (bool_decide_unpack _). vm_compute. exact I.
Defined.

Lemma sumZ_bounds lo hi (obs : list Z) :
  (forall v, v ∈ obs -> lo <= v <= hi) ->
  lo * Z.of_nat (length obs) <= sumZ obs <= hi * Z.of_nat (length obs).
Proof.
  induction obs as [|v obs IH]; intros Hall; [simpl; lia|].
  destruct (Hall v) as [? ?]; [by left|].
  destruct IH as [? ?]; [intros; apply Hall; by right|].
  rewrite length_cons. unfold sumZ in *. cbn [foldr]. nia.
Qed.

Lemma mean_bounds lo hi (obs : list Z) :
  obs <> [] -> (forall v, v ∈ obs -> lo <= v <= hi) ->
  (inject_Z lo <= mean obs)%Q /\ (mean obs <= inject_Z hi)%Q.
Proof.
  intros Hne Hall. destruct (sumZ_bounds lo hi obs Hall) as [Hlo Hhi].
  assert (0 < inject_Z (Z.of_nat (length obs)))%Q as Hpos.
  { change 0%Q with (inject_Z 0). rewrite <- Zlt_Qlt. destruct obs; [done|]. simpl. lia. }
  unfold mean. rewrite Qred_correct. split.
  - apply Qle_shift_div_l; [done|]. rewrite <- inject_Z_mult, <- Zle_Qle. done.
  - apply Qle_shift_div_r; [done|]. rewrite <- inject_Z_mult, <- Zle_Qle. done.
Qed.

(** X16: with a minimum of one observation, the rolling mean at a row is
    null exactly when no value is present in its window, and otherwise lies
    between any two bounds of the values present in the window: it is never
    negative when the counts are not, and never above the largest count. *)
Theorem rolling_mean_bounds (window : nat) (x : list (option Z)) (i : nat) (lo hi : Z) :
  (forall v, Some v ∈ window_at window x i -> lo <= v <= hi) ->
  (rolling_mean_at window 1 x i = None
   <-> forall v, Some v ∉ window_at window x i)
  /\ forall q, rolling_mean_at window 1 x i = Some q ->
       (inject_Z lo <= q)%Q /\ (q <= inject_Z hi)%Q.
Proof.
  intros Hall. unfold rolling_mean_at.
  set (obs := omap id (window_at window x i)).
  assert (forall v, v ∈ obs <-> Some v ∈ window_at window x i) as Hobs.
  { intros v. unfold obs. rewrite list_elem_of_omap. split.
    - intros (o & Ho & Heq). unfold id in Heq. by subst o.
    - intros Hv. by exists (Some v). }
  destruct obs as [|v obs'] eqn:Hobs_eq.
  - split; [|done]. split; [|done]. intros _ v Hv. apply Hobs in Hv. by apply elem_of_nil in Hv.
  - cbn [length Nat.ltb Nat.leb Nat.eqb orb]. split.
    + split; [done|]. intros Hnone. exfalso. apply (Hnone v), Hobs. by left.
    + intros q [= <-]. apply mean_bounds; [done|]. intros v' Hv'. by apply Hall, Hobs.
Qed.

(** A window of 10, null and 30: the mean of the two values present. *)
Lemma rolling_mean_bounds_witness :
  rolling_mean_at 168 1 [Some 10; None; Some 30] 2 = Some 20%Q
  /\ (inject_Z 10 <= 20)%Q /\ (20 <= inject_Z 30)%Q.
Proof.
  split; [vm_compute; reflexivity|].
  apply (proj2 (rolling_mean_bounds 168 [Some 10; None; Some 30] 2 10 30
                  ltac:(intros v Hv; apply list_elem_of_In in Hv; simpl in Hv;
                        destruct Hv as [[= <-]|[[=]|[[= <-]|[]]]]; lia)) 20%Q).
  vm_compute. reflexivity.
Defined.

(** ** Prediction against training *)

(** X17: the weather flags of the prediction script use other thresholds
    than those of the training rows (cold below 5 instead of 10, hot above
    30 instead of 25, windy above 30 instead of 20). For the same weather
    record a flag set at prediction is set in training, and the two differ
    exactly for a temperature in [5, 10), a temperature in (25, 30] and a
    wind speed in (20, 30] respectively; a missing value clears both. *)
Theorem weather_flags_thresholds_differ (dict : gmap Z Static.t)
    (lookup : gmap (Z * Z) Z) (ts : Z) (w : Weather.t) (e : Z) (r : Row.t) :
  make_row dict lookup ts w e = Ok r ->
  (Prediction.is_cold w = 1 -> Row.is_cold r = true)
  /\ (Prediction.is_hot w = 1 -> Row.is_hot r = true)
  /\ (Prediction.is_windy w = 1 -> Row.is_windy r = true)
  /\ (Predict.int (Row.is_cold r) <> Prediction.is_cold w
      <-> exists t, Weather.temperature_c w = Some t /\ (5 <= t)%Q /\ (t < 10)%Q)
  /\ (Predict.int (Row.is_hot r) <> Prediction.is_hot w
      <-> exists t, Weather.temperature_c w = Some t /\ (25 < t)%Q /\ (t <= 30)%Q)
  /\ (Predict.int (Row.is_windy r) <> Prediction.is_windy w
      <-> exists v, Weather.wind_speed_kmh w = Some v /\ (20 < v)%Q /\ (v <= 30)%Q).
Proof.
  unfold make_row. destruct (dict !! e); [|done]. intros [= <-]. simpl.
  unfold Prediction.is_cold, Prediction.is_hot, Prediction.is_windy, lt_or_false, gt_or_false.
  destruct (Weather.temperature_c w) as [temp|], (Weather.wind_speed_kmh w) as [wind|].
  all: split_and!.
  all: repeat match goal with
       | |- context [Qlt_bool ?a ?b] =>
           let H := fresh "H" in
           destruct (Qlt_bool a b) eqn:H;
           [apply Qlt_bool_iff in H
           |apply not_true_iff_false in H; rewrite Qlt_bool_iff in H]
       end; simpl.
  all: try done.
  all: try (split; [done | intros (x & [= <-] & ? & ?); lra]).
  all: try (split; [intros _; eexists; split; [done|]; lra | done]).
  all: try (split; [done | by intros (x & [=] & _)]).
  all: try (intros _; exfalso; lra).
Qed.


(** 8 degrees and 25 km/h of wind: cold and windy for training, neither for
    prediction. *)
Lemma weather_flags_thresholds_differ_witness :
  exists r, make_row feed_dict ∅ 0 chilly 101 = Ok r
    /\ Predict.int (Row.is_cold r) <> Prediction.is_cold chilly
    /\ Predict.int (Row.is_windy r) <> Prediction.is_windy chilly
    /\ Row.is_cold r = true /\ Prediction.is_cold chilly = 0.
Proof.
  assert (exists r, make_row feed_dict ∅ 0 chilly 101 = Ok r
                    /\ Row.is_cold r = true) as (r & Hr & Hcold)
    by (vm_compute; eexists; split; reflexivity).
  exists r. split; [exact Hr|].
  destruct (weather_flags_thresholds_differ feed_dict ∅ 0 chilly 101 r Hr)
    as (_ & _ & _ & Hc & _ & Hw).
  split_and!; [| | exact Hcold | reflexivity].
  - apply Hc. exists 8%Q. split; [reflexivity|]. split; [discriminate | reflexivity].
  - apply Hw. exists 25%Q. split; [reflexivity|]. split; [reflexivity | discriminate].
Defined.

Lemma time_diff_lookup weather_df target i w :
  weather_df !! i = Some w ->
  Prediction.time_diff weather_df target !! i
  = Some (inject_Z (Z.abs (Weather.timestamp w - target))).
Proof. intros Hi. unfold Prediction.time_diff. by rewrite list_lookup_fmap, Hi. Qed.

Lemma closest_weather_Ok weather_df target :
  weather_df <> [] ->
  exists i w, Prediction.closest_weather weather_df target = Ok w
    /\ weather_df !! i = Some w
    /\ (forall w', w' ∈ weather_df ->
          Z.abs (Weather.timestamp w - target) <= Z.abs (Weather.timestamp w' - target))
    /\ (forall j w', (j < i)%nat -> weather_df !! j = Some w' ->
          Z.abs (Weather.timestamp w - target) < Z.abs (Weather.timestamp w' - target)).
Proof.
  intros Hne. unfold Prediction.closest_weather.
  destruct (idxmin_spec (Prediction.time_diff weather_df target))
    as (i & d & Hidx & Hi & Hmin & Hfirst).
  { unfold Prediction.time_diff. by destruct weather_df. }
  rewrite Hidx. cbn [rbind].
  unfold Prediction.time_diff in Hi. rewrite list_lookup_fmap in Hi.
  destruct (weather_df !! i) as [w|] eqn:Hw; [|done]. injection Hi as <-.
  exists i, w. split_and!; [by destruct weather_df | done | |].
  - intros w' [j Hj]%list_elem_of_lookup_1. rewrite Zle_Qle. apply Hmin.
    eapply list_elem_of_lookup_2. by apply time_diff_lookup.
  - intros j w' Hji Hj. rewrite Zlt_Qlt. apply (Hfirst j); [done|].
    by apply time_diff_lookup.
Qed.

(** X18: at prediction the weather record is the one closest in time to
    the target, before or after it, the first of the frame among equally
    close ones; on a frame without record the selection raises KeyError. *)
Theorem closest_weather_nearest (weather_df : list Weather.t) (target_datetime : Z) :
  (weather_df = [] -> Prediction.closest_weather weather_df target_datetime = Raise KeyError)
  /\ (weather_df <> [] ->
      exists i w, Prediction.closest_weather weather_df target_datetime = Ok w
        /\ weather_df !! i = Some w
        /\ (forall w', w' ∈ weather_df ->
              Z.abs (Weather.timestamp w - target_datetime)
              <= Z.abs (Weather.timestamp w' - target_datetime))
        /\ (forall j w', (j < i)%nat -> weather_df !! j = Some w' ->
              Z.abs (Weather.timestamp w - target_datetime)
              < Z.abs (Weather.timestamp w' - target_datetime))).
Proof.
  split; [by intros ->|]. intros Hne.
  destruct (closest_weather_Ok weather_df target_datetime Hne)
    as (i & w & Hrun & Hi & Hmin & Hfirst).
  exists i, w. split_and!; [exact Hrun | exact Hi | exact Hmin | exact Hfirst].
Qed.


Lemma closest_weather_nearest_witness :
  exists i w, Prediction.closest_weather feed_weather 6000 = Ok w
    /\ feed_weather !! i = Some w
    /\ (forall w', w' ∈ feed_weather ->
          Z.abs (Weather.timestamp w - 6000) <= Z.abs (Weather.timestamp w' - 6000))
    /\ (forall j w', (j < i)%nat -> feed_weather !! j = Some w' ->
          Z.abs (Weather.timestamp w - 6000) < Z.abs (Weather.timestamp w' - 6000)).
Proof. apply (proj2 (closest_weather_nearest feed_weather 6000)). discriminate. Defined.

Lemma head_filter_first {A} (P : A -> Prop) `{forall x, Decision (P x)} (l : list A) i x :
  l !! i = Some x -> P x -> (forall j y, (j < i)%nat -> l !! j = Some y -> ~ P y) ->
  head (filter P l) = Some x.
Proof.
  revert i. induction l as [|a l IH]; intros i Hi Hx Hfirst; [done|].
  rewrite filter_cons. destruct i as [|i].
  - injection Hi as ->. by rewrite decide_True.
  - rewrite decide_False by (apply (Hfirst 0%nat); [lia | done]).
    apply (IH i); [done | done |]. intros j y Hj Hy. apply (Hfirst (S j)); [lia | done].
Qed.

(** X19: when a record has exactly the requested timestamp, prediction and
    training select the same weather record; in general the record that
    prediction selects is at least as close in time to the timestamp as the
    one that training selects. *)
Theorem closest_weather_vs_training (weather_df : list Weather.t) (ts : Z) :
  ((exists w, w ∈ weather_df /\ Weather.timestamp w = ts) ->
   Prediction.closest_weather weather_df ts = weather_row weather_df ts)
  /\ (forall w_pred w_train,
        Prediction.closest_weather weather_df ts = Ok w_pred ->
        weather_row weather_df ts = Ok w_train ->
        Z.abs (Weather.timestamp w_pred - ts) <= Z.abs (Weather.timestamp w_train - ts)).
Proof.
  split.
  - intros (w0 & Hin & Hts).
    assert (weather_df <> []) as Hne by (intros ->; by apply elem_of_nil in Hin).
    destruct (closest_weather_Ok weather_df ts Hne) as (i & w & -> & Hi & Hmin & Hfirst).
    assert (Weather.timestamp w = ts) as Hw.
    { specialize (Hmin w0 Hin). rewrite Hts in Hmin. lia. }
    assert (head (filter (fun w => Weather.timestamp w = ts) weather_df) = Some w) as Hhead.
    { apply (head_filter_first _ _ i); [done | done |].
      intros j y Hj Hy Hyts. specialize (Hfirst j y Hj Hy). rewrite Hw, Hyts in Hfirst. lia. }
    rewrite weather_row_eq by done.
    destruct (filter (fun w => Weather.timestamp w = ts) weather_df) as [|x exact]; [done|].
    by injection Hhead as ->.
  - intros w_pred w_train Hpred Htrain.
    assert (w_train ∈ weather_df) as Hin by by eapply weather_row_elem.
    assert (weather_df <> []) as Hne by (intros ->; by apply elem_of_nil in Hin).
    destruct (closest_weather_Ok weather_df ts Hne) as (i & w & Hw & Hi & Hmin & _).
    rewrite Hw in Hpred. injection Hpred as <-. by apply Hmin.
Qed.


(** An exact match at 3600; at 6000 training keeps the record of 3600 and
    prediction takes the one of 7200. *)
Lemma closest_weather_vs_training_witness :
  Prediction.closest_weather feed_weather 3600 = weather_row feed_weather 3600
  /\ Z.abs (7200 - 6000) <= Z.abs (3600 - 6000).
Proof.
  split.
  - apply (proj1 (closest_weather_vs_training feed_weather 3600)).
    exists (Weather.mk 3600 (Some 9%Q) (Some 0%Q) (Some 25%Q) false).
    split; [right; left | reflexivity].
  - apply (proj2 (closest_weather_vs_training feed_weather 6000)
             (Weather.mk 7200 (Some 11%Q) (Some (1 # 2)%Q) (Some 30%Q) true)
             (Weather.mk 3600 (Some 9%Q) (Some 0%Q) (Some 25%Q) false));
      vm_compute; reflexivity.
Defined.

(** X25: without any weather file the prediction script works on one
    default record (15 degrees, no rain, 10 km/h of wind) and selects it;
    the selection raises KeyError exactly when weather files exist but hold
    no record at all, and it raises nothing else. *)
Theorem closest_weather_frame (weather_files : list (list Weather.t)) (target_datetime : Z) :
  (weather_files = [] ->
   Prediction.closest_weather (Prediction.weather_frame weather_files target_datetime)
     target_datetime
   = Ok (Weather.mk target_datetime (Some 15%Q) (Some 0%Q) (Some 10%Q) false))
  /\ (Prediction.closest_weather (Prediction.weather_frame weather_files target_datetime)
        target_datetime = Raise KeyError
      <-> weather_files <> [] /\ mjoin weather_files = [])
  /\ (forall e,
        Prediction.closest_weather (Prediction.weather_frame weather_files target_datetime)
          target_datetime = Raise e -> e = KeyError).
Proof.
  assert (forall df, df <> [] ->
            forall e, Prediction.closest_weather df target_datetime <> Raise e) as Hok.
  { intros df Hne e He.
    destruct (closest_weather_Ok df target_datetime Hne) as (i & w & Hw & _).
    congruence. }
  split_and!.
  - by intros ->.
  - split.
    + intros Hraise. destruct weather_files as [|file files]; [done|]. split; [done|].
      unfold Prediction.weather_frame in Hraise.
      destruct (mjoin (file :: files)) as [|w l]; [done|].
      exfalso. by apply (Hok (w :: l)) in Hraise.
    + intros [Hne Hempty]. destruct weather_files as [|file files]; [done|].
      unfold Prediction.weather_frame. by rewrite Hempty.
  - intros e He. destruct weather_files as [|file files]; [done|].
    unfold Prediction.weather_frame in He.
    destruct (mjoin (file :: files)) as [|w l] eqn:Hjoin.
    + by injection He.
    + exfalso. by apply (Hok (w :: l)) in He.
Qed.

(** No file, and one file without record. *)
Lemma closest_weather_frame_witness :
  Prediction.closest_weather (Prediction.weather_frame [] 6000) 6000
  = Ok (Weather.mk 6000 (Some 15%Q) (Some 0%Q) (Some 10%Q) false)
  /\ Prediction.closest_weather (Prediction.weather_frame [[]] 6000) 6000 = Raise KeyError.
Proof.
  split.
  - apply (proj1 (closest_weather_frame [] 6000)). reflexivity.
  - apply (proj1 (proj2 (closest_weather_frame [[]] 6000))). split; [discriminate | reflexivity].
Defined.

(** ** Label encoding *)

Lemma transform_seen classes_ x :
  x ∈ classes_ ->
  exists i, Training.transform classes_ x = Ok (Z.of_nat i) /\ classes_ !! i = Some x.
Proof.
  intros Hx. unfold Training.transform.
  destruct (list_find_elem_of (fun c => c = x) classes_ x Hx eq_refl) as [[i c] Hfind].
  rewrite Hfind. apply list_find_Some in Hfind as (Hi & -> & _). by exists i.
Qed.

Lemma transform_unseen classes_ x :
  x ∉ classes_ -> Training.transform classes_ x = Raise ValueError.
Proof.
  intros Hx. unfold Training.transform.
  destruct (list_find _ classes_) as [[i c]|] eqn:Hfind; [|done].
  apply list_find_Some in Hfind as (Hi & -> & _).
  destruct Hx. by eapply list_elem_of_lookup_2.
Qed.

Lemma elem_of_fit y x : x ∈ Training.fit y <-> x ∈ y.
Proof. unfold Training.fit. by rewrite merge_sort_Permutation, elem_of_remove_dups. Qed.

Lemma NoDup_fit y : NoDup (Training.fit y).
Proof. unfold Training.fit. rewrite merge_sort_Permutation. apply NoDup_remove_dups. Qed.

(** X20: the label encoding of a column never fails at training; it gives
    every value of the column a code between 0 and the number of classes
    minus one, which is the position of the value in the saved classes, and
    the prediction script gives the same value the same code; two values
    with the same non-negative code are equal; a value that the column does
    not hold gets -1 at prediction, where training's own [transform] would
    raise ValueError. *)
Theorem label_encoding_consistent (y : list pystr) :
  exists codes,
    Training.fit_transform y = Ok (Training.fit y, codes)
    /\ length codes = length y
    /\ (forall i v, y !! i = Some v ->
          exists c, codes !! i = Some c
            /\ Prediction.encode (Training.fit y) v = Ok c
            /\ 0 <= c < Z.of_nat (length (Training.fit y))
            /\ Training.fit y !! Z.to_nat c = Some v)
    /\ (forall v v' c, Prediction.encode (Training.fit y) v = Ok c ->
          Prediction.encode (Training.fit y) v' = Ok c -> 0 <= c -> v = v')
    /\ (forall x, x ∉ y ->
          Prediction.encode (Training.fit y) x = Ok (-1)
          /\ Training.transform (Training.fit y) x = Raise ValueError).
Proof.
  assert (forall v, v ∈ y -> exists i : nat,
            Training.transform (Training.fit y) v = Ok (Z.of_nat i)
            /\ Training.fit y !! i = Some v) as Hseen.
  { intros v Hv. apply transform_seen. by apply elem_of_fit. }
  destruct (for_each_total (Training.transform (Training.fit y)) y) as [codes Hcodes].
  { intros v Hv. destruct (Hseen v Hv) as (i & -> & _). by eexists. }
  exists codes. unfold Training.fit_transform. rewrite Hcodes. simpl.
  apply for_each_inv in Hcodes. split_and!; [done | | | |].
  - symmetry. by eapply Forall2_length.
  - intros i v Hi.
    destruct (Forall2_lookup_l _ _ _ _ _ Hcodes Hi) as (c & Hc & Hrun).
    exists c. split; [done|].
    destruct (Hseen v) as (k & Hk & Hcls); [by eapply list_elem_of_lookup_2|].
    assert (c = Z.of_nat k) as -> by congruence.
    unfold Prediction.encode. rewrite bool_decide_eq_true_2
      by (apply elem_of_fit; by eapply list_elem_of_lookup_2).
    split_and!; [done | lia | | by rewrite Nat2Z.id].
    apply lookup_lt_Some in Hcls. lia.
  - unfold Prediction.encode. intros v v' c Hv Hv' Hc.
    destruct (decide (v ∈ Training.fit y)) as [Hin|Hout];
      [rewrite bool_decide_eq_true_2 in Hv by done
      |rewrite bool_decide_eq_false_2 in Hv by done; injection Hv as <-; lia].
    destruct (decide (v' ∈ Training.fit y)) as [Hin'|Hout'];
      [rewrite bool_decide_eq_true_2 in Hv' by done
      |rewrite bool_decide_eq_false_2 in Hv' by done; injection Hv' as <-; lia].
    destruct (transform_seen _ _ Hin) as (i & Hi & Hcls).
    destruct (transform_seen _ _ Hin') as (i' & Hi' & Hcls').
    rewrite Hi in Hv. rewrite Hi' in Hv'.
    assert (i = i') as Heq by (injection Hv; injection Hv'; lia).
    rewrite Heq in Hcls. congruence.
  - intros x Hx. rewrite <- elem_of_fit in Hx. split.
    + unfold Prediction.encode. by rewrite bool_decide_eq_false_2.
    + by apply transform_unseen.
Qed.


Lemma label_encoding_consistent_witness :
  exists codes,
    Training.fit_transform highway_column = Ok (Training.fit highway_column, codes)
    /\ codes = [1; 0; 1]
    /\ Prediction.encode (Training.fit highway_column) (lit "residential") = Ok 1
    /\ Prediction.encode (Training.fit highway_column) (lit "track") = Ok (-1).
Proof.
  destruct (label_encoding_consistent highway_column) as (codes & Hrun & _ & _ & _ & Hnew).
  exists codes. split; [exact Hrun|].
  assert (codes = [1; 0; 1]) as Hcodes.
  { assert (Training.fit_transform highway_column
            = Ok (Training.fit highway_column, [1; 0; 1])) as Hrun'
      by (vm_compute; reflexivity).
    rewrite Hrun in Hrun'. by injection Hrun'. }
  split; [exact Hcodes|]. split; [vm_compute; reflexivity|].
  apply (Hnew (lit "track")). vm_compute. intros Hin. apply list_elem_of_In in Hin.
  simpl in Hin. destruct Hin as [[=]|[[=]|[[=]|[]]]].
Defined.

(** ** The predicted count *)

Lemma astype_int_integer (n : Z) :
  Prediction.int64_min <= n <= Prediction.int64_max ->
  Prediction.astype_int (Some (inject_Z n)) = Ok n.
Proof.
  intros Hn. unfold Prediction.astype_int.
  assert ((if Qlt_le_dec (inject_Z n) 0 then Qceiling (inject_Z n) else Qfloor (inject_Z n))
          = n) as ->.
  { destruct (Qlt_le_dec _ _); [apply Qceiling_Z | apply Qfloor_Z]. }
  destruct (Z.leb_spec Prediction.int64_min n); [|lia].
  destruct (Z.leb_spec n Prediction.int64_max); [done | lia].
Qed.

Lemma clip_lower_0_nonneg y : (0 <= Prediction.clip_lower_0 y)%Q.
Proof. unfold Prediction.clip_lower_0. destruct (Qlt_le_dec y 0); lra. Qed.

Lemma clip_lower_0_mono y y' :
  (y <= y')%Q -> (Prediction.clip_lower_0 y <= Prediction.clip_lower_0 y')%Q.
Proof.
  unfold Prediction.clip_lower_0. destruct (Qlt_le_dec y 0), (Qlt_le_dec y' 0); lra.
Qed.

Lemma bike_count_predicted_Ok (prediction : Q) :
  (prediction <= inject_Z Prediction.int64_max)%Q ->
  Prediction.bike_count_predicted (Some prediction)
  = Ok (rint (Prediction.clip_lower_0 prediction)).
Proof.
  intros Hmax. unfold Prediction.bike_count_predicted. cbn [fmap option_fmap option_map].
  apply astype_int_integer. split.
  - pose proof (rint_nonneg _ (clip_lower_0_nonneg prediction)).
    unfold Prediction.int64_min. lia.
  - apply rint_le_integer. unfold Prediction.clip_lower_0.
    destruct (Qlt_le_dec prediction 0); [|done].
    rewrite <- (Zle_Qle 0). unfold Prediction.int64_max. lia.
Qed.

(** X21: a model output that is NaN makes the conversion raise; for a
    model output of at most 2^63 - 1, the predicted count written to the
    output is a non-negative integer within one half of the output clipped
    at zero, it is 0 for every output of at most 0.5, and a larger output
    never gives a smaller count; an output of 2^63 - 1/2 or more is beyond
    int64 and gives the least int64. *)
Theorem bike_count_predicted_bounds (prediction : Q) :
  Prediction.bike_count_predicted None = Raise ValueError
  /\ ((prediction <= inject_Z Prediction.int64_max)%Q ->
      exists n,
        Prediction.bike_count_predicted (Some prediction) = Ok n
        /\ 0 <= n
        /\ (Qabs (inject_Z n - Prediction.clip_lower_0 prediction) <= 1 # 2)%Q
        /\ ((prediction <= 1 # 2)%Q -> n = 0)
        /\ forall prediction' n',
             (prediction <= prediction')%Q ->
             (prediction' <= inject_Z Prediction.int64_max)%Q ->
             Prediction.bike_count_predicted (Some prediction') = Ok n' -> n <= n')
  /\ ((inject_Z Prediction.int64_max + (1 # 2) <= prediction)%Q ->
      Prediction.bike_count_predicted (Some prediction) = Ok Prediction.int64_min).
Proof.
  split; [done|]. split.
  - intros Hmax. exists (rint (Prediction.clip_lower_0 prediction)).
    split; [by apply bike_count_predicted_Ok|].
    pose proof (clip_lower_0_nonneg prediction) as Hclip. split_and!.
    + by apply rint_nonneg.
    + apply Qabs_Qle_condition.
      destruct (rint_close (Prediction.clip_lower_0 prediction)). split; lra.
    + intros Hp. pose proof (rint_nonneg _ Hclip) as Hge.
      assert (rint (Prediction.clip_lower_0 prediction) <= rint (1 # 2)) as Hle.
      { apply rint_mono. unfold Prediction.clip_lower_0.
        destruct (Qlt_le_dec prediction 0); lra. }
      change (rint (1 # 2)) with 0 in Hle. lia.
    + intros prediction' n' Hpp Hmax'. rewrite bike_count_predicted_Ok by done.
      intros [= <-]. by apply rint_mono, clip_lower_0_mono.
  - intros Hbig. unfold Prediction.bike_count_predicted, Prediction.astype_int.
    cbn [fmap option_fmap option_map].
    assert (Prediction.int64_max + 1 <= rint (Prediction.clip_lower_0 prediction)) as Hr.
    { change (Prediction.int64_max + 1)
        with (rint (inject_Z Prediction.int64_max + (1 # 2))).
      apply rint_mono. unfold Prediction.clip_lower_0.
      destruct (Qlt_le_dec prediction 0) as [Hneg|]; [|done].
      assert (0 <= inject_Z Prediction.int64_max)%Q by done. lra. }
    set (n := rint (Prediction.clip_lower_0 prediction)) in *.
    assert ((if Qlt_le_dec (inject_Z n) 0 then Qceiling (inject_Z n) else Qfloor (inject_Z n))
            = n) as ->.
    { destruct (Qlt_le_dec _ _); [apply Qceiling_Z | apply Qfloor_Z]. }
    destruct (Z.leb_spec n Prediction.int64_max); [lia|].
    by rewrite andb_false_r.
Qed.

(** -1.5 gives 0, 0.5 gives 0 and 2.5 gives 2: halves go to the even
    neighbour; 2^63 gives the least int64. *)
Lemma bike_count_predicted_bounds_witness :
  (exists n, Prediction.bike_count_predicted (Some (-3 # 2)%Q) = Ok n /\ n = 0)
  /\ (exists n, Prediction.bike_count_predicted (Some (1 # 2)%Q) = Ok n /\ n = 0)
  /\ (exists n, Prediction.bike_count_predicted (Some (5 # 2)%Q) = Ok n /\ 0 <= n /\ n = 2)
  /\ Prediction.bike_count_predicted (Some 9223372036854775808%Q)
     = Ok (-9223372036854775808).
Proof.
  split_and!.
  - destruct (proj1 (proj2 (bike_count_predicted_bounds (-3 # 2))) ltac:(discriminate))
      as (n & Hn & _ & _ & H0 & _).
    exists n. split; [done|]. apply H0. discriminate.
  - destruct (proj1 (proj2 (bike_count_predicted_bounds (1 # 2))) ltac:(discriminate))
      as (n & Hn & _ & _ & H0 & _).
    exists n. split; [done|]. apply H0. discriminate.
  - destruct (proj1 (proj2 (bike_count_predicted_bounds (5 # 2))) ltac:(discriminate))
      as (n & Hn & Hpos & _).
    exists n. split_and!; [done | done |]. by injection Hn as <-.
  - apply (proj2 (proj2 (bike_count_predicted_bounds 9223372036854775808))). discriminate.
Defined.

(** ** The train/test split *)

Lemma StronglySorted_fmap_inv {A B} (f : A -> B) (R : relation B) (l : list A) :
  StronglySorted R (f <$> l) -> StronglySorted (fun a b => R (f a) (f b)) l.
Proof.
  induction l as [|a l IH]; [constructor|].
  rewrite fmap_cons. intros [Ha Hl]%StronglySorted_cons. constructor; [by apply IH|].
  apply Forall_forall. intros b Hb. rewrite Forall_forall in Ha. apply Ha.
  by apply list_elem_of_fmap_2.
Qed.

Lemma StronglySorted_filter {A} (R : relation A) (P : A -> Prop) `{forall x, Decision (P x)}
    (l : list A) :
  StronglySorted R l -> StronglySorted R (filter P l).
Proof.
  induction 1 as [|a l _ IH Ha]; [constructor|].
  rewrite filter_cons. case_decide; [|done]. constructor; [done|].
  apply Forall_forall. intros b [_ Hb]%list_elem_of_filter.
  rewrite List.Forall_forall in Ha. apply Ha. by apply list_elem_of_In.
Qed.

(** X22: the split of the training script is positional over the rows
    that have a target, in the order of the final table: the first
    floor(0.8 n) rows train, the others test, and the test part is not
    empty when there is a row. As the table is sorted by edge identifier
    and then timestamp, every training row precedes every test row in that
    order: a test row is of an edge with a larger identifier, or of the
    same edge at a later or equal timestamp. *)
Theorem train_test_split_by_position (rows : list Row.t) (final_df train test : list Final.t) :
  lag_features rows = Ok final_df ->
  Training.train_test_split final_df = (train, test) ->
  train ++ test = Training.df_valid final_df
  /\ length train = (4 * length (Training.df_valid final_df) / 5)%nat
  /\ (Training.df_valid final_df <> [] -> test <> [])
  /\ forall a b, a ∈ train -> b ∈ test ->
       Row.edge_id (Final.row a) < Row.edge_id (Final.row b)
       \/ (Row.edge_id (Final.row a) = Row.edge_id (Final.row b)
           /\ Row.timestamp (Final.row a) <= Row.timestamp (Final.row b)).
Proof.
  intros Hlag [= <- <-].
  assert (final_df = lag_columns rows) as -> by (destruct rows; by simplify_eq/=).
  set (valid := Training.df_valid (lag_columns rows)).
  assert (Training.split_idx (length valid) <= length valid)%nat as Hidx.
  { unfold Training.split_idx. apply Nat.Div0.div_le_upper_bound. lia. }
  split_and!.
  - apply take_drop.
  - rewrite length_take. unfold Training.split_idx in *. lia.
  - intros Hne Hdrop. apply (f_equal length) in Hdrop.
    rewrite length_drop in Hdrop. simpl in Hdrop.
    assert (length valid <> 0)%nat as Hlen by (destruct valid; simpl; [done|lia]).
    unfold Training.split_idx in *.
    assert (4 * length valid / 5 < length valid)%nat; [|lia].
    apply Nat.Div0.div_lt_upper_bound. lia.
  - assert (StronglySorted (fun a b => row_le (Final.row a) (Final.row b)) valid) as Hs.
    { apply StronglySorted_filter, StronglySorted_fmap_inv.
      rewrite lag_columns_row. apply StronglySorted_merge_sort; apply _. }
    rewrite <- (take_drop (Training.split_idx (length valid)) valid) in Hs.
    intros a b Ha Hb. apply (StronglySorted_app_1_elem_of _ _ _ _ _ Hs Ha Hb).
Qed.

(** The five rows with a target of the small feed: four train, one tests. *)
Lemma train_test_split_by_position_witness :
  length (Training.train_test_split feed_final).1 = 4%nat
  /\ (fun f => Row.key (Final.row f)) <$> (Training.train_test_split feed_final).2
     = [(102, 7200)]
  /\ forall a b, a ∈ (Training.train_test_split feed_final).1 ->
       b ∈ (Training.train_test_split feed_final).2 ->
       Row.edge_id (Final.row a) < Row.edge_id (Final.row b)
       \/ (Row.edge_id (Final.row a) = Row.edge_id (Final.row b)
           /\ Row.timestamp (Final.row a) <= Row.timestamp (Final.row b)).
Proof.
  destruct (train_test_split_by_position feed_rows feed_final
              (Training.train_test_split feed_final).1
              (Training.train_test_split feed_final).2)
    as (_ & Hlen & _ & Hord); [reflexivity | reflexivity |].
  split; [rewrite Hlen; vm_compute; reflexivity|].
  split; [vm_compute; reflexivity | exact Hord].
Defined.

(** ** The collector of the count data *)

Lemma stats_fold (series : list Count.t) (d : gmap string Collector.stats) id :
  foldl Collector.stats_step d series !! id
  = match Count.count <$> filter (fun r => Count.counter_id r = id) series with
    | [] => d !! id
    | cs => Some (foldl Collector.update
                    (default (Collector.mk_stats 0 0 0 None) (d !! id)) cs)
    end.
Proof.
  revert d. induction series as [|r series IH]; intros d; [done|].
  cbn [foldl]. rewrite IH, filter_cons. unfold Collector.stats_step.
  destruct (decide (Count.counter_id r = id)) as [<-|Hne].
  - rewrite lookup_insert_eq, fmap_cons. simpl.
    by destruct (Count.count <$> filter _ series).
  - by rewrite lookup_insert_ne.
Qed.

Lemma update_fold (cs : list Z) (s : Collector.stats) :
  Collector.total (foldl Collector.update s cs) = Collector.total s + sumZ cs
  /\ Collector.count (foldl Collector.update s cs)
     = Collector.count s + Z.of_nat (length cs)
  /\ Collector.max s <= Collector.max (foldl Collector.update s cs)
  /\ (forall c, c ∈ cs -> c <= Collector.max (foldl Collector.update s cs))
  /\ (Collector.max (foldl Collector.update s cs) = Collector.max s
      \/ Collector.max (foldl Collector.update s cs) ∈ cs).
Proof.
  revert s. induction cs as [|c cs IH]; intros s.
  { split_and!; simpl; [lia | lia | lia | by intros c ?%elem_of_nil | by left]. }
  cbn [foldl]. destruct (IH (Collector.update s c)) as (Ht & Hc & Hmax & Hle & Hin).
  rewrite Ht, Hc. unfold sumZ. cbn [foldr length]. simpl in Hmax.
  split_and!; [simpl; lia | simpl; lia | lia | |].
  - intros c' [->|Hc']%elem_of_cons; [lia | by apply Hle].
  - destruct Hin as [Heq|Hin]; [|right; by right]. rewrite Heq. simpl.
    destruct (Z.max_spec (Collector.max s) c) as [[_ ->]|[_ ->]]; [right; by left | by left].
Qed.

Lemma update_fold_min (cs : list Z) (s : Collector.stats) :
  cs <> [] ->
  exists m, Collector.min (foldl Collector.update s cs) = Some m
    /\ (forall c, c ∈ cs -> m <= c)
    /\ (forall m0, Collector.min s = Some m0 -> m <= m0)
    /\ (m ∈ cs \/ Collector.min s = Some m).
Proof.
  revert s. induction cs as [|c cs IH]; intros s Hne; [done|].
  cbn [foldl].
  assert (exists m1, Collector.min (Collector.update s c) = Some m1 /\ m1 <= c
            /\ (forall m0, Collector.min s = Some m0 -> m1 <= m0)
            /\ (m1 = c \/ Collector.min s = Some m1)) as (m1 & Hm1 & Hm1c & Hm1s & Hm1in).
  { simpl. destruct (Collector.min s) as [m0|].
    - exists (Z.min m0 c). split_and!; [done | lia | intros ? [= <-]; lia |].
      destruct (Z.min_spec m0 c) as [[_ ->]|[_ ->]]; [by right | by left].
    - exists c. split_and!; [done | lia | done | by left]. }
  destruct cs as [|c2 cs].
  - exists m1. split_and!; [done | | done |].
    + intros c' ->%list_elem_of_singleton. done.
    + destruct Hm1in as [->|?]; [left; by left | by right].
  - destruct (IH (Collector.update s c)) as (m & Hm & Hall & Hprev & Hin); [done|].
    specialize (Hprev m1 Hm1).
    exists m. split_and!; [done | | |].
    + intros c' [->|Hc']%elem_of_cons; [lia | by apply Hall].
    + intros m0 Hm0. specialize (Hm1s m0 Hm0). lia.
    + destruct Hin as [Hin|Hin]; [left; by right|].
      rewrite Hm1 in Hin. injection Hin as <-.
      destruct Hm1in as [->|?]; [left; by left | by right].
Qed.

(** X23: the statistics that the collector keeps for a sensor are those of
    its records in the collected series: no entry without a record, and
    otherwise the total is the sum of its counts, the count their number,
    the average their mean, the minimum the smallest of them, and the
    maximum the largest of them or 0 when all of them are negative. *)
Theorem stats_by_sensor_spec (all_time_series : list Count.t) (sensor_id : string) :
  let cs := Count.count <$>
              filter (fun r => Count.counter_id r = sensor_id) all_time_series in
  (cs = [] -> Collector.stats_by_sensor all_time_series !! sensor_id = None)
  /\ (cs <> [] ->
      exists s, Collector.stats_by_sensor all_time_series !! sensor_id = Some s
        /\ Collector.total s = sumZ cs
        /\ Collector.count s = Z.of_nat (length cs)
        /\ (forall c, c ∈ cs -> Collector.final_min s <= c <= Collector.max s)
        /\ Collector.final_min s ∈ cs
        /\ (Collector.max s ∈ cs \/ Collector.max s = 0)
        /\ 0 <= Collector.max s
        /\ Collector.avg s = mean cs).
Proof.
  intros cs. unfold Collector.stats_by_sensor. rewrite stats_fold, lookup_empty.
  fold cs. split; [by intros ->|]. intros Hne.
  destruct cs as [|c cs'] eqn:Hcs; [done|]. rewrite <- Hcs in *. clear Hcs.
  set (s := foldl Collector.update (default (Collector.mk_stats 0 0 0 None) None) cs).
  exists s. cbn [default] in s.
  destruct (update_fold cs (Collector.mk_stats 0 0 0 None)) as (Ht & Hc & Hmax & Hle & Hin).
  destruct (update_fold_min cs (Collector.mk_stats 0 0 0 None) Hne)
    as (m & Hm & Hall & _ & Hmin).
  fold s in Ht, Hc, Hmax, Hle, Hin, Hm. simpl in Ht, Hc, Hmax, Hin, Hmin.
  assert (Collector.final_min s = m) as Hfm by (unfold Collector.final_min; by rewrite Hm).
  split_and!; [by destruct cs | lia | lia | | | | done |].
  - intros c' Hc'. rewrite Hfm. split; [by apply Hall | by apply Hle].
  - rewrite Hfm. by destruct Hmin.
  - destruct Hin as [?|?]; [by right | by left].
  - unfold Collector.avg, mean. rewrite Ht, Hc.
    assert ((0 <? 0 + Z.of_nat (length cs)) = true) as ->; [|done].
    apply Z.ltb_lt. destruct cs; simpl; [done | lia].
Qed.


(** The three hourly counts 1, 2 and 3 of the second counter of the small
    feed. *)
Lemma stats_by_sensor_spec_witness :
  exists s, Collector.stats_by_sensor feed_counts !! "c2" = Some s
    /\ Collector.total s = 6 /\ Collector.count s = 3
    /\ Collector.final_min s = 1 /\ Collector.max s = 3 /\ Collector.avg s = 2%Q.
Proof.
  destruct (proj2 (stats_by_sensor_spec feed_counts "c2"))
    as (s & Hs & _); [discriminate|].
  exists s. split; [exact Hs|].
  assert (Collector.stats_by_sensor feed_counts !! "c2"
          = Some (Collector.mk_stats 6 3 3 (Some 1))) as Hs'
    by (vm_compute; reflexivity).
  rewrite Hs in Hs'. injection Hs' as ->.
  split_and!; reflexivity.
Defined.

Lemma data_by_timestamp_fold (series : list Count.t) (d : gmap Z (list Count.t)) ts :
  foldl (fun d record =>
           <[Count.timestamp record :=
               default [] (d !! Count.timestamp record) ++ [record]]> d) d series !! ts
  = match filter (fun r => Count.timestamp r = ts) series with
    | [] => d !! ts
    | g => Some (default [] (d !! ts) ++ g)
    end.
Proof.
  revert d. induction series as [|r series IH]; intros d; [done|].
  cbn [foldl]. rewrite IH, filter_cons.
  destruct (decide (Count.timestamp r = ts)) as [<-|Hne].
  - rewrite lookup_insert_eq. simpl.
    destruct (filter _ series) as [|r' g]; [done|]. by rewrite <- app_assoc.
  - by rewrite lookup_insert_ne.
Qed.

Lemma data_by_timestamp_lookup series ts :
  Collector.data_by_timestamp series !! ts
  = match filter (fun r => Count.timestamp r = ts) series with
    | [] => None
    | g => Some g
    end.
Proof.
  unfold Collector.data_by_timestamp. rewrite data_by_timestamp_fold, lookup_empty.
  by destruct (filter _ series).
Qed.

Lemma data_by_timestamp_Permutation (series : list Count.t) (d : gmap Z (list Count.t)) :
  mjoin (map_to_list
           (foldl (fun d record =>
                     <[Count.timestamp record :=
                         default [] (d !! Count.timestamp record) ++ [record]]> d)
                  d series)).*2
  ≡ₚ mjoin (map_to_list d).*2 ++ series.
Proof.
  revert d. induction series as [|r series IH]; intros d; [by rewrite app_nil_r|].
  cbn [foldl]. rewrite IH.
  transitivity ((mjoin (map_to_list d).*2 ++ [r]) ++ series); [|by rewrite <- app_assoc].
  apply Permutation_app; [|done].
  destruct (d !! Count.timestamp r) as [g|] eqn:Hg; simpl.
  - rewrite <- insert_delete_eq.
    rewrite map_to_list_insert by apply lookup_delete_eq.
    rewrite <- (map_to_list_delete d _ _ Hg). csimpl.
    rewrite <- !app_assoc. apply Permutation_app; [done|].
    apply Permutation_app_comm.
  - rewrite map_to_list_insert by done. csimpl. apply Permutation_cons_append.
Qed.

Lemma hourly_files_records series :
  mjoin (Collector.hourly_files series).*2 ≡ₚ series.
Proof.
  unfold Collector.hourly_files. rewrite merge_sort_Permutation.
  unfold Collector.data_by_timestamp. rewrite data_by_timestamp_Permutation.
  by rewrite map_to_list_empty.
Qed.

Lemma all_bike_records_files series :
  all_bike_records (bike_counter_files series) = mjoin (Collector.hourly_files series).*2.
Proof.
  unfold all_bike_records, bike_counter_files. rewrite bind_app. csimpl.
  rewrite app_nil_r. generalize (Collector.hourly_files series). intros l.
  induction l as [|[ts g] l IH]; [done|]. csimpl. by rewrite IH.
Qed.

(** X24: the hourly files that the collector writes and the loader of the
    preprocessing script compose to the identity up to order: the records
    loaded from the files of one run are the collected series in another
    order, so the count lookup and the grid timestamps are those of the
    series itself; the summary file, which the file pattern also matches,
    adds no record. Every hourly file holds exactly the records of its
    timestamp, at least one, in the order of collection, and the totals
    of the hourly files add up to the total of the series. *)
Theorem collector_round_trip (all_time_series : list Count.t)
    (s2e : gmap string Assoc.t) :
  let files := bike_counter_files all_time_series in
  all_bike_records files ≡ₚ all_time_series
  /\ bike_lookup (with_edge s2e (all_bike_records files))
     = bike_lookup (with_edge s2e all_time_series)
  /\ timestamps (with_edge s2e (all_bike_records files))
     = timestamps (with_edge s2e all_time_series)
  /\ (forall ts records, (ts, records) ∈ Collector.hourly_files all_time_series ->
        records <> []
        /\ records = filter (fun r => Count.timestamp r = ts) all_time_series)
  /\ sumZ (Collector.total_passages <$> (Collector.hourly_files all_time_series).*2)
     = Collector.total_passages all_time_series.
Proof.
  intros files.
  assert (all_bike_records files ≡ₚ all_time_series) as Hperm.
  { unfold files. rewrite all_bike_records_files. apply hourly_files_records. }
  assert (with_edge s2e (all_bike_records files) ≡ₚ with_edge s2e all_time_series) as Hdf.
  { unfold with_edge. by rewrite Hperm. }
  split_and!; [done | by apply bike_lookup_Permutation
              | by apply timestamps_Permutation_eq | |].
  - intros ts records Hin. unfold Collector.hourly_files in Hin.
    rewrite merge_sort_Permutation in Hin. apply elem_of_map_to_list in Hin.
    rewrite data_by_timestamp_lookup in Hin.
    destruct (filter _ all_time_series) as [|r g]; [done|]. by injection Hin as <-.
  - transitivity (Collector.total_passages (mjoin (Collector.hourly_files all_time_series).*2)).
    + unfold Collector.total_passages.
      generalize ((Collector.hourly_files all_time_series).*2). intros l.
      induction l as [|g l IH]; [done|]. csimpl. rewrite fmap_app, sumZ_app.
      unfold sumZ in *. cbn [foldr]. by rewrite IH.
    + unfold Collector.total_passages. apply sumZ_Permutation.
      by rewrite hourly_files_records.
Qed.

Lemma collector_round_trip_witness :
  bike_lookup (with_edge feed_s2e (all_bike_records (bike_counter_files feed_counts)))
  = bike_lookup feed_df
  /\ (Collector.hourly_files feed_counts).*1 = [0; 3600; 7200]
  /\ forall records, (3600, records) ∈ Collector.hourly_files feed_counts ->
       records <> []
       /\ records = filter (fun r => Count.timestamp r = 3600) feed_counts.
Proof.
  destruct (collector_round_trip feed_counts feed_s2e) as (_ & Hlookup & _ & Hfiles & _).
  split; [exact Hlookup|]. split; [vm_compute; reflexivity|].
  intros records. apply Hfiles.
Defined.
